(** * Metrics of the economic growth model

    A shallow embedding of the arithmetic of the three report scripts
    ([currency_strength_analysis.py], [economic_comparison_dashboard.py],
    [economic_growth_prediction_model.py]): the pandas column expressions,
    the dictionary lookups, the rankings and the object state the methods
    share.  Charts and printing are left out.

    Floating-point numbers are binary64 values, as numpy's [float64] and
    Python's [float] are: the primitive [float] of Rocq, whose operations
    are specified by [SpecFloat].  Decimal literals of the source are
    read as Python reads them, to the nearest binary64 value.  The
    columns [read_csv] gives to whole numbers are [int64], whose
    arithmetic wraps around; the tables the scripts write out themselves
    hold small whole numbers that only enter float arithmetic, and are
    written as the float64 values they are converted to. *)

From Stdlib Require Import ZArith QArith Qpower Qabs Lia Lqa List Bool Floats.
From Stdlib Require Import Permutation Sorted.
From stdpp Require Import base option list gmap strings.

Set Warnings "-inexact-float".

(** ** Python results *)

Module Py.

(** A dictionary key or a row label: a string or an integer. *)
Inductive pykey :=
| KStr (s : string)
| KInt (z : Z).

(** The exceptions the modelled expressions can raise. *)
Inductive exn :=
| KeyError (k : pykey)
| ValueError
| TypeError
| ZeroDivisionError
| FileNotFoundError (path : string).

(** The outcome of evaluating a Python expression. *)
Inductive py (A : Type) :=
| Return (a : A)
| Raise (e : exn).

Arguments Return {A} a.
Arguments Raise {A} e.

#[global] Instance py_ret : MRet py := @Return.

#[global] Instance py_bind : MBind py := fun A B f m =>
  match m with
  | Return a => f a
  | Raise e => Raise e
  end.

#[global] Instance py_fmap : FMap py := fun A B f m =>
  match m with
  | Return a => Return (f a)
  | Raise e => Raise e
  end.

#[global] Instance pykey_eq_dec : EqDecision pykey.
Proof. solve_decision. Defined.

(** [d[k]] on a dict with integer keys. *)
Definition dict_getitem {V} (d : gmap Z V) (k : Z) : py V :=
  match d !! k with
  | Some v => Return v
  | None => Raise (KeyError (KInt k))
  end.

(** [d[k]] on a dict with string keys. *)
Definition dict_getitem_str {V} (d : gmap string V) (k : string) : py V :=
  match d !! k with
  | Some v => Return v
  | None => Raise (KeyError (KStr k))
  end.

(** A list comprehension [[f(y) for y in ys]]: the elements are evaluated
    in order and the first exception ends the evaluation. *)
Fixpoint comprehension {A B} (f : A -> py B) (ys : list A) : py (list B) :=
  match ys with
  | [] => Return []
  | y :: ys' =>
      match f y with
      | Raise e => Raise e
      | Return v =>
          match comprehension f ys' with
          | Raise e => Raise e
          | Return vs => Return (v :: vs)
          end
      end
  end.

(** [list(range(a, b))]. *)
Definition range (a b : Z) : list Z :=
  map (fun i => (a + Z.of_nat i)%Z) (seq 0 (Z.to_nat (b - a))).

End Py.

(** ** numpy reductions over [float64] arrays *)

Module Np.

Local Open Scope float_scope.

(** The inner loop of [np.maximum]: [(a >= b || isnan(a)) ? a : b]. *)
Definition np_maximum (a b : float) : float :=
  if (b <=? a) || is_nan a then a else b.

(** [fillna]: the masked entries replaced before a reduction. *)
Definition fillna (fill : float) (a : list float) : list float :=
  map (fun v => if is_nan v then fill else v) a.

(** [a.max()]: the reduction starts from the first element. *)
Definition np_max (a : list float) : float :=
  match a with
  | [] => nan
  | v :: r => fold_left np_maximum r v
  end.

(** Left-to-right accumulation, as the loops of the summation do. *)
Definition accumulate (acc : float) (a : list float) : float :=
  fold_left PrimFloat.add a acc.

(** The eight partial sums of the unrolled block loop: [r[j] += a[i + j]]
    for each whole block of eight elements. *)
Fixpoint add_blocks (blocks : nat) (r a : list float) : list float * list float :=
  match blocks with
  | O => (r, a)
  | S k => add_blocks k (zip_with PrimFloat.add r (take 8 a)) (drop 8 a)
  end.

(** numpy's pairwise summation of a contiguous array: fewer than eight
    elements are accumulated in order; up to 128 elements are summed with
    eight accumulators and the rest added in order; a longer array is
    split in two at a multiple of eight.  [fuel] bounds the splits. *)
Fixpoint pairwise_sum (fuel : nat) (a : list float) : float :=
  let n := length a in
  if (n <? 8)%nat then accumulate (-0) a
  else if (n <=? 128)%nat then
    let '(r, rest) := add_blocks (n / 8 - 1) (take 8 a) (drop 8 a) in
    let r_ j := nth j r 0 in
    accumulate (((r_ 0%nat + r_ 1%nat) + (r_ 2%nat + r_ 3%nat))
                + ((r_ 4%nat + r_ 5%nat) + (r_ 6%nat + r_ 7%nat))) rest
  else
    match fuel with
    | O => nan
    | S fuel' =>
        let n2 := (n / 2 - (n / 2) mod 8)%nat in
        pairwise_sum fuel' (take n2 a) + pairwise_sum fuel' (drop n2 a)
    end.

(** [a.sum()]: the identity [0.0] plus the pairwise sum. *)
Definition np_sum (a : list float) : float :=
  0 + pairwise_sum (length a) a.

(** [int64] arithmetic keeps the low 64 bits of the result, read as a
    signed number. *)
Definition wrap64 (z : Z) : Z := ((z + 2 ^ 63) mod 2 ^ 64 - 2 ^ 63)%Z.

(** [a.sum()] on an [int64] array. *)
Definition int64_sum (a : list Z) : Z := wrap64 (fold_right Z.add 0%Z a).

(** The conversion of an [int64] to [float64], to the nearest value. *)
Definition of_int64 (z : Z) : float :=
  if (z =? - 2 ^ 63)%Z then -9223372036854775808
  else if (z <? 0)%Z then - of_uint63 (Uint63.of_Z (- z))
  else of_uint63 (Uint63.of_Z z).

End Np.

(** ** pandas: Series and DataFrame *)

Module Pd.

Import Py Np.
Local Open Scope float_scope.

(** A numeric Series is its array of values; the Series of one frame
    share the frame's index, so their arithmetic is element by element. *)
Abbreviation Series := (list float).

(** [s.max()]: the NaN entries are masked (filled with -inf) and the
    result is NaN when no entry is left. *)
Definition nanmax (s : Series) : float :=
  if forallb is_nan s then nan else np_max (fillna neg_infinity s).

(** [s.sum()]: the NaN entries count as 0; the empty sum is 0. *)
Definition nansum (s : Series) : float := np_sum (fillna 0 s).

(** [s.std()], with [ddof = 1]: NaN when fewer than two entries. *)
Definition nanstd (s : Series) : float :=
  let vals := filter (fun v => negb (is_nan v)) s in
  let count := length vals in
  if (count <=? 1)%nat then nan
  else
    let n := of_uint63 (Uint63.of_Z (Z.of_nat count)) in
    let avg := np_sum (fillna 0 s) / n in
    let sqr := map (fun v => if is_nan v then 0 else (avg - v) * (avg - v)) s in
    sqrt (np_sum sqr / (n - 1)).

Definition series_mul_scalar (s : Series) (k : float) : Series := map (fun v => v * k) s.
Definition series_div_scalar (s : Series) (d : float) : Series := map (fun v => v / d) s.
Definition series_add_scalar (k : float) (s : Series) : Series := map (fun v => k + v) s.
Definition series_mul (a b : Series) : Series := zip_with PrimFloat.mul a b.
Definition series_div (a b : Series) : Series := zip_with PrimFloat.div a b.
Definition series_add (a b : Series) : Series := zip_with PrimFloat.add a b.

(** A column and its dtype: [float64], [int64], or [object] holding
    strings.  The empty object column is [StrCol []]: [read_csv] gives
    it to every column of a file that has a header and no rows. *)
Inductive column :=
| NumCol (v : list float)
| IntCol (v : list Z)
| StrCol (v : list string).

Definition column_length (c : column) : nat :=
  match c with
  | NumCol v => length v
  | IntCol v => length v
  | StrCol v => length v
  end.

(** The scalars the reductions and the arithmetic on them give: numpy's
    [float64] and [int64], Python's [int] 0 (the sum of an empty object
    column) and Python's [str]. *)
Inductive scalar :=
| Float64 (x : float)
| Int64 (z : Z)
| PyZero
| PyStr (s : string).

(** [s * k] for a string and a whole number: [k] copies, none when [k]
    is not positive. *)
Definition repeat_string (s : string) (k : Z) : string :=
  Nat.iter (Z.to_nat k) (String.append s) EmptyString.

(** [s.sum()]: NaN entries count as 0 in a float column; an int64 sum
    wraps around; the sum of an object column starts from its first
    entry (strings are concatenated) and is Python's 0 when there is
    none. *)
Definition col_sum (c : column) : scalar :=
  match c with
  | NumCol v => Float64 (nansum v)
  | IntCol v => Int64 (int64_sum v)
  | StrCol [] => PyZero
  | StrCol (s :: v) => PyStr (fold_left String.append v s)
  end.

(** [x * k] for a Python int [k] that fits an int64. *)
Definition scalar_times (x : scalar) (k : Z) : scalar :=
  match x with
  | Float64 x => Float64 (x * of_int64 k)
  | Int64 z => Int64 (wrap64 (z * k))
  | PyZero => PyZero
  | PyStr s => PyStr (repeat_string s k)
  end.

(** [x + y]: an int64 meets a float64 converted; two strings are
    concatenated; a string and a number raise TypeError. *)
Definition scalar_plus (x y : scalar) : py scalar :=
  match x, y with
  | PyStr s, PyStr t => Return (PyStr (s +:+ t))
  | PyStr _, _ | _, PyStr _ => Raise TypeError
  | Float64 a, Float64 b => Return (Float64 (a + b))
  | Float64 a, Int64 b => Return (Float64 (a + of_int64 b))
  | Int64 a, Float64 b => Return (Float64 (of_int64 a + b))
  | Float64 a, PyZero => Return (Float64 (a + 0))
  | PyZero, Float64 b => Return (Float64 (0 + b))
  | Int64 a, Int64 b => Return (Int64 (wrap64 (a + b)))
  | Int64 a, PyZero => Return (Int64 a)
  | PyZero, Int64 b => Return (Int64 b)
  | PyZero, PyZero => Return PyZero
  end.

(** The operand of a true division, as a float64. *)
Definition as_float (x : scalar) : float :=
  match x with
  | Float64 a => a
  | Int64 z => of_int64 z
  | PyZero => 0
  | PyStr _ => nan
  end.

(** [x / d] for a float literal [d] other than zero. *)
Definition scalar_over (x : scalar) (d : float) : py float :=
  match x with
  | PyStr _ => Raise TypeError
  | _ => Return (as_float x / d)
  end.

(** [x / y]: numpy's scalars divide as float64 and signal nothing on a
    zero divisor; Python's 0 over Python's 0 raises ZeroDivisionError; a
    string does not divide. *)
Definition scalar_truediv (x y : scalar) : py float :=
  match x, y with
  | PyStr _, _ | _, PyStr _ => Raise TypeError
  | PyZero, PyZero => Raise ZeroDivisionError
  | _, _ => Return (as_float x / as_float y)
  end.

Record DataFrame := mkDF {
  df_index : list pykey;
  df_columns : gmap string column
}.

(** A dict literal, in the order it is written; a later key overrides. *)
Definition dict_of {V} (d : list (string * V)) : gmap string V :=
  fold_left (fun m kv => <[kv.1 := kv.2]> m) d ∅.

(** [pd.DataFrame({name: list, ...})]: a range index; the lists must have
    one length. *)
Definition DataFrame_of_dict (d : list (string * column)) : py DataFrame :=
  match d with
  | [] => Return (mkDF [] ∅)
  | (_, c) :: _ =>
      let n := column_length c in
      if forallb (fun kc => (column_length kc.2 =? n)%nat) d
      then Return (mkDF (map KInt (range 0 (Z.of_nat n))) (dict_of d))
      else Raise ValueError
  end.

(** [pd.DataFrame({row: {name: value, ...}, ...}).T]: one row per outer
    key, one column per inner key of the first row; a value a row lacks
    is NaN. *)
Definition DataFrame_of_rows (fields : list string) (rows : list (string * gmap string float))
  : DataFrame :=
  mkDF (map (fun r => KStr r.1) rows)
       (dict_of (map (fun f => (f, NumCol (map (fun r => default nan (r.2 !! f)) rows))) fields)).

(** [df[name]]. *)
Definition df_getitem (df : DataFrame) (name : string) : py column :=
  dict_getitem_str (df_columns df) name.

(** [df[name]] where float arithmetic follows: an int64 column enters
    it converted, a column of strings does not support it. *)
Definition num_column (df : DataFrame) (name : string) : py Series :=
  c ← df_getitem df name;
  match c with
  | NumCol v => Return v
  | IntCol v => Return (map of_int64 v)
  | StrCol _ => Raise TypeError
  end.

(** The entries of a column of strings, for reading a result off a
    table. *)
Definition str_column (df : DataFrame) (name : string) : py (list string) :=
  c ← df_getitem df name;
  match c with
  | StrCol v => Return v
  | _ => Raise TypeError
  end.

(** [df[name] = values]: the length must be the index's. *)
Definition df_setitem (df : DataFrame) (name : string) (c : column) : py DataFrame :=
  if (column_length c =? length (df_index df))%nat
  then Return (mkDF (df_index df) (<[name := c]> (df_columns df)))
  else Raise ValueError.

(** [df[name] = scalar]: the scalar fills the column. *)
Definition df_setitem_scalar (df : DataFrame) (name : string) (v : float) : DataFrame :=
  mkDF (df_index df) (<[name := NumCol (map (fun _ => v) (df_index df))]> (df_columns df)).

(** [s.map(dict)]: a value that is no key of the dict becomes NaN. *)
Definition series_map_dict (s : list string) (d : gmap string float) : Series :=
  map (fun k => default nan (d !! k)) s.

(** [s.map(dict)] on a column of any dtype, for a dict with string keys:
    no number is a key, so a numeric column is mapped to NaN throughout.
    The result is a float64 column. *)
Definition series_map (c : column) (d : gmap string float) : Series :=
  match c with
  | StrCol v => series_map_dict v d
  | NumCol v => map (fun _ => nan) v
  | IntCol v => map (fun _ => nan) v
  end.

(** [a * b], element by element: float64 when either side is, with the
    int64 side converted; int64 (wrapping) for two int64 columns; the
    empty object column with anything gives the empty object column.  A
    column of strings raises TypeError with a float64 column; with an
    int64 column pandas repeats the strings, and the expressions of the
    source that multiply columns divide the sum of the product next,
    which raises TypeError on a string: the outcome of those expressions
    is this TypeError either way. *)
Definition col_mul (a b : column) : py column :=
  match a, b with
  | StrCol [], _ | _, StrCol [] => Return (StrCol [])
  | StrCol _, _ | _, StrCol _ => Raise TypeError
  | NumCol x, NumCol y => Return (NumCol (series_mul x y))
  | NumCol x, IntCol y => Return (NumCol (series_mul x (map of_int64 y)))
  | IntCol x, NumCol y => Return (NumCol (series_mul (map of_int64 x) y))
  | IntCol x, IntCol y => Return (IntCol (zip_with (fun p q => wrap64 (p * q)) x y))
  end.

(** [s == k] for a Python int [k]: a float64 entry is compared with the
    float, an int64 entry with the number, and a string equals none. *)
Definition col_eq_int (c : column) (k : Z) : list bool :=
  match c with
  | NumCol v => map (fun x => x =? of_int64 k) v
  | IntCol v => map (fun z => (z =? k)%Z) v
  | StrCol v => map (fun _ => false) v
  end.

(** [a[idx]]: the elements at the positions [idx], in that order. *)
Definition np_take {A} (a : list A) (idx : list nat) : list A :=
  omap (fun i => a !! i) idx.

Definition column_take (c : column) (idx : list nat) : column :=
  match c with
  | NumCol v => NumCol (np_take v idx)
  | IntCol v => IntCol (np_take v idx)
  | StrCol v => StrCol (np_take v idx)
  end.

(** [df.take(idx)]: the rows at the positions [idx]. *)
Definition df_take (df : DataFrame) (idx : list nat) : DataFrame :=
  mkDF (np_take (df_index df) idx) ((fun c => column_take c idx) <$> df_columns df).

(** The positions a boolean mask selects. *)
Definition mask_positions (mask : list bool) : list nat :=
  omap (fun im : nat * bool => if im.2 then Some im.1 else None)
       (zip (seq 0 (length mask)) mask).

(** [df[df[name] == k]]: the rows whose entry equals the Python int
    [k]. *)
Definition df_where_eq (df : DataFrame) (name : string) (k : Z) : py DataFrame :=
  c ← df_getitem df name;
  Return (df_take df (mask_positions (col_eq_int c k))).

Section Sorting.

(** [ndarray.argsort(kind=...)]: the sort of the keys is numpy's; pandas
    passes its [kind] argument on ("quicksort" unless the caller names
    another).  The kernel is a parameter of the model. *)
Variable argsort : list float -> list nat.

(** pandas' [nargsort] with [na_position = "last"]: the NaN keys are set
    apart; for a descending sort the keys are reversed, sorted ascending
    and the result reversed again. *)
Definition nargsort (items : list float) (ascending : bool) : list nat :=
  let mask := map is_nan items in
  let non_nan_idx := mask_positions (map negb mask) in
  let nan_idx := mask_positions mask in
  let non_nans := np_take items non_nan_idx in
  let non_nans' := if ascending then non_nans else rev non_nans in
  let non_nan_idx' := if ascending then non_nan_idx else rev non_nan_idx in
  let indexer := np_take non_nan_idx' (argsort non_nans') in
  let indexer' := if ascending then indexer else rev indexer in
  indexer' ++ nan_idx.

(** [df.sort_values(by, ascending=...)] on one float64 column, as the
    columns the scripts sort by are. *)
Definition sort_values (df : DataFrame) (by_ : string) (ascending : bool) : py DataFrame :=
  k ← num_column df by_;
  Return (df_take df (nargsort k ascending)).

End Sorting.

(** The key at a position of the array. *)
Definition key_at (v : list float) (i : nat) : float := default nan (v !! i).

(** Insertion of the position [i] into the sorted positions (kept from
    the last to the first): the scan moves left while the key of [i]
    comes [before] the key it meets. *)
Fixpoint insert_pos (before : float -> float -> bool) (v : list float) (i : nat)
    (rsorted : list nat) : list nat :=
  match rsorted with
  | [] => [i]
  | k :: rest =>
      if before (key_at v i) (key_at v k)
      then k :: insert_pos before v i rest
      else i :: rsorted
  end.

Definition insertion_argsort_by (before : float -> float -> bool) (v : list float) : list nat :=
  rev (fold_left (fun rsorted i => insert_pos before v i rsorted) (seq 0 (length v)) []).

(** The insertion sort of positions, moving left while the key is
    smaller: the pass with which numpy's generic quicksort kernel sorts
    an array of at most seventeen elements.  It keeps equal keys in
    their order.  (Where the processor has AVX2 or AVX-512, numpy runs
    its vectorised kernel on 64-bit keys in place of the generic one.) *)
Definition insertion_argsort : list float -> list nat :=
  insertion_argsort_by PrimFloat.ltb.

(** numpy's vectorised kernel (x86-simd-sort, as built for AVX-512) on
    at most eight 64-bit keys: the keys and their positions are loaded
    into the eight lanes of one register, the free lanes padded with the
    largest value, and sorted by a bitonic network of six compare-exchange
    steps.  In a step every lane meets a partner lane and takes the
    smaller or the larger of the two keys; it takes the partner's
    position when the key it takes is not equal to its own. *)
Definition lane : Type := float * nat.

Definition cmp_merge (lanes partners : list lane) (mask : list bool) : list lane :=
  zip_with (fun (own_partner : lane * lane) (take_max : bool) =>
              let '((k1, i1), (k2, i2)) := own_partner in
              let smaller := if k2 <? k1 then k2 else k1 in
              let larger := if k1 <? k2 then k2 else k1 in
              let k := if take_max then larger else smaller in
              (k, if k =? k1 then i1 else i2))
           (zip lanes partners) mask.

Definition permute (p : list nat) (lanes : list lane) : list lane :=
  map (fun j => nth j lanes (infinity, 0%nat)) p.

(** The partner lanes and the lanes that take the larger key, step by
    step. *)
Definition bitonic_network : list (list nat * list bool) :=
  let odd := [false; true; false; true; false; true; false; true] in
  let upper_pairs := [false; false; true; true; false; false; true; true] in
  let upper_half := [false; false; false; false; true; true; true; true] in
  [ ([1; 0; 3; 2; 5; 4; 7; 6]%nat, odd);
    ([3; 2; 1; 0; 7; 6; 5; 4]%nat, upper_pairs);
    ([1; 0; 3; 2; 5; 4; 7; 6]%nat, odd);
    ([7; 6; 5; 4; 3; 2; 1; 0]%nat, upper_half);
    ([2; 3; 0; 1; 6; 7; 4; 5]%nat, upper_pairs);
    ([1; 0; 3; 2; 5; 4; 7; 6]%nat, odd) ].

Definition sort_zmm_64bit (lanes : list lane) : list lane :=
  fold_left (fun l step => cmp_merge l (permute step.1 l) step.2) bitonic_network lanes.

(** The positions of at most eight keys in ascending order of the keys. *)
Definition argsort_8_64bit (v : list float) : list nat :=
  let n := length v in
  let lanes := take 8 (zip v (seq 0 n) ++ repeat (infinity, 0%nat) 8) in
  map snd (take n (sort_zmm_64bit lanes)).

End Pd.

(** ** Methods of an object

    A method reads and updates the attributes of [self]; an exception
    leaves the updates made before it. *)

Module Obj.

Import Py.

Definition meth (S A : Type) : Type := S -> py A * S.

#[global] Instance meth_ret {S} : MRet (meth S) := fun A a s => (Return a, s).

#[global] Instance meth_bind {S} : MBind (meth S) := fun A B f m s =>
  match m s with
  | (Return a, s') => f a s'
  | (Raise e, s') => (Raise e, s')
  end.

(** An expression that does not touch [self]. *)
Definition pure {S A} (m : py A) : meth S A := fun s => (m, s).

(** [self.attr]. *)
Definition getattr {S A} (attr : S -> A) : meth S A := fun s => (Return (attr s), s).

(** [self.attr = v]. *)
Definition setattr {S} (update : S -> S) : meth S unit := fun s => (Return tt, update s).

(** The value a method returns, and the object it leaves. *)
Definition result {S A} (m : meth S A) (s : S) : py A := (m s).1.
Definition after {S A} (m : meth S A) (s : S) : S := (m s).2.

End Obj.

(** ** currency_strength_analysis.py *)

Module Currency.

Import Py Np Pd Obj.
Local Open Scope float_scope.

Record Analyzer := { exchange_rates : gmap string float }.

(** [CurrencyStrengthAnalyzer()]. *)
Definition init : Analyzer :=
  {| exchange_rates := dict_of [("USD_ZAR", 18.5); ("CNY_ZAR", 2.55); ("GBP_ZAR", 23.4)] |}.

Definition ppp_data : list (string * column) :=
  [ ("Country", StrCol ["USA"; "China"; "England"; "South_Africa"]);
    ("Cost_Index", NumCol [100; 58; 127; 45]);
    ("Exchange_Rate_to_ZAR", NumCol [18.5; 2.55; 23.4; 1.0]);
    ("GDP_per_Capita_USD", NumCol [85000; 12500; 52000; 6800]) ].

(** [(df['GDP_per_Capita_USD'] * 100) / df['Cost_Index']]. *)
Definition ppp_adjusted_income_col (gdp_per_capita cost_index : Series) : Series :=
  series_div (series_mul_scalar gdp_per_capita 100) cost_index.

(** [df['Exchange_Rate_to_ZAR'] * (df['Cost_Index'] / 100)]. *)
Definition currency_fair_value_col (exchange_rate cost_index : Series) : Series :=
  series_mul exchange_rate (series_div_scalar cost_index 100).

(** [analyze_purchasing_power(self)]. *)
Definition analyze_purchasing_power : meth Analyzer DataFrame :=
  pure (
    df ← DataFrame_of_dict ppp_data;
    gdp ← num_column df "GDP_per_Capita_USD";
    cost ← num_column df "Cost_Index";
    df ← df_setitem df "PPP_Adjusted_Income" (NumCol (ppp_adjusted_income_col gdp cost));
    rate ← num_column df "Exchange_Rate_to_ZAR";
    cost ← num_column df "Cost_Index";
    df ← df_setitem df "Currency_Fair_Value" (NumCol (currency_fair_value_col rate cost));
    mret df).

(** A calendar date. *)
Record date := mkdate { year : Z; month : Z; day : Z }.

Definition leap (y : Z) : bool :=
  ((y mod 4 =? 0) && negb (y mod 100 =? 0) || (y mod 400 =? 0))%Z.

Definition days_in_month (y m : Z) : Z :=
  (if m =? 2 then (if leap y then 29 else 28)
   else if (m =? 4) || (m =? 6) || (m =? 9) || (m =? 11) then 30 else 31)%Z.

(** [pd.date_range('2023-01-01', '2024-12-31', freq='M')]: the month ends
    of the two years. *)
Definition months : list date :=
  map (fun i => let y := (2023 + Z.of_nat i / 12)%Z in
                let m := (1 + Z.of_nat i mod 12)%Z in
                mkdate y m (days_in_month y m))
      (seq 0 24).

(** The simulated trends: the three noise series (each added to its rate)
    and their standard deviations. *)
Record trends := {
  Date : list date;
  USD_ZAR : Series;
  CNY_ZAR : Series;
  GBP_ZAR : Series
}.

Record volatility := { USD : float; CNY : float; GBP : float }.

Section Random.

(** numpy's process-wide generator ([np.random]): [G] is its state and
    [gauss] draws one standard normal variate from it. *)
Variable G : Type.
Variable gauss : G -> float * G.

(** [np.random.normal(loc, scale, size)]: [size] variates drawn in turn,
    each [loc + scale * gauss]. *)
Fixpoint normal (loc scale : float) (size : nat) (g : G) : Series * G :=
  match size with
  | O => ([], g)
  | S n =>
      let '(z, g1) := gauss g in
      let '(rest, g2) := normal loc scale n g1 in
      ((loc + scale * z) :: rest, g2)
  end.

(** [create_currency_dashboard(self)]: it reads no attribute and takes no
    argument; the generator is the process's. *)
Definition create_currency_dashboard (g : G) : (trends * volatility) * G :=
  let n := length months in
  let '(usd, g1) := normal 0 0.5 n g in
  let '(cny, g2) := normal 0 0.1 n g1 in
  let '(gbp, g3) := normal 0 0.8 n g2 in
  let currency_data :=
    {| Date := months;
       USD_ZAR := series_add_scalar 18.5 usd;
       CNY_ZAR := series_add_scalar 2.55 cny;
       GBP_ZAR := series_add_scalar 23.4 gbp |} in
  let vol :=
    {| USD := nanstd (USD_ZAR currency_data);
       CNY := nanstd (CNY_ZAR currency_data);
       GBP := nanstd (GBP_ZAR currency_data) |} in
  ((currency_data, vol), g3).

Variable argsort : list float -> list nat.

Record currency_report := {
  ppp_analysis : DataFrame;
  currency_trends : trends;
  report_volatility : volatility;
  strength_ranking : DataFrame
}.

(** [generate_currency_report(self)]. *)
Definition generate_currency_report (g : G) : meth Analyzer currency_report * G :=
  let '((currency_data, vol), g') := create_currency_dashboard g in
  (ppp ← analyze_purchasing_power;
   ranking ← pure (sort_values argsort ppp "PPP_Adjusted_Income" false);
   mret {| ppp_analysis := ppp; currency_trends := currency_data;
           report_volatility := vol; strength_ranking := ranking |},
   g').

End Random.

End Currency.

(** ** The relative metric and the composite indices *)

Module Metrics.

Import Py Np Pd.
Local Open Scope float_scope.

(** [(s / s.max()) * 100]: every entry divided by the largest one. *)
Definition normalize_relative (s : Series) : Series :=
  series_mul_scalar (series_div_scalar s (nanmax s)) 100.

(** [a * wa + b * wb + c * wc], column by column. *)
Definition composite3 (a : Series) (wa : float) (b : Series) (wb : float)
    (c : Series) (wc : float) : Series :=
  series_add (series_add (series_mul_scalar a wa) (series_mul_scalar b wb))
             (series_mul_scalar c wc).

End Metrics.

(** ** economic_comparison_dashboard.py *)

Module Dashboard.

Import Py Np Pd Obj Metrics.
Local Open Scope float_scope.

Record Dashboard := { countries : list string }.

(** [EconomicComparisonDashboard()]. *)
Definition init : Dashboard :=
  {| countries := ["USA"; "China"; "England"; "South_Africa"] |}.

Definition economic_data (self : Dashboard) : list (string * column) :=
  [ ("Country", StrCol (countries self));
    ("GDP_Trillion_USD", NumCol [28.0; 18.0; 3.5; 0.4]);
    ("GDP_Growth_Rate", NumCol [2.1; 5.2; 1.8; 3.8]);
    ("Employment_Millions", NumCol [160; 780; 33; 16.5]);
    ("Currency_Strength", NumCol [100; 14; 127; 5.3]);
    ("Innovation_Index", NumCol [87.9; 81.9; 82.2; 42.4]);
    ("Economic_Freedom", NumCol [76.6; 58.4; 78.9; 59.8]) ].

(** [create_comprehensive_dashboard(self)]. *)
Definition create_comprehensive_dashboard : meth Dashboard DataFrame :=
  self ← getattr id;
  pure (
    df ← DataFrame_of_dict (economic_data self);
    gdp ← num_column df "GDP_Trillion_USD";
    df ← df_setitem df "Economic_Size_Relative" (NumCol (normalize_relative gdp));
    emp ← num_column df "Employment_Millions";
    df ← df_setitem df "Employment_Market_Relative" (NumCol (normalize_relative emp));
    inn ← num_column df "Innovation_Index";
    df ← df_setitem df "Innovation_Relative" (NumCol (normalize_relative inn));
    size ← num_column df "Economic_Size_Relative";
    growth ← num_column df "GDP_Growth_Rate";
    empr ← num_column df "Employment_Market_Relative";
    innr ← num_column df "Innovation_Relative";
    cur ← num_column df "Currency_Strength";
    df ← df_setitem df "Economic_Power_Index"
           (NumCol (series_add
                      (series_add
                         (series_add
                            (series_add (series_mul_scalar size 0.35)
                                        (series_mul_scalar growth 5))
                            (series_mul_scalar empr 0.25))
                         (series_mul_scalar innr 0.20))
                      (series_mul_scalar cur 0.20)));
    mret df).

Definition gdp_forecast : gmap Z float :=
  {[ 2024%Z := 0.42; 2025%Z := 0.45; 2026%Z := 0.48; 2027%Z := 0.52; 2028%Z := 0.56 ]}.

Definition employment_forecast : gmap Z float :=
  {[ 2024%Z := 17.2; 2025%Z := 18.1; 2026%Z := 19.0; 2027%Z := 20.1; 2028%Z := 21.3 ]}.

(** [[table[y] for y in years]]. *)
Definition linear_table_lookup (table : gmap Z float) (years : list Z) : py (list float) :=
  comprehension (dict_getitem table) years.

(** [create_growth_forecast(self)]. *)
Definition create_growth_forecast : meth Dashboard DataFrame :=
  pure (
    let years := range 2024 2029 in
    gdp ← linear_table_lookup gdp_forecast years;
    emp ← linear_table_lookup employment_forecast years;
    DataFrame_of_dict
      [ ("Year", NumCol (map (fun y => of_uint63 (Uint63.of_Z y)) years));
        ("GDP_Billion_USD", NumCol gdp);
        ("Employment_Millions", NumCol emp) ]).

End Dashboard.

(** ** economic_growth_prediction_model.py *)

Module Predictor.

Import Py Np Pd Obj Metrics.
Local Open Scope float_scope.

(** The attributes [__init__] sets to [None] and [load_data] fills. *)
Record Predictor := mkPredictor {
  private_data : option DataFrame;
  public_data : option DataFrame;
  employment_predictions : option DataFrame
}.

(** [SouthAfricaEconomicPredictor()]. *)
Definition init : Predictor := mkPredictor None None None.

(** Subscripting an attribute: [None] is not subscriptable. *)
Definition frame (attr : Predictor -> option DataFrame) : meth Predictor DataFrame :=
  fun self =>
    match attr self with
    | Some df => (Return df, self)
    | None => (Raise TypeError, self)
    end.

Definition set_private (df : DataFrame) : meth Predictor unit :=
  setattr (fun self => mkPredictor (Some df) (public_data self) (employment_predictions self)).

Definition set_public (df : DataFrame) : meth Predictor unit :=
  setattr (fun self => mkPredictor (private_data self) (Some df) (employment_predictions self)).

(** [pd.read_csv(path)]: the parsed table of the file, if there is one.
    [files] holds the tables as pandas parses them: a column of whole
    numbers is [int64], a column of numbers with a fraction or a missing
    entry is [float64], a column of text is [object], and every column of
    a file without rows is the empty [object] column. *)
Definition read_csv (files : gmap string DataFrame) (path : string) : py DataFrame :=
  match files !! path with
  | Some df => Return df
  | None => Raise (FileNotFoundError path)
  end.

(** [load_data(self)]. *)
Definition load_data (files : gmap string DataFrame) : meth Predictor unit :=
  priv ← pure (read_csv files "south_africa_private_sector_growth.csv");
  _ ← setattr (fun self => mkPredictor (Some priv) (public_data self) (employment_predictions self));
  pub ← pure (read_csv files "south_africa_public_sector_growth.csv");
  _ ← setattr (fun self => mkPredictor (private_data self) (Some pub) (employment_predictions self));
  emp ← pure (read_csv files "employment_growth_predictions.csv");
  setattr (fun self => mkPredictor (private_data self) (public_data self) (Some emp)).

Definition private_gdp : gmap string float :=
  dict_of [ ("Finance", 0.25); ("ICT", 0.15); ("Manufacturing", 0.12);
            ("Construction", 0.08); ("Agriculture", 0.05); ("Transport", 0.06);
            ("Wholesale", 0.10); ("Other", 0.19) ].

(** [(growth / 100) * contribution]. *)
Definition gdp_impact (growth contribution : Series) : Series :=
  series_mul (series_div_scalar growth 100) contribution.

(** [(df['Growth_%'] / 100) * df['Economic_Contribution']] by the dtype
    of the growth column: an int64 column is divided as float64; the
    empty object column stays one; a column of strings does not
    divide. *)
Definition gdp_impact_col (growth : column) (contribution : Series) : py column :=
  match growth with
  | NumCol g => Return (NumCol (gdp_impact g contribution))
  | IntCol g => Return (NumCol (gdp_impact (map of_int64 g) contribution))
  | StrCol [] => Return (StrCol [])
  | StrCol _ => Raise TypeError
  end.

(** [calculate_economic_indicators(self)]: the two frames get their
    [Economic_Contribution] and [GDP_Impact] columns in place. *)
Definition calculate_economic_indicators : meth Predictor unit :=
  df ← frame private_data;
  sector ← pure (df_getitem df "Sector");
  df ← pure (df_setitem df "Economic_Contribution" (NumCol (series_map sector private_gdp)));
  _ ← set_private df;
  growth ← pure (df_getitem df "Growth_%");
  contribution ← pure (num_column df "Economic_Contribution");
  impact ← pure (gdp_impact_col growth contribution);
  df ← pure (df_setitem df "GDP_Impact" impact);
  _ ← set_private df;
  df ← frame public_data;
  let df := df_setitem_scalar df "Economic_Contribution" 0.20 in
  _ ← set_public df;
  growth ← pure (df_getitem df "Growth_%");
  contribution ← pure (num_column df "Economic_Contribution");
  impact ← pure (gdp_impact_col growth contribution);
  df ← pure (df_setitem df "GDP_Impact" impact);
  set_public df.

(** [(total_private * 85000 + total_public * 75000) / 1e6]. *)
Definition base_gdp_of (total_private total_public : scalar) : py float :=
  total ← scalar_plus (scalar_times total_private 85000) (scalar_times total_public 75000);
  scalar_over total 1e6.

(** [(impact * employment).sum() / total], where [total] is the sum of
    the employment column taken before. *)
Definition weighted_growth (impact employment : column) (total : scalar) : py float :=
  weighted ← col_mul impact employment;
  scalar_truediv (col_sum weighted) total.

Record growth_forecast := {
  base_gdp_billion : float;
  predicted_growth_rate : float;
  gdp_2024 : float
}.

(** [predict_gdp_growth(self)]. *)
Definition predict_gdp_growth : meth Predictor growth_forecast :=
  priv ← frame private_data;
  emp_private ← pure (df_getitem priv "Employment_2024");
  let total_private_employment := col_sum emp_private in
  pub ← frame public_data;
  emp_public ← pure (df_getitem pub "Employment_2023");
  let total_public_employment := col_sum emp_public in
  base_gdp ← pure (base_gdp_of total_private_employment total_public_employment);
  impact_private ← pure (df_getitem priv "GDP_Impact");
  emp_private ← pure (df_getitem priv "Employment_2024");
  private_growth ← pure (weighted_growth impact_private emp_private total_private_employment);
  impact_public ← pure (df_getitem pub "GDP_Impact");
  emp_public ← pure (df_getitem pub "Employment_2023");
  public_growth ← pure (weighted_growth impact_public emp_public total_public_employment);
  let total_growth := (private_growth * 0.8 + public_growth * 0.2) * 100 in
  mret {| base_gdp_billion := base_gdp;
          predicted_growth_rate := total_growth;
          gdp_2024 := base_gdp * (1 + total_growth / 100) |}.

Definition countries : list (string * gmap string float) :=
  [ ("USA", dict_of [("gdp", 28.0); ("employment_millions", 160); ("currency_strength", 1.0)]);
    ("China", dict_of [("gdp", 18.0); ("employment_millions", 780); ("currency_strength", 0.14)]);
    ("England", dict_of [("gdp", 3.5); ("employment_millions", 33); ("currency_strength", 1.27)]);
    ("South_Africa",
       dict_of [("gdp", 0.4); ("employment_millions", 16.5); ("currency_strength", 0.053)]) ].

(** [create_international_comparison(self)]. *)
Definition create_international_comparison : meth Predictor DataFrame :=
  pure (
    let df := DataFrame_of_rows ["gdp"; "employment_millions"; "currency_strength"] countries in
    gdp ← num_column df "gdp";
    df ← df_setitem df "Economic_Size_Index" (NumCol (normalize_relative gdp));
    emp ← num_column df "employment_millions";
    df ← df_setitem df "Employment_Strength" (NumCol (normalize_relative emp));
    cur ← num_column df "currency_strength";
    df ← df_setitem df "Currency_Power" (NumCol (normalize_relative cur));
    size ← num_column df "Economic_Size_Index";
    strength ← num_column df "Employment_Strength";
    power ← num_column df "Currency_Power";
    df ← df_setitem df "Composite_Power" (NumCol (composite3 size 0.4 strength 0.3 power 0.3));
    mret df).

(** [df[df['Year'] == year]['Predicted_Employment'].sum()]. *)
Definition employment_in (df : DataFrame) (year : Z) : py scalar :=
  rows ← df_where_eq df "Year" year;
  c ← df_getitem rows "Predicted_Employment";
  mret (col_sum c).

Record predictions := {
  forecast : growth_forecast;
  international_comparison : DataFrame;
  employment_2028 : scalar;
  economic_ranking : DataFrame
}.

Section Report.

Variable argsort : list float -> list nat.

(** [generate_predictions(self)]. *)
Definition generate_predictions (files : gmap string DataFrame) : meth Predictor predictions :=
  _ ← load_data files;
  _ ← calculate_economic_indicators;
  gdp ← predict_gdp_growth;
  comparison ← create_international_comparison;
  emp ← frame employment_predictions;
  employment ← pure (employment_in emp 2028%Z);
  ranking ← pure (sort_values argsort comparison "Composite_Power" false);
  mret {| forecast := gdp; international_comparison := comparison;
          employment_2028 := employment; economic_ranking := ranking |}.

End Report.

(** The cell of a numeric column at a row label: [df[name][label]]. *)
Definition cell (df : DataFrame) (name : string) (label : pykey) : py float :=
  v ← num_column df name;
  match list_find (fun l => l = label) (df_index df) with
  | Some (i, _) =>
      match v !! i with
      | Some x => Return x
      | None => Raise (KeyError label)
      end
  | None => Raise (KeyError label)
  end.

End Predictor.

(** ** The formulas of the metrics, row by row

    The per-row reading of the column expressions, over numbers with a
    product and a quotient: [binary64] is the arithmetic of the code. *)

Module Formula.

Class Arith (R : Type) := {
  mul : R -> R -> R;
  div : R -> R -> R;
  hundred : R
}.

#[global] Instance binary64 : Arith float :=
  {| mul := PrimFloat.mul; div := PrimFloat.div; hundred := 100%float |}.

(** gdp_per_capita * 100 / cost_index. *)
Definition ppp_adjusted_income {R} `{Arith R} (gdp_per_capita cost_index : R) : R :=
  div (mul gdp_per_capita hundred) cost_index.

(** exchange_rate * (cost_index / 100). *)
Definition currency_fair_value {R} `{Arith R} (exchange_rate cost_index : R) : R :=
  mul exchange_rate (div cost_index hundred).

(** [|x - y| <= tol]. *)
Definition close_to (x y tol : float) : bool :=
  (abs (x - y) <=? tol)%float.

End Formula.

(** ** The weighted growth as the specification words it

    A sector is a growth percentage, a contribution weight and an
    employment.  The definitions of this module follow the words of the
    specification and use none of the reductions of the code. *)
Module Sector.

Local Open Scope float_scope.

Record sector := {
  growth_pct : float;
  contribution_weight : float;
  employment : float
}.




End Sector.

(** * Properties *)

Import Py Np Pd Obj Metrics.

Section ColumnFacts.

Local Open Scope float_scope.

Lemma zip_with_lookup_Some {A B C} (f : A -> B -> C) (a : list A) (b : list B) i x y :
  a !! i = Some x -> b !! i = Some y -> zip_with f a b !! i = Some (f x y).
Proof.
  intros Ha Hb. rewrite lookup_zip_with, Ha. simpl. rewrite Hb. reflexivity.
Qed.

Lemma series_mul_scalar_lookup (s : Series) k i x :
  s !! i = Some x -> series_mul_scalar s k !! i = Some (x * k).
Proof.
  intros H. unfold series_mul_scalar. rewrite list_lookup_fmap, H. reflexivity.
Qed.

Lemma series_div_scalar_lookup (s : Series) k i x :
  s !! i = Some x -> series_div_scalar s k !! i = Some (x / k).
Proof.
  intros H. unfold series_div_scalar. rewrite list_lookup_fmap, H. reflexivity.
Qed.

End ColumnFacts.

Section PurchasingPower.

Import Currency Formula.
Local Open Scope float_scope.

(** The [PPP_Adjusted_Income] column of the analyzer's table. *)
Definition ppp_income_column : py Series :=
  df ← result analyze_purchasing_power Currency.init;
  num_column df "PPP_Adjusted_Income".

Definition fair_value_column : py Series :=
  df ← result analyze_purchasing_power Currency.init;
  num_column df "Currency_Fair_Value".

(** C7.  Every row of the [PPP_Adjusted_Income] column is its row's
    gdp_per_capita * 100 / cost_index, whatever the columns hold (a zero
    cost index included).  On the analyzer's table the USA row
    (85000, 100) is exactly 85000.0 and the South_Africa row (6800, 45) is
    15111.11 to within 0.005. *)
Theorem ppp_adjusted_income_rows :
  (forall (gdp_per_capita cost_index : Series) (i : nat) (g c : float),
      gdp_per_capita !! i = Some g ->
      cost_index !! i = Some c ->
      ppp_adjusted_income_col gdp_per_capita cost_index !! i
      = Some (ppp_adjusted_income g c)
      /\ ppp_adjusted_income g c = g * 100 / c)
  /\ ppp_adjusted_income 85000 100 = 85000
  /\ close_to (ppp_adjusted_income 6800 45) 15111.11 0.005 = true
  /\ (exists usa china england south_africa,
        ppp_income_column = Return [usa; china; england; south_africa]
        /\ usa = ppp_adjusted_income 85000 100
        /\ south_africa = ppp_adjusted_income 6800 45).
Proof.
  split; [| split; [| split]].
  - intros gdp cost i g c Hg Hc. split; [| reflexivity].
    unfold ppp_adjusted_income_col, series_div, ppp_adjusted_income. simpl.
    apply zip_with_lookup_Some; [| exact Hc].
    now apply series_mul_scalar_lookup.
  - reflexivity.
  - vm_compute. reflexivity.
  - eexists _, _, _, _. split; [vm_compute; reflexivity |].
    split; vm_compute; reflexivity.
Qed.

(** C10, as stated, fails in binary64: on the China row of the analyzer's
    table (12500, 2.55, 58) the product of the two derived metrics is
    31875 while g * e rounds to 31874.999999999996. *)
Lemma ppp_fair_value_product_binary64 :
  (exists usa england south_africa usa' england' south_africa',
      ppp_income_column
      = Return [usa; ppp_adjusted_income 12500 58; england; south_africa]
      /\ fair_value_column
         = Return [usa'; currency_fair_value 2.55 58; england'; south_africa'])
  /\ ppp_adjusted_income 12500 58 * currency_fair_value 2.55 58 = 31875
  /\ 12500 * 2.55 = 31874.999999999996
  /\ (ppp_adjusted_income 12500 58 * currency_fair_value 2.55 58 =? 12500 * 2.55) = false.
Proof.
  split; [| split; [| split]]; try (vm_compute; reflexivity).
  eexists _, _, _, _, _, _. split; vm_compute; reflexivity.
Qed.

End PurchasingPower.


Section CompositePower.

Import Predictor Formula.
Local Open Scope float_scope.

(** The comparison table of the predictor, and its USA row. *)
Definition comparison : py DataFrame :=
  result create_international_comparison Predictor.init.

Definition usa (name : string) : py float :=
  df ← comparison; cell df name (KStr "USA").

(** C2, as stated, fails: the largest currency strength is England's
    1.27, so the USA's Currency_Power is 1.0 / 1.27 * 100 and not 100, and
    the USA's Composite_Power is 69.775893397940635, more than 0.01 away
    from 76.15. *)
Lemma composite_power_usa_is_not_76_15 :
  usa "Currency_Power" = Return (1.0 / 1.27 * 100)
  /\ (1.0 / 1.27 * 100 =? 100) = false
  /\ usa "Composite_Power" = Return 69.775893397940635
  /\ close_to 69.775893397940635 76.15 0.01 = false.
Proof.
  repeat split; vm_compute; reflexivity.
Qed.

(** C2, amended.  With weights 0.4/0.3/0.3 over the country table, the
    USA row has Economic_Size_Index = 100, Employment_Strength =
    160/780*100 (20.51 to within 0.01), Currency_Power = 1.0/1.27*100
    (78.74 to within 0.01; England's is 100) and Composite_Power =
    100*0.4 + Employment_Strength*0.3 + Currency_Power*0.3, which is
    69.78 to within 0.01. *)
Theorem composite_power_usa :
  usa "Economic_Size_Index" = Return 100
  /\ usa "Employment_Strength" = Return (160 / 780 * 100)
  /\ close_to (160 / 780 * 100) 20.51 0.01 = true
  /\ usa "Currency_Power" = Return (1.0 / 1.27 * 100)
  /\ close_to (1.0 / 1.27 * 100) 78.74 0.01 = true
  /\ (df ← comparison; cell df "Currency_Power" (KStr "England")) = Return 100
  /\ usa "Composite_Power"
     = Return (100 * 0.4 + (160 / 780 * 100) * 0.3 + (1.0 / 1.27 * 100) * 0.3)
  /\ close_to (100 * 0.4 + (160 / 780 * 100) * 0.3 + (1.0 / 1.27 * 100) * 0.3) 69.78 0.01
     = true.
Proof.
  repeat split; vm_compute; reflexivity.
Qed.

End CompositePower.


Section TableLookup.

Import Dashboard Predictor.
Local Open Scope float_scope.

(** The comprehension ends at the first element whose evaluation
    raises, with its exception. *)
Lemma comprehension_raises {A B} (f : A -> py B) (found : list A) (y : A) (rest : list A)
    (e : exn) :
  Forall (fun x => exists v, f x = Return v) found ->
  f y = Raise e ->
  comprehension f (found ++ y :: rest) = Raise e.
Proof.
  intros Hfound Hy. induction Hfound as [| x found [v Hx] _ IH]; simpl.
  - now rewrite Hy.
  - now rewrite Hx, IH.
Qed.

Lemma comprehension_returns {A B} (f : A -> py B) (g : A -> B) (ys : list A) :
  (forall y, y ∈ ys -> f y = Return (g y)) ->
  comprehension f ys = Return (map g ys).
Proof.
  induction ys as [| x ys IH]; intros H; simpl; [reflexivity |].
  rewrite (H x) by apply list_elem_of_here.
  rewrite IH; [reflexivity |].
  intros y Hy. apply H. now apply list_elem_of_further.
Qed.

Lemma mask_positions_from_none (mask : list bool) (start : nat) :
  Forall (fun b => b = false) mask ->
  omap (fun im : nat * bool => if im.2 then Some im.1 else None)
       (zip (seq start (length mask)) mask) = [].
Proof.
  intros H. revert start. induction H as [| b mask Hb _ IH]; intros start; simpl.
  - reflexivity.
  - subst b. apply IH.
Qed.

Lemma mask_positions_none (mask : list bool) :
  Forall (fun b => b = false) mask -> mask_positions mask = [].
Proof. apply mask_positions_from_none. Qed.

(** A table of predictions that ends in 2027. *)
Definition predictions_to_2027 : DataFrame :=
  mkDF (map KInt (range 0 4))
       (dict_of [ ("Year", IntCol [2024; 2025; 2026; 2027]%Z);
                  ("Predicted_Employment",
                   IntCol [17200000; 18100000; 19000000; 20100000]%Z) ]).

(** C4, as stated, fails for the employment lookup of
    [generate_predictions]: the rows of the requested year are selected
    with a mask and summed, so a year the table lacks (2028 here) yields
    the empty sum 0 and no error. *)
Lemma employment_of_absent_year_is_zero :
  df_getitem predictions_to_2027 "Year" = Return (IntCol [2024; 2025; 2026; 2027]%Z)
  /\ forallb (fun y => negb (y =? 2028)%Z) [2024; 2025; 2026; 2027]%Z = true
  /\ employment_in predictions_to_2027 2028 = Return (Int64 0).
Proof.
  repeat split; vm_compute; reflexivity.
Qed.

(** The sum of no rows of a column: the zero of its dtype. *)
Definition empty_sum (c : column) : scalar :=
  match c with
  | NumCol _ => Float64 0
  | IntCol _ => Int64 0
  | StrCol _ => PyZero
  end.

(** C4, amended.  The dictionary lookup of the forecast tables
    ([[table[y] for y in years]]) fails with KeyError at the first
    requested year the mapping lacks, and returns the values of the years
    when it lacks none: it never substitutes a default.  The employment
    lookup of [generate_predictions] selects the rows of the year and
    sums them: it returns 0 for a year that no row holds. *)
Theorem lookup_of_absent_year :
  (forall (table : gmap Z float) (found : list Z) (y : Z) (rest : list Z),
      Forall (fun x => is_Some (table !! x)) found ->
      table !! y = None ->
      linear_table_lookup table (found ++ y :: rest) = Raise (KeyError (KInt y)))
  /\ (forall (table : gmap Z float) (years : list Z),
         (forall y, y ∈ years -> is_Some (table !! y)) ->
         linear_table_lookup table years = Return (map (fun y => default nan (table !! y)) years))
  /\ (forall (df : DataFrame) (years employment : column) (y : Z),
         df_columns df !! "Year" = Some years ->
         df_columns df !! "Predicted_Employment" = Some employment ->
         Forall (fun b => b = false) (col_eq_int years y) ->
         employment_in df y = Return (empty_sum employment)).
Proof.
  split; [| split].
  - intros table found y rest Hfound Hy. unfold linear_table_lookup.
    apply comprehension_raises.
    + eapply Forall_impl; [exact Hfound |]. intros x [v Hv].
      exists v. unfold dict_getitem. now rewrite Hv.
    + unfold dict_getitem. now rewrite Hy.
  - intros table years Hall. unfold linear_table_lookup.
    apply comprehension_returns. intros y Hy.
    destruct (Hall y Hy) as [v Hv]. unfold dict_getitem. now rewrite Hv.
  - intros df years employment y HY HE Hnone.
    unfold employment_in, df_where_eq, df_getitem, dict_getitem_str.
    rewrite HY. simpl.
    rewrite (mask_positions_none _ Hnone).
    unfold df_take. simpl. rewrite lookup_fmap, HE.
    destruct employment; reflexivity.
Qed.

(** The theorem at the forecast table of the dashboard: 2029 is the
    first year it lacks, and the five years of [create_growth_forecast]
    are found. *)
Lemma lookup_of_absent_year_witness :
  linear_table_lookup gdp_forecast ([2027; 2028] ++ 2029 :: [2030; 2024])%Z
  = Raise (KeyError (KInt 2029))
  /\ linear_table_lookup gdp_forecast (range 2024 2029)
     = Return [0.42; 0.45; 0.48; 0.52; 0.56].
Proof.
  split.
  - apply (proj1 lookup_of_absent_year gdp_forecast [2027; 2028]%Z 2029%Z [2030; 2024]%Z).
    + repeat constructor; eexists; reflexivity.
    + reflexivity.
  - vm_compute. reflexivity.
Defined.

End TableLookup.

(** ** Binary64 arithmetic

    The rounding of [SpecFloat], as far as the relative metric needs it:
    a quotient or a product whose exact value lies below a float is
    rounded to a float that is no larger. *)

Section Binary64.

Local Open Scope Z_scope.

Lemma fexp64 (e : Z) : fexp prec emax e = Z.max (e - 53) (-1074).
Proof. reflexivity. Qed.

Lemma fexp64_mono (a b : Z) : a <= b -> fexp prec emax a <= fexp prec emax b.
Proof. rewrite !fexp64. lia. Qed.

Lemma digits2_pos_size (p : positive) : digits2_pos p = Pos.size p.
Proof. induction p; simpl; congruence. Qed.

Lemma Zdigits2_bounds (z : Z) :
  0 < z -> 2 ^ (Zdigits2 z - 1) <= z < 2 ^ Zdigits2 z.
Proof.
  destruct z as [| p | p]; try lia. intros _.
  change (Zdigits2 (Z.pos p)) with (Z.pos (digits2_pos p)).
  rewrite digits2_pos_size.
  pose proof (Pos.size_gt p) as Hgt. pose proof (Pos.size_le p) as Hle.
  apply Pos2Z.pos_lt_pos in Hgt. apply Pos2Z.pos_le_pos in Hle.
  rewrite Pos2Z.inj_pow in Hgt, Hle.
  change (Z.pos 2) with 2 in Hgt, Hle.
  change (Z.pos p~0) with (2 * Z.pos p) in Hle.
  split; [| exact Hgt].
  assert (H : 2 ^ Z.pos (Pos.size p) = 2 * 2 ^ (Z.pos (Pos.size p) - 1)).
  { rewrite <- Z.pow_succ_r by lia. f_equal. lia. }
  lia.
Qed.

Lemma Zdigits2_nonneg (z : Z) : 0 <= Zdigits2 z.
Proof. destruct z; simpl; lia. Qed.

Lemma Zdigits2_unique (z d : Z) : 2 ^ (d - 1) <= z < 2 ^ d -> 0 < z -> Zdigits2 z = d.
Proof.
  intros [Hl Hu] Hz. pose proof (Zdigits2_bounds z Hz) as [Hl' Hu'].
  pose proof (Zdigits2_nonneg z).
  assert (0 <= d).
  { destruct (Z.le_gt_cases 0 d); [assumption |]. rewrite Z.pow_neg_r in Hu by lia. lia. }
  assert (Zdigits2 z - 1 < d).
  { apply (Z.pow_lt_mono_r_iff 2); lia. }
  assert (d - 1 < Zdigits2 z).
  { apply (Z.pow_lt_mono_r_iff 2); lia. }
  lia.
Qed.

Lemma Zdigits2_mono (a b : Z) : 0 <= a <= b -> Zdigits2 a <= Zdigits2 b.
Proof.
  intros [Ha Hab]. destruct (Z.eq_dec a 0) as [-> | Hne].
  - apply Zdigits2_nonneg.
  - pose proof (Zdigits2_bounds a ltac:(lia)) as [Hl _].
    pose proof (Zdigits2_bounds b ltac:(lia)) as [_ Hu].
    pose proof (Zdigits2_nonneg b).
    assert (Zdigits2 a - 1 < Zdigits2 b).
    { apply (Z.pow_lt_mono_r_iff 2); lia. }
    lia.
Qed.

Lemma Zdigits2_shift (m j : Z) : 0 < m -> 0 <= j -> Zdigits2 (m * 2 ^ j) = Zdigits2 m + j.
Proof.
  intros Hm Hj. pose proof (Zdigits2_bounds m Hm) as [Hl Hu].
  pose proof (Zdigits2_nonneg m).
  assert (1 <= Zdigits2 m).
  { destruct m; simpl in *; lia. }
  apply Zdigits2_unique.
  - replace (Zdigits2 m + j - 1) with (Zdigits2 m - 1 + j) by lia.
    rewrite !Z.pow_add_r by lia. split.
    + apply Z.mul_le_mono_nonneg_r; lia.
    + apply Z.mul_lt_mono_pos_r; lia.
  - apply Z.mul_pos_pos; lia.
Qed.

Lemma shr_1_m (mrs : shr_record) : 0 <= shr_m mrs -> shr_m (shr_1 mrs) = shr_m mrs / 2.
Proof.
  destruct mrs as [m r s]. simpl. intros Hm.
  destruct m as [| p | p]; try lia; [reflexivity |].
  destruct p as [p | p |]; simpl.
  - rewrite Pos2Z.inj_xI. apply Z.div_unique with (r := 1); lia.
  - rewrite Pos2Z.inj_xO. apply Z.div_unique with (r := 0); lia.
  - reflexivity.
Qed.

Lemma iter_pos_shr_1 (p : positive) (mrs : shr_record) :
  0 <= shr_m mrs -> shr_m (SpecFloat.iter_pos shr_1 p mrs) = shr_m mrs / 2 ^ Z.pos p.
Proof.
  revert mrs. induction p as [p IH | p IH |]; intros mrs Hm; simpl SpecFloat.iter_pos.
  - assert (H1 : 0 <= shr_m (shr_1 mrs)).
    { rewrite shr_1_m by assumption. apply Z.div_pos; lia. }
    assert (H2 : 0 <= shr_m (SpecFloat.iter_pos shr_1 p (shr_1 mrs))).
    { rewrite IH by assumption. apply Z.div_pos; lia. }
    rewrite IH, IH, shr_1_m by assumption.
    rewrite !Z.div_div by lia. f_equal.
    assert (E : 2 ^ Z.pos p~1 = 2 * (2 ^ Z.pos p * 2 ^ Z.pos p)).
    { rewrite <- Z.pow_add_r, <- Z.pow_succ_r by lia. f_equal. lia. }
    rewrite E. ring.
  - assert (H2 : 0 <= shr_m (SpecFloat.iter_pos shr_1 p mrs)).
    { rewrite IH by assumption. apply Z.div_pos; lia. }
    rewrite IH, IH by assumption.
    rewrite !Z.div_div by lia. f_equal.
    rewrite <- Z.pow_add_r by lia. f_equal. lia.
  - rewrite shr_1_m by assumption. reflexivity.
Qed.

Lemma shr_spec (mrs : shr_record) (e n : Z) :
  0 <= shr_m mrs ->
  shr_m (fst (shr mrs e n)) = shr_m mrs / 2 ^ Z.max n 0
  /\ snd (shr mrs e n) = e + Z.max n 0.
Proof.
  intros Hm. destruct n as [| p | p]; simpl.
  - rewrite Z.div_1_r. lia.
  - rewrite iter_pos_shr_1 by assumption. split; reflexivity.
  - rewrite Z.div_1_r. lia.
Qed.

Lemma shr_record_of_loc_m (m : Z) (l : location) : shr_m (shr_record_of_loc m l) = m.
Proof. destruct l as [| []]; reflexivity. Qed.

Lemma round_nearest_even_bounds (m : Z) (l : location) :
  m <= round_nearest_even m l <= m + 1.
Proof.
  destruct l as [| []]; simpl; try lia. destruct (Z.even m); lia.
Qed.

(** A positive result no larger than the float [mB * 2^eB]. *)
Definition below (r : spec_float) (mB : positive) (eB : Z) : Prop :=
  r = S754_zero false
  \/ exists m e, r = S754_finite false m e /\ (e < eB \/ (e = eB /\ (m <= mB)%positive)).

Lemma shr_fexp_spec (m e : Z) (l : location) :
  0 <= m ->
  let k := Z.max (fexp prec emax (Zdigits2 m + e) - e) 0 in
  shr_m (fst (shr_fexp prec emax m e l)) = m / 2 ^ k
  /\ snd (shr_fexp prec emax m e l) = e + k.
Proof.
  intros Hm k. unfold shr_fexp.
  rewrite <- (shr_record_of_loc_m m l) at 3.
  apply shr_spec. now rewrite shr_record_of_loc_m.
Qed.

Lemma binary_round_aux_below (mx ex : Z) (lx : location) (mB : positive) (eB : Z) :
  0 <= mx -> ex <= eB -> eB <= 971 ->
  fexp prec emax (Zdigits2 (Z.pos mB) + eB) = eB ->
  mx + 1 <= Z.pos mB * 2 ^ (eB - ex) ->
  below (binary_round_aux prec emax false mx ex lx) mB eB.
Proof.
  intros Hmx Hex HeB Hcanon Hlt.
  unfold binary_round_aux.
  pose proof (shr_fexp_spec mx ex lx Hmx) as [Hm1 He1].
  destruct (shr_fexp prec emax mx ex lx) as [mrs1 e1]. simpl in Hm1, He1.
  set (k1 := Z.max (fexp prec emax (Zdigits2 mx + ex) - ex) 0) in *.
  assert (Hk1 : 0 <= k1) by lia.
  (* the first shift stays below the bound *)
  assert (Hd1 : Zdigits2 mx + ex <= Zdigits2 (Z.pos mB) + eB).
  { assert (Zdigits2 mx <= Zdigits2 (Z.pos mB * 2 ^ (eB - ex))).
    { apply Zdigits2_mono. lia. }
    rewrite Zdigits2_shift in H by lia. lia. }
  assert (He1B : e1 <= eB).
  { pose proof (fexp64_mono _ _ Hd1). lia. }
  set (m1 := shr_m mrs1) in *.
  assert (Hm1B : 0 <= m1 /\ m1 + 1 <= Z.pos mB * 2 ^ (eB - e1)).
  { rewrite Hm1. split; [apply Z.div_pos; lia |].
    assert (mx / 2 ^ k1 < Z.pos mB * 2 ^ (eB - e1)); [| lia].
    apply Z.div_lt_upper_bound; [lia |].
    replace (2 ^ k1 * (Z.pos mB * 2 ^ (eB - e1))) with (Z.pos mB * 2 ^ (eB - ex)); [lia |].
    replace (eB - ex) with (k1 + (eB - e1)) by lia.
    rewrite Z.pow_add_r by lia. ring. }
  pose proof (round_nearest_even_bounds m1 (loc_of_shr_record mrs1)) as Hrne.
  set (m2 := round_nearest_even m1 (loc_of_shr_record mrs1)) in *.
  assert (Hm2 : 0 <= m2) by lia.
  pose proof (shr_fexp_spec m2 e1 loc_Exact Hm2) as [Hm3 He3].
  destruct (shr_fexp prec emax m2 e1 loc_Exact) as [mrs3 e3]. simpl in Hm3, He3.
  set (k2 := Z.max (fexp prec emax (Zdigits2 m2 + e1) - e1) 0) in *.
  assert (Hd2 : Zdigits2 m2 + e1 <= Zdigits2 (Z.pos mB) + eB).
  { assert (Zdigits2 m2 <= Zdigits2 (Z.pos mB * 2 ^ (eB - e1))).
    { apply Zdigits2_mono. lia. }
    rewrite Zdigits2_shift in H by lia. lia. }
  assert (He3B : e3 <= eB).
  { pose proof (fexp64_mono _ _ Hd2). lia. }
  assert (Hm3B : 0 <= shr_m mrs3 /\ shr_m mrs3 <= Z.pos mB * 2 ^ (eB - e3)).
  { rewrite Hm3. split; [apply Z.div_pos; lia |].
    apply Z.div_le_upper_bound; [lia |].
    replace (2 ^ k2 * (Z.pos mB * 2 ^ (eB - e3))) with (Z.pos mB * 2 ^ (eB - e1)); [lia |].
    replace (eB - e1) with (k2 + (eB - e3)) by lia.
    rewrite Z.pow_add_r by lia. ring. }
  destruct (shr_m mrs3) as [| m3 | m3]; [left; reflexivity | | lia].
  right. replace (e3 <=? emax - prec) with true.
  2:{ symmetry. apply Z.leb_le. change (emax - prec) with 971. lia. }
  exists m3, e3. split; [reflexivity |].
  destruct (Z.eq_dec e3 eB) as [-> | Hne]; [right | left; lia].
  split; [reflexivity |]. rewrite Z.sub_diag, Z.pow_0_r in Hm3B. lia.
Qed.


Lemma valid_finite (s : bool) (m : positive) (e : Z) :
  valid_binary (S754_finite s m e) = true ->
  fexp prec emax (Zdigits2 (Z.pos m) + e) = e /\ e <= 971.
Proof.
  unfold SpecFloat.valid_binary, bounded, canonical_mantissa.
  intros H. apply andb_true_iff in H as [H1 H2].
  apply Z.eqb_eq in H1. apply Z.leb_le in H2. split; assumption.
Qed.

(** The digits and the exponent of a valid float. *)
Lemma valid_finite_digits (s : bool) (m : positive) (e : Z) :
  valid_binary (S754_finite s m e) = true ->
  -1074 <= e <= 971 /\ Zdigits2 (Z.pos m) <= 53 /\ (-1074 < e -> Zdigits2 (Z.pos m) = 53).
Proof.
  intros H. apply valid_finite in H as [H1 H2]. rewrite fexp64 in H1. lia.
Qed.

Lemma div_eucl_div (a b : Z) : Z.div_eucl a b = (a / b, a mod b).
Proof. unfold Z.div, Z.modulo. now destruct (Z.div_eucl a b). Qed.

Lemma SFdiv_core_binary_spec (m1 e1 m2 e2 : Z) :
  let e' := Z.min (fexp prec emax (Zdigits2 m1 + e1 - (Zdigits2 m2 + e2))) (e1 - e2) in
  let m' := m1 * 2 ^ (e1 - e2 - e') in
  SFdiv_core_binary prec emax m1 e1 m2 e2 = (m' / m2, e', new_location m2 (m' mod m2)).
Proof.
  intros e' m'. unfold SFdiv_core_binary. fold e'.
  assert (Hs : 0 <= e1 - e2 - e') by (unfold e'; lia).
  assert (Hm : match e1 - e2 - e' with
               | 0 => m1
               | Z.pos _ => Z.shiftl m1 (e1 - e2 - e')
               | Z.neg _ => 0
               end = m').
  { unfold m'. destruct (e1 - e2 - e') as [| p | p] eqn:E.
    - rewrite Z.pow_0_r. lia.
    - rewrite Z.shiftl_mul_pow2 by lia. reflexivity.
    - lia. }
  rewrite Hm, div_eucl_div. reflexivity.
Qed.

(** A finite positive float divided by itself is one. *)
Lemma SFdiv_self (m : positive) (e : Z) :
  SF64div (S754_finite false m e) (S754_finite false m e)
  = S754_finite false 4503599627370496 (-52).
Proof.
  unfold SF64div, SFdiv. rewrite SFdiv_core_binary_spec.
  rewrite !Z.sub_diag. change (fexp prec emax 0) with (-53).
  change (Z.min (-53) 0) with (-53). change (0 - -53) with 53.
  rewrite Z.mul_comm, Z_mod_mult, Z_div_mult by lia.
  replace (new_location (Z.pos m) 0) with loc_Exact.
  - reflexivity.
  - unfold new_location. destruct (Z.even (Z.pos m)); reflexivity.
Qed.

(** The order of two valid positive floats is the order of their values. *)
Lemma valid_lt_value (m1 : positive) (e1 : Z) (m2 : positive) (e2 : Z) :
  valid_binary (S754_finite false m1 e1) = true ->
  valid_binary (S754_finite false m2 e2) = true ->
  e1 < e2 \/ (e1 = e2 /\ (m1 < m2)%positive) ->
  e1 <= e2 /\ Z.pos m1 < Z.pos m2 * 2 ^ (e2 - e1).
Proof.
  intros V1 V2 Hlt.
  apply valid_finite_digits in V1 as (He1 & Hd1 & _).
  apply valid_finite_digits in V2 as (He2 & _ & Hd2).
  destruct Hlt as [Hlt | [-> Hlt]].
  - split; [lia |]. specialize (Hd2 ltac:(lia)).
    pose proof (Zdigits2_bounds (Z.pos m1) ltac:(lia)) as [_ Hu].
    pose proof (Zdigits2_bounds (Z.pos m2) ltac:(lia)) as [Hl _].
    rewrite Hd2 in Hl. change (2 ^ (53 - 1)) with 4503599627370496 in Hl.
    assert (2 ^ Zdigits2 (Z.pos m1) <= 2 ^ 53) by (apply Z.pow_le_mono_r; lia).
    change (2 ^ 53) with 9007199254740992 in H.
    assert (2 ^ 1 <= 2 ^ (e2 - e1)) by (apply Z.pow_le_mono_r; lia).
    change (2 ^ 1) with 2 in H0. nia.
  - split; [lia |]. rewrite Z.sub_diag, Z.pow_0_r. lia.
Qed.

(** A valid positive float divided by a larger one is at most one. *)
Lemma SFdiv_below_one (m1 : positive) (e1 : Z) (m2 : positive) (e2 : Z) :
  valid_binary (S754_finite false m1 e1) = true ->
  valid_binary (S754_finite false m2 e2) = true ->
  e1 < e2 \/ (e1 = e2 /\ (m1 < m2)%positive) ->
  below (SF64div (S754_finite false m1 e1) (S754_finite false m2 e2))
        4503599627370496 (-52).
Proof.
  intros V1 V2 Hlt.
  destruct (valid_lt_value m1 e1 m2 e2 V1 V2 Hlt) as [He Hv].
  unfold SF64div, SFdiv. rewrite SFdiv_core_binary_spec.
  set (e' := Z.min _ _). set (q := _ / _). simpl xorb.
  assert (Hd : Zdigits2 (Z.pos m1) + e1 - (Zdigits2 (Z.pos m2) + e2) <= 0).
  { assert (Zdigits2 (Z.pos m1) <= Zdigits2 (Z.pos m2 * 2 ^ (e2 - e1))).
    { apply Zdigits2_mono. lia. }
    rewrite Zdigits2_shift in H by lia. lia. }
  assert (He' : e' <= -53).
  { unfold e'. pose proof (fexp64_mono _ _ Hd). change (fexp prec emax 0) with (-53) in H. lia. }
  assert (He'' : e' <= e1 - e2) by (unfold e'; lia).
  apply binary_round_aux_below.
  - apply Z.div_pos; [| lia]. apply Z.mul_nonneg_nonneg; [lia |]. apply Z.pow_nonneg. lia.
  - lia.
  - lia.
  - reflexivity.
  - assert (q < 4503599627370496 * 2 ^ (-52 - e')); [| lia].
    unfold q. apply Z.div_lt_upper_bound; [lia |].
    replace (4503599627370496 * 2 ^ (-52 - e')) with (2 ^ (e2 - e1) * 2 ^ (e1 - e2 - e')).
    + assert (0 < 2 ^ (e1 - e2 - e')) by (apply Z.pow_pos_nonneg; lia). nia.
    + change 4503599627370496 with (2 ^ 52).
      rewrite <- !Z.pow_add_r by lia. f_equal. lia.
Qed.

Lemma SFmul_hundred_below (r : spec_float) :
  valid_binary r = true ->
  below r 4503599627370496 (-52) ->
  below (SF64mul r (S754_finite false 7036874417766400 (-46))) 7036874417766400 (-46).
Proof.
  intros V [-> | (m & e & -> & Hle)].
  - left. reflexivity.
  - apply valid_finite_digits in V as (He & Hd & Hn).
    pose proof (Zdigits2_bounds (Z.pos m) (Pos2Z.pos_is_pos m)) as [Hl Hu].
    destruct Hle as [Hlt | [-> Hm]].
    + unfold SF64mul, SFmul. simpl xorb.
      apply binary_round_aux_below.
      * apply Pos2Z.pos_is_nonneg.
      * lia.
      * lia.
      * reflexivity.
      * replace (-46 - (e + -46)) with (- e) by lia.
        assert (2 ^ Zdigits2 (Z.pos m) <= 2 ^ (- e)) by (apply Z.pow_le_mono_r; lia).
        rewrite Pos2Z.inj_mul. lia.
    + apply Pos2Z.pos_le_pos in Hm.
      specialize (Hn ltac:(lia)). rewrite Hn in Hl.
      change (2 ^ (53 - 1)) with 4503599627370496 in Hl.
      assert (Z.pos m = 4503599627370496) as Em by lia.
      injection Em as ->.
      right. exists 7036874417766400%positive, (-46). split; [reflexivity |].
      right. split; [reflexivity | apply Pos.le_refl].
Qed.
End Binary64.

Section Float64.

Local Open Scope float_scope.

(** A positive number: neither zero, negative, infinite nor NaN. *)
Definition finite_pos (x : float) : bool := (0 <? x) && (x <? infinity).

Lemma finite_pos_spec (x : float) :
  finite_pos x = true ->
  exists m e, Prim2SF x = S754_finite false m e
              /\ valid_binary (S754_finite false m e) = true.
Proof.
  unfold finite_pos. rewrite andb_true_iff, !FloatAxioms.ltb_spec. intros [H0 Hinf].
  pose proof (Prim2SF_valid x) as V.
  change (Prim2SF 0) with (S754_zero false) in H0.
  change (Prim2SF infinity) with (S754_infinity false) in Hinf.
  destruct (Prim2SF x) as [s | s | | s m e]; try discriminate.
  - destruct s; discriminate.
  - destruct s; [discriminate |]. exists m, e. split; [reflexivity | exact V].
Qed.

Lemma SFleb_pos (m1 : positive) (e1 : Z) (m2 : positive) (e2 : Z) :
  SFleb (S754_finite false m1 e1) (S754_finite false m2 e2) = true
  <-> (e1 < e2)%Z \/ (e1 = e2 /\ (m1 <= m2)%positive).
Proof.
  unfold SFleb, SFcompare.
  destruct (Z.compare_spec e1 e2) as [-> | H | H].
  - change (Pos.compare_cont Eq m1 m2) with (Pos.compare m1 m2).
    destruct (Pos.compare_spec m1 m2) as [-> | Hm | Hm]; split; intros; try discriminate;
      try reflexivity; try lia.
  - split; intros; [lia | reflexivity].
  - split; intros; [discriminate | lia].
Qed.

Lemma below_leb (r : spec_float) (mB : positive) (eB : Z) :
  below r mB eB ->
  SFleb (S754_zero false) r = true /\ SFleb r (S754_finite false mB eB) = true.
Proof.
  intros [-> | (m & e & -> & H)].
  - split; reflexivity.
  - split; [reflexivity |]. apply SFleb_pos. exact H.
Qed.

(** The quotient of a positive number by itself, times one hundred. *)
Lemma relative_of_self (x : float) : finite_pos x = true -> x / x * 100 = 100.
Proof.
  intros H. destruct (finite_pos_spec x H) as (m & e & Hx & _).
  assert (Hone : x / x = 1).
  { apply Prim2SF_inj. rewrite div_spec, Hx, SFdiv_self. reflexivity. }
  rewrite Hone. reflexivity.
Qed.

(** The quotient of a positive number by one at least as large, times one
    hundred, lies between 0 and 100. *)
Lemma relative_of_smaller (v M : float) :
  finite_pos v = true -> finite_pos M = true -> (v <=? M) = true ->
  (0 <=? v / M * 100) = true /\ (v / M * 100 <=? 100) = true.
Proof.
  intros Hv HM Hle.
  destruct (finite_pos_spec v Hv) as (m1 & e1 & Ev & V1).
  destruct (finite_pos_spec M HM) as (m2 & e2 & EM & V2).
  rewrite FloatAxioms.leb_spec, Ev, EM in Hle. apply SFleb_pos in Hle.
  assert (Hq : below (Prim2SF (v / M)) 4503599627370496 (-52)).
  { rewrite div_spec, Ev, EM.
    destruct Hle as [Hlt | [-> Hm]].
    - apply SFdiv_below_one; auto.
    - destruct (Pos.eq_dec m1 m2) as [-> | Hne].
      + rewrite SFdiv_self. right. eexists _, _. split; [reflexivity |].
        right. split; [reflexivity | apply Pos.le_refl].
      + apply SFdiv_below_one; auto. right. split; [reflexivity | lia]. }
  assert (Hr : below (Prim2SF (v / M * 100)) 7036874417766400 (-46)).
  { rewrite mul_spec. change (Prim2SF 100) with (S754_finite false 7036874417766400 (-46)).
    apply SFmul_hundred_below; [apply Prim2SF_valid | exact Hq]. }
  apply below_leb in Hr as [H0 H100].
  rewrite !FloatAxioms.leb_spec.
  change (Prim2SF 100) with (S754_finite false 7036874417766400 (-46)).
  change (Prim2SF 0) with (S754_zero false).
  split; assumption.
Qed.


Lemma SFeqb_pos (m1 : positive) (e1 : Z) (m2 : positive) (e2 : Z) :
  SFeqb (S754_finite false m1 e1) (S754_finite false m2 e2) = true
  <-> e1 = e2 /\ m1 = m2.
Proof.
  unfold SFeqb, SFcompare.
  destruct (Z.compare_spec e1 e2) as [-> | H | H].
  - change (Pos.compare_cont Eq m1 m2) with (Pos.compare m1 m2).
    destruct (Pos.compare_spec m1 m2) as [-> | Hm | Hm]; split; intros; try discriminate;
      try reflexivity; try lia; auto.
  - split; intros; [discriminate | lia].
  - split; intros; [discriminate | lia].
Qed.

Lemma finite_pos_not_nan (x : float) : finite_pos x = true -> is_nan x = false.
Proof.
  intros H. destruct (finite_pos_spec x H) as (m & e & Hx & _).
  unfold is_nan. rewrite FloatAxioms.eqb_spec, Hx.
  replace (SFeqb (S754_finite false m e) (S754_finite false m e)) with true; [reflexivity |].
  symmetry. apply SFeqb_pos. split; reflexivity.
Qed.

Lemma finite_pos_leb_refl (x : float) : finite_pos x = true -> (x <=? x) = true.
Proof.
  intros H. destruct (finite_pos_spec x H) as (m & e & Hx & _).
  rewrite FloatAxioms.leb_spec, Hx. apply SFleb_pos. right. split; [reflexivity | apply Pos.le_refl].
Qed.

Lemma finite_pos_leb_total (x y : float) :
  finite_pos x = true -> finite_pos y = true -> (x <=? y) = false -> (y <=? x) = true.
Proof.
  intros Hx Hy Hle.
  destruct (finite_pos_spec x Hx) as (m1 & e1 & E1 & _).
  destruct (finite_pos_spec y Hy) as (m2 & e2 & E2 & _).
  rewrite FloatAxioms.leb_spec, E1, E2 in *. apply SFleb_pos.
  destruct (SFleb (S754_finite false m1 e1) (S754_finite false m2 e2)) eqn:E; [discriminate |].
  assert (Hn : ~ ((e1 < e2)%Z \/ (e1 = e2 /\ (m1 <= m2)%positive))).
  { intros Hc. apply SFleb_pos in Hc. congruence. }
  lia.
Qed.

Lemma finite_pos_leb_trans (x y z : float) :
  finite_pos x = true -> finite_pos y = true -> finite_pos z = true ->
  (x <=? y) = true -> (y <=? z) = true -> (x <=? z) = true.
Proof.
  intros Hx Hy Hz.
  destruct (finite_pos_spec x Hx) as (m1 & e1 & E1 & _).
  destruct (finite_pos_spec y Hy) as (m2 & e2 & E2 & _).
  destruct (finite_pos_spec z Hz) as (m3 & e3 & E3 & _).
  rewrite !FloatAxioms.leb_spec, E1, E2, E3, !SFleb_pos. lia.
Qed.

Lemma finite_pos_eqb_eq (x y : float) :
  finite_pos x = true -> finite_pos y = true -> (x =? y) = true -> x = y.
Proof.
  intros Hx Hy.
  destruct (finite_pos_spec x Hx) as (m1 & e1 & E1 & _).
  destruct (finite_pos_spec y Hy) as (m2 & e2 & E2 & _).
  rewrite FloatAxioms.eqb_spec, E1, E2, SFeqb_pos. intros [-> ->].
  apply Prim2SF_inj. congruence.
Qed.

End Float64.

(** ** The error of a rounding

    A product or a quotient of two normal numbers whose result is normal
    is rounded to one of the two floats that enclose its exact value. *)

Section Rounding.

Local Open Scope Z_scope.

Lemma pow2_pos (k : Z) : 0 <= k -> 0 < 2 ^ k.
Proof. intros H. apply Z.pow_pos_nonneg; lia. Qed.

(** The shift of a mantissa of [d] digits to 53 digits. *)
Lemma div_pow2_digits (m : Z) :
  0 < m -> 53 <= Zdigits2 m ->
  let k := Zdigits2 m - 53 in
  2 ^ 52 <= m / 2 ^ k < 2 ^ 53
  /\ m / 2 ^ k * 2 ^ k <= m < (m / 2 ^ k + 1) * 2 ^ k.
Proof.
  intros Hm Hd k. pose proof (Zdigits2_bounds m Hm) as [Hl Hu].
  pose proof (pow2_pos k ltac:(lia)) as Hk.
  assert (E1 : 2 ^ (Zdigits2 m - 1) = 2 ^ 52 * 2 ^ k).
  { rewrite <- Z.pow_add_r by lia. f_equal. lia. }
  assert (E2 : 2 ^ Zdigits2 m = 2 ^ 53 * 2 ^ k).
  { rewrite <- Z.pow_add_r by lia. f_equal. lia. }
  split; [split |].
  - apply Z.div_le_lower_bound; [exact Hk |]. rewrite Z.mul_comm, <- E1. exact Hl.
  - apply Z.div_lt_upper_bound; [exact Hk |]. rewrite Z.mul_comm, <- E2. exact Hu.
  - pose proof (Z.mul_div_le m (2 ^ k) Hk).
    pose proof (Z.mul_succ_div_gt m (2 ^ k) Hk). lia.
Qed.

Lemma digits_53 (m : Z) : 2 ^ 52 <= m < 2 ^ 53 -> Zdigits2 m = 53.
Proof.
  intros H. apply Zdigits2_unique; [exact H |].
  pose proof (pow2_pos 52 ltac:(lia)). lia.
Qed.

(** The result of a rounding in the normal range: the mantissa shifted
    to 53 digits, or the next one. *)
Lemma binary_round_aux_normal (s : bool) (m e : Z) (l : location) :
  0 < m -> 53 <= Zdigits2 m ->
  -1074 < Zdigits2 m + e - 53 -> Zdigits2 m + e <= 1023 ->
  let k := Zdigits2 m - 53 in
  exists (m' : positive) (e' m2 : Z),
    binary_round_aux prec emax s m e l = S754_finite s m' e'
    /\ m / 2 ^ k <= m2 <= m / 2 ^ k + 1
    /\ ((e' = e + k /\ Z.pos m' = m2) \/ (e' = e + k + 1 /\ Z.pos m' * 2 = m2)).
Proof.
  intros Hm Hd Hlo Hhi k.
  destruct (div_pow2_digits m Hm Hd) as [[H52 H53] _]. fold k in H52, H53.
  unfold binary_round_aux.
  pose proof (shr_fexp_spec m e l ltac:(lia)) as [Hm1 He1].
  destruct (shr_fexp prec emax m e l) as [mrs1 e1]. simpl in Hm1, He1.
  rewrite fexp64 in Hm1, He1.
  replace (Z.max (Z.max (Zdigits2 m + e - 53) (-1074) - e) 0) with k in Hm1, He1
    by (unfold k; lia).
  pose proof (round_nearest_even_bounds (shr_m mrs1) (loc_of_shr_record mrs1)) as Hrne.
  set (m2 := round_nearest_even (shr_m mrs1) (loc_of_shr_record mrs1)) in *.
  rewrite Hm1 in Hrne.
  pose proof (shr_fexp_spec m2 e1 loc_Exact ltac:(lia)) as [Hm3 He3].
  destruct (shr_fexp prec emax m2 e1 loc_Exact) as [mrs3 e3]. simpl in Hm3, He3.
  rewrite fexp64 in Hm3, He3.
  destruct (Z.eq_dec m2 (2 ^ 53)) as [E | NE].
  - (* the mantissa carries into a 54th digit *)
    assert (Hd2 : Zdigits2 m2 = 54).
    { rewrite E. apply Zdigits2_unique; [| apply pow2_pos; lia].
      split; [apply Z.le_refl | apply Z.pow_lt_mono_r; lia]. }
    rewrite Hd2 in Hm3, He3.
    replace (Z.max (Z.max (54 + e1 - 53) (-1074) - e1) 0) with 1 in Hm3, He3 by lia.
    rewrite E in Hm3. change (2 ^ 53 / 2 ^ 1) with (2 ^ 52) in Hm3.
    rewrite Hm3. change (2 ^ 52) with (Z.pos 4503599627370496).
    replace (e3 <=? emax - prec) with true.
    2:{ symmetry. apply Z.leb_le. change (emax - prec) with 971. lia. }
    exists 4503599627370496%positive, e3, m2.
    split; [reflexivity |]. split; [exact Hrne |].
    right. split; [lia |]. rewrite E. reflexivity.
  - assert (Hd2 : Zdigits2 m2 = 53) by (apply digits_53; lia).
    rewrite Hd2 in Hm3, He3.
    replace (Z.max (Z.max (53 + e1 - 53) (-1074) - e1) 0) with 0 in Hm3, He3 by lia.
    rewrite Z.pow_0_r, Z.div_1_r in Hm3. rewrite Hm3.
    assert (Hpos : 0 < m2) by (pose proof (pow2_pos 52 ltac:(lia)); lia).
    destruct m2 as [| p | p]; try lia.
    replace (e3 <=? emax - prec) with true.
    2:{ symmetry. apply Z.leb_le. change (emax - prec) with 971. lia. }
    exists p, e3, (Z.pos p).
    split; [reflexivity |]. split; [exact Hrne |].
    left. split; [lia | reflexivity].
Qed.

Lemma digits_between (m a b : Z) :
  0 <= a -> 0 <= b -> 2 ^ a <= m < 2 ^ b -> a < Zdigits2 m <= b.
Proof.
  intros Ha Hb [Hl Hu]. pose proof (pow2_pos a Ha) as Hpa.
  pose proof (Zdigits2_bounds m ltac:(lia)) as [Hl' Hu'].
  assert (Hd : 0 < Zdigits2 m).
  { destruct (Z_lt_le_dec 0 (Zdigits2 m)) as [H | H]; [exact H |].
    assert (2 ^ Zdigits2 m <= 2 ^ 0) by (apply Z.pow_le_mono_r; lia).
    change (2 ^ 0) with 1 in H0. lia. }
  split.
  - apply (Z.pow_lt_mono_r_iff 2); lia.
  - assert (Zdigits2 m - 1 < b); [| lia].
    apply (Z.pow_lt_mono_r_iff 2); lia.
Qed.

(** The mantissa of a product of two 53-digit mantissas. *)
Lemma product_digits (mx my : positive) :
  Zdigits2 (Z.pos mx) = 53 -> Zdigits2 (Z.pos my) = 53 ->
  105 <= Zdigits2 (Z.pos (mx * my)) <= 106.
Proof.
  intros Dx Dy.
  pose proof (Zdigits2_bounds (Z.pos mx) (Pos2Z.pos_is_pos mx)) as [Lx Ux].
  pose proof (Zdigits2_bounds (Z.pos my) (Pos2Z.pos_is_pos my)) as [Ly Uy].
  rewrite Dx in Lx, Ux. rewrite Dy in Ly, Uy.
  assert (H : 104 < Zdigits2 (Z.pos (mx * my)) <= 106); [| lia].
  apply digits_between; [lia | lia |]. rewrite Pos2Z.inj_mul. split.
  - change (2 ^ 104) with (2 ^ (53 - 1) * 2 ^ (53 - 1)).
    apply Z.mul_le_mono_nonneg; try assumption; apply Z.pow_nonneg; lia.
  - change (2 ^ 106) with (2 ^ 53 * 2 ^ 53).
    apply Z.mul_lt_mono_nonneg; try assumption; lia.
Qed.

(** The mantissa of a quotient of two 53-digit mantissas, the dividend
    shifted by 53 digits. *)
Lemma quotient_digits (mx my : positive) :
  Zdigits2 (Z.pos mx) = 53 -> Zdigits2 (Z.pos my) = 53 ->
  let mz := Z.pos mx * 2 ^ 53 / Z.pos my in
  0 < mz /\ 53 <= Zdigits2 mz <= 54
  /\ mz * Z.pos my <= Z.pos mx * 2 ^ 53 < (mz + 1) * Z.pos my.
Proof.
  intros Dx Dy mz.
  pose proof (Zdigits2_bounds (Z.pos mx) (Pos2Z.pos_is_pos mx)) as [Lx Ux].
  pose proof (Zdigits2_bounds (Z.pos my) (Pos2Z.pos_is_pos my)) as [Ly Uy].
  rewrite Dx in Lx, Ux. rewrite Dy in Ly, Uy.
  change (2 ^ (53 - 1)) with (2 ^ 52) in Lx, Ly.
  pose proof (pow2_pos 52 ltac:(lia)) as P52.
  pose proof (pow2_pos 53 ltac:(lia)) as P53.
  assert (Hl : 2 ^ 52 <= mz).
  { apply Z.div_le_lower_bound; [lia |].
    apply Z.le_trans with (2 ^ 53 * 2 ^ 52).
    - apply Z.mul_le_mono_nonneg_r; lia.
    - rewrite (Z.mul_comm (2 ^ 53)). apply Z.mul_le_mono_nonneg_r; lia. }
  assert (Hu : mz < 2 ^ 54).
  { apply Z.div_lt_upper_bound; [lia |].
    apply Z.lt_le_trans with (2 ^ 53 * 2 ^ 53).
    - apply Z.mul_lt_mono_pos_r; lia.
    - change (2 ^ 53 * 2 ^ 53) with (2 ^ 52 * 2 ^ 54).
      apply Z.mul_le_mono_nonneg_r; [| lia]. apply Z.pow_nonneg. lia. }
  split; [lia |]. split.
  - assert (52 < Zdigits2 mz <= 54); [| lia]. apply digits_between; lia.
  - pose proof (Z.mul_div_le (Z.pos mx * 2 ^ 53) (Z.pos my) ltac:(lia)).
    pose proof (Z.mul_succ_div_gt (Z.pos mx * 2 ^ 53) (Z.pos my) ltac:(lia)).
    fold mz in H, H0. lia.
Qed.

End Rounding.

(** ** The error of the arithmetic of the derived metrics

    The value of a float as a rational number, and the relative error of
    a product and of a quotient of two normal floats. *)

Section RoundingError.

Local Open Scope Q_scope.

(** The absolute value of a finite float, as a rational number. *)
Definition magnitude (x : float) : Q :=
  match Prim2SF x with
  | S754_finite _ m e => inject_Z (Z.pos m) * 2 ^ e
  | _ => 0
  end.

Definition negative (x : float) : bool :=
  match Prim2SF x with
  | S754_finite s _ _ => s
  | _ => false
  end.

(** The rational number a finite float stands for. *)
Definition F2Q (x : float) : Q :=
  if negative x then - magnitude x else magnitude x.

(** A finite number other than zero. *)
Definition finite_nonzero (x : float) : bool :=
  match Prim2SF x with
  | S754_finite _ _ _ => true
  | _ => false
  end.

(** [2^-100 <= |x| <= 2^100]. *)
Definition moderate (x : float) : bool :=
  ((0x1p-100 <=? abs x) && (abs x <=? 0x1p+100))%float.

(** [|x - y| <= eps * |y|]. *)
Definition within (eps x y : Q) : Prop := Qabs (x - y) <= eps * Qabs y.

(** One plus the gap between two neighbouring 53-digit mantissas. *)
Definition U : Q := 1 + (1 # 4503599627370496).

(** Two positive numbers, each at most [u] times the other. *)
Definition near (u x y : Q) : Prop :=
  0 < x /\ 0 < y /\ x <= y * u /\ y <= x * u.

(** A normal float of sign [s], of exponent between [lo] and [hi] and of
    absolute value [q]. *)
Definition normal (x : float) (s : bool) (lo hi : Z) (q : Q) : Prop :=
  exists m e,
    Prim2SF x = S754_finite s m e
    /\ Zdigits2 (Z.pos m) = 53%Z
    /\ (lo <= e <= hi)%Z
    /\ q == inject_Z (Z.pos m) * 2 ^ e.

Lemma pow2_lt (k : Z) : 0 < 2 ^ k.
Proof. apply Qpower_0_lt. reflexivity. Qed.

Lemma pow2_add (a b : Z) : 2 ^ (a + b) == 2 ^ a * 2 ^ b.
Proof. apply Qpower_plus. discriminate. Qed.

Lemma pow2_Q (k : Z) : (0 <= k)%Z -> inject_Z (2 ^ k) == 2 ^ k.
Proof. intros H. rewrite Zpower_Qpower by exact H. reflexivity. Qed.

Lemma near_eq (u x x' y y' : Q) : x == x' -> y == y' -> near u x y -> near u x' y'.
Proof. unfold near. intros -> ->. tauto. Qed.

Lemma near_refl (x : Q) : 0 < x -> near 1 x x.
Proof. unfold near. intros H. repeat split; try exact H; lra. Qed.

Lemma near_trans (u v x y z : Q) :
  0 < u -> near u x y -> near v y z -> near (u * v) x z.
Proof.
  unfold near. intros Hu (Hx & Hy & H1 & H2) (_ & Hz & H3 & H4).
  repeat split; try assumption; nra.
Qed.

Lemma near_mul (u v x y x' y' : Q) :
  near u x y -> near v x' y' -> near (u * v) (x * x') (y * y').
Proof.
  unfold near. intros (Hx & Hy & H1 & H2) (Hx' & Hy' & H3 & H4).
  repeat split; nra.
Qed.

Lemma near_inv (u x y : Q) : near u x y -> near u (/ x) (/ y).
Proof.
  unfold near. intros (Hx & Hy & H1 & H2).
  assert (Hix : 0 < / x) by (apply Qinv_lt_0_compat; exact Hx).
  assert (Hiy : 0 < / y) by (apply Qinv_lt_0_compat; exact Hy).
  repeat split; try assumption.
  - apply Qle_shift_inv_r; [exact Hx |].
    assert (E : / y * u * x == x * u / y) by (field; lra).
    rewrite E. apply Qle_shift_div_l; [exact Hy |]. lra.
  - apply Qle_shift_inv_r; [exact Hy |].
    assert (E : / x * u * y == y * u / x) by (field; lra).
    rewrite E. apply Qle_shift_div_l; [exact Hx |]. lra.
Qed.

Lemma near_div (u v x y x' y' : Q) :
  near u x y -> near v x' y' -> near (u * v) (x / x') (y / y').
Proof. intros H H'. apply near_mul; [exact H | apply near_inv; exact H']. Qed.

Lemma near_weaken (u v x y : Q) : u <= v -> near u x y -> near v x y.
Proof. unfold near. intros Huv (Hx & Hy & H1 & H2). repeat split; try assumption; nra. Qed.

(** Two numbers between the same two neighbouring 53-digit mantissas. *)
Lemma enclosed_near (a W P R : Q) :
  0 < W -> 4503599627370496 <= a ->
  a * W <= P <= (a + 1) * W -> a * W <= R <= (a + 1) * W ->
  near U P R.
Proof.
  intros HW Ha [HP1 HP2] [HR1 HR2].
  assert (H : 4503599627370496 * W <= a * W)
    by (apply Qmult_le_compat_r; [exact Ha | lra]).
  assert (E : (a + 1) * W == a * W + W) by ring.
  rewrite E in HP2, HR2. clear E. set (t := a * W) in *. clearbody t.
  unfold near, U. repeat split; lra.
Qed.

(** A rounding in the normal range moves an exact value by at most one
    part in 2^52. *)
Lemma round_near (s : bool) (m e : Z) (l : location) (P : Q) :
  (0 < m)%Z -> (53 <= Zdigits2 m)%Z ->
  (-1074 < Zdigits2 m + e - 53)%Z -> (Zdigits2 m + e <= 1023)%Z ->
  inject_Z m * 2 ^ e <= P <= inject_Z (m + 1) * 2 ^ e ->
  exists m' e',
    binary_round_aux prec emax s m e l = S754_finite s m' e'
    /\ (Zdigits2 m + e - 53 <= e' <= Zdigits2 m + e - 52)%Z
    /\ near U P (inject_Z (Z.pos m') * 2 ^ e').
Proof.
  intros Hm Hd Hlo Hhi [HP1 HP2].
  destruct (binary_round_aux_normal s m e l Hm Hd Hlo Hhi)
    as (m' & e' & m2 & Hr & Hm2 & Hcase).
  destruct (div_pow2_digits m Hm Hd) as [[H52 _] [Hk1 Hk2]].
  set (k := (Zdigits2 m - 53)%Z) in *.
  set (m1 := (m / 2 ^ k)%Z) in *.
  assert (Hk : (0 <= k)%Z) by (unfold k; lia).
  exists m', e'. split; [exact Hr |]. split; [unfold k in Hcase; lia |].
  pose proof (pow2_lt (e + k)) as HW.
  pose proof (pow2_lt e) as He.
  assert (EW : 2 ^ (e + k) == inject_Z (2 ^ k) * 2 ^ e).
  { rewrite pow2_add, pow2_Q by exact Hk. ring. }
  assert (HR : inject_Z (Z.pos m') * 2 ^ e' == inject_Z m2 * 2 ^ (e + k)).
  { destruct Hcase as [[-> ->] | [-> <-]]; [reflexivity |].
    rewrite inject_Z_mult, (pow2_add (e + k) 1). change (2 ^ 1) with 2.
    change (inject_Z 2) with 2. ring. }
  apply (enclosed_near (inject_Z m1) (2 ^ (e + k))).
  - exact HW.
  - change 4503599627370496 with (inject_Z (2 ^ 52)). rewrite <- Zle_Qle. exact H52.
  - split.
    + apply Qle_trans with (inject_Z m * 2 ^ e); [| exact HP1].
      rewrite EW, Qmult_assoc, <- inject_Z_mult.
      apply Qmult_le_compat_r; [| lra]. rewrite <- Zle_Qle. exact Hk1.
    + apply Qle_trans with (inject_Z (m + 1) * 2 ^ e); [exact HP2 |].
      change 1 with (inject_Z 1). rewrite <- inject_Z_plus.
      rewrite EW, Qmult_assoc, <- inject_Z_mult.
      apply Qmult_le_compat_r; [| lra]. rewrite <- Zle_Qle. lia.
  - rewrite HR. change 1 with (inject_Z 1). rewrite <- inject_Z_plus.
    split; (apply Qmult_le_compat_r; [rewrite <- Zle_Qle; lia | lra]).
Qed.

Lemma normal_pos (x : float) s lo hi q : normal x s lo hi q -> 0 < q.
Proof.
  intros (m & e & _ & _ & _ & ->).
  apply Qmult_lt_0_compat; [| apply pow2_lt].
  change 0 with (inject_Z 0). rewrite <- Zlt_Qlt. apply Pos2Z.pos_is_pos.
Qed.

Lemma normal_F2Q (x : float) s lo hi q :
  normal x s lo hi q ->
  F2Q x == (if s then - q else q) /\ finite_nonzero x = true.
Proof.
  intros (m & e & Hx & _ & _ & Hq).
  unfold F2Q, negative, magnitude, finite_nonzero. rewrite Hx.
  split; [| reflexivity]. destruct s; rewrite Hq; reflexivity.
Qed.

(** A number between 2^-100 and 2^100 in absolute value is normal. *)
Lemma moderate_normal (x : float) :
  moderate x = true -> exists s q, normal x s (-152) 48 q.
Proof.
  unfold moderate. rewrite andb_true_iff, !leb_spec, abs_spec. intros [H1 H2].
  pose proof (Prim2SF_valid x) as V.
  change (Prim2SF 0x1p-100) with (S754_finite false 4503599627370496 (-152)) in H1.
  change (Prim2SF 0x1p+100) with (S754_finite false 4503599627370496 48) in H2.
  destruct (Prim2SF x) as [s | s | | s m e] eqn:E; try discriminate.
  simpl SFabs in H1, H2. apply SFleb_pos in H1, H2.
  assert (He : (-152 <= e <= 48)%Z).
  { destruct H1 as [H1 | [H1 _]], H2 as [H2 | [H2 _]]; lia. }
  clear H1 H2.
  apply valid_finite_digits in V as (_ & _ & Hn).
  exists s, (inject_Z (Z.pos m) * 2 ^ e), m, e.
  split; [exact E |]. split; [apply Hn; lia |]. split; [exact He | reflexivity].
Qed.

Lemma hundred_normal : normal 100 false (-46) (-46) 100.
Proof.
  exists 7036874417766400%positive, (-46)%Z.
  split; [reflexivity |]. split; [reflexivity |]. split; [lia | reflexivity].
Qed.

(** The product of two normal floats, when it is normal. *)
Lemma mul_normal (x y : float) sx sy lx hx ly hy qx qy :
  normal x sx lx hx qx -> normal y sy ly hy qy ->
  (-1125 <= lx + ly)%Z -> (hx + hy <= 917)%Z ->
  exists q,
    normal (x * y) (xorb sx sy) (lx + ly + 52) (hx + hy + 54) q
    /\ near U (qx * qy) q.
Proof.
  intros (mx & ex & Hx & Dx & Ex & Qx) (my & ey & Hy & Dy & Ey & Qy) Hlo Hhi.
  pose proof (product_digits mx my Dx Dy) as Hd.
  destruct (round_near (xorb sx sy) (Z.pos (mx * my)) (ex + ey) loc_Exact (qx * qy))
    as (m' & e' & Hr & He' & Hnear); try lia.
  { assert (E : qx * qy == inject_Z (Z.pos (mx * my)) * 2 ^ (ex + ey)).
    { rewrite Qx, Qy, Pos2Z.inj_mul, inject_Z_mult, pow2_add. ring. }
    rewrite E. split; [apply Qle_refl |].
    apply Qmult_le_compat_r; [| apply Qlt_le_weak, pow2_lt].
    rewrite <- Zle_Qle. lia. }
  assert (Hxy : Prim2SF (x * y) = S754_finite (xorb sx sy) m' e').
  { rewrite mul_spec, Hx, Hy. exact Hr. }
  pose proof (Prim2SF_valid (x * y)) as V. rewrite Hxy in V.
  apply valid_finite_digits in V as (_ & _ & Hn).
  exists (inject_Z (Z.pos m') * 2 ^ e'). split; [| exact Hnear].
  exists m', e'. split; [exact Hxy |]. split; [apply Hn; lia |].
  split; [lia | reflexivity].
Qed.

(** The quotient of two normal floats, when it is normal. *)
Lemma div_normal (x y : float) sx sy lx hx ly hy qx qy :
  normal x sx lx hx qx -> normal y sy ly hy qy ->
  (-1020 <= lx - hy)%Z -> (hx - ly <= 1022)%Z ->
  exists q,
    normal (x / y) (xorb sx sy) (lx - hy - 53) (hx - ly - 51) q
    /\ near U (qx / qy) q.
Proof.
  intros (mx & ex & Hx & Dx & Ex & Qx) (my & ey & Hy & Dy & Ey & Qy) Hlo Hhi.
  destruct (quotient_digits mx my Dx Dy) as (Hz & Hd & Hq1 & Hq2).
  set (mz := (Z.pos mx * 2 ^ 53 / Z.pos my)%Z) in *.
  assert (Hcore : SFdiv_core_binary prec emax (Z.pos mx) ex (Z.pos my) ey
                  = (mz, (ex - ey - 53)%Z,
                     new_location (Z.pos my) ((Z.pos mx * 2 ^ 53) mod Z.pos my))).
  { rewrite SFdiv_core_binary_spec, Dx, Dy, fexp64.
    replace (Z.min (Z.max (53 + ex - (53 + ey) - 53) (-1074)) (ex - ey))
      with (ex - ey - 53)%Z by lia.
    replace (ex - ey - (ex - ey - 53))%Z with 53%Z by lia. reflexivity. }
  assert (Hmy : 0 < inject_Z (Z.pos my)).
  { change 0 with (inject_Z 0). rewrite <- Zlt_Qlt. apply Pos2Z.pos_is_pos. }
  pose proof (pow2_lt ey) as Hey. pose proof (pow2_lt (ex - ey - 53)) as Hez.
  assert (E : qx / qy
              == inject_Z (Z.pos mx * 2 ^ 53) / inject_Z (Z.pos my) * 2 ^ (ex - ey - 53)).
  { rewrite Qx, Qy, inject_Z_mult, pow2_Q by lia.
    replace ex with ((ex - ey - 53) + 53 + ey)%Z at 1 by lia.
    rewrite !pow2_add. field. split; lra. }
  destruct (round_near (xorb sx sy) mz (ex - ey - 53)
              (new_location (Z.pos my) ((Z.pos mx * 2 ^ 53) mod Z.pos my)) (qx / qy))
    as (m' & e' & Hr & He' & Hnear); try lia.
  { rewrite E. split; (apply Qmult_le_compat_r; [| lra]).
    - apply Qle_shift_div_l; [exact Hmy |].
      rewrite <- inject_Z_mult, <- Zle_Qle. exact Hq1.
    - apply Qle_shift_div_r; [exact Hmy |].
      rewrite <- inject_Z_mult, <- Zle_Qle. lia. }
  assert (Hxy : Prim2SF (x / y) = S754_finite (xorb sx sy) m' e').
  { rewrite div_spec, Hx, Hy. unfold SF64div, SFdiv. rewrite Hcore. exact Hr. }
  pose proof (Prim2SF_valid (x / y)) as V. rewrite Hxy in V.
  apply valid_finite_digits in V as (_ & _ & Hn).
  exists (inject_Z (Z.pos m') * 2 ^ e'). split; [| exact Hnear].
  exists m', e'. split; [exact Hxy |]. split; [apply Hn; lia |].
  split; [lia | reflexivity].
Qed.

Lemma near_sym (u x y : Q) : near u x y -> near u y x.
Proof. unfold near. tauto. Qed.

Lemma within_eq (eps x x' y y' : Q) :
  x == x' -> y == y' -> within eps x y -> within eps x' y'.
Proof. unfold within. intros -> ->. tauto. Qed.

(** Two numbers that near each other to one part in 2^49, with the same
    sign. *)
Lemma near_within (s : bool) (t r : Q) :
  near (1 + (1 # 562949953421312)) t r ->
  within (1 # 562949953421312) (if s then - r else r) (if s then - t else t).
Proof.
  unfold near, within. intros (Ht & Hr & H1 & H2).
  assert (Habs : Qabs (if s then - t else t) == t).
  { destruct s; [rewrite Qabs_opp |]; apply Qabs_pos; lra. }
  rewrite Habs. apply Qabs_Qle_condition.
  destruct s; split; lra.
Qed.

(** The five roundings of the two derived metrics and of their product,
    and the rounding of g * e. *)
Lemma derived_product_error (g e c : float) :
  moderate g = true -> moderate e = true -> moderate c = true ->
  let r := (g * 100 / c * (e * (c / 100)))%float in
  finite_nonzero r = true
  /\ within (1 # 562949953421312) (F2Q r) (F2Q g * F2Q e)
  /\ within (1 # 562949953421312) (F2Q r) (F2Q (g * e)%float).
Proof.
  intros Mg Me Mc r.
  destruct (moderate_normal g Mg) as (sg & G & Ng).
  destruct (moderate_normal e Me) as (se & E & Ne).
  destruct (moderate_normal c Mc) as (sc & C & Nc).
  pose proof (normal_pos _ _ _ _ _ Ng) as HG.
  pose proof (normal_pos _ _ _ _ _ Ne) as HE.
  pose proof (normal_pos _ _ _ _ _ Nc) as HC.
  destruct (mul_normal _ _ _ _ _ _ _ _ _ _ Ng hundred_normal) as (A & NA & HA);
    [lia | lia |].
  destruct (div_normal _ _ _ _ _ _ _ _ _ _ NA Nc) as (P & NP & HP); [lia | lia |].
  destruct (div_normal _ _ _ _ _ _ _ _ _ _ Nc hundred_normal) as (B & NB & HB);
    [lia | lia |].
  destruct (mul_normal _ _ _ _ _ _ _ _ _ _ Ne NB) as (F & NF & HF); [lia | lia |].
  destruct (mul_normal _ _ _ _ _ _ _ _ _ _ NP NF) as (R & NR & HR); [lia | lia |].
  destruct (mul_normal _ _ _ _ _ _ _ _ _ _ Ng Ne) as (T & NT & HT); [lia | lia |].
  fold r in NR.
  replace (xorb (xorb (xorb sg false) sc) (xorb se (xorb sc false)))
    with (xorb sg se) in NR by (destruct sg, se, sc; reflexivity).
  destruct (normal_F2Q _ _ _ _ _ NR) as [ER FR].
  destruct (normal_F2Q _ _ _ _ _ NT) as [ET _].
  destruct (normal_F2Q _ _ _ _ _ Ng) as [EG _].
  destruct (normal_F2Q _ _ _ _ _ Ne) as [EE _].
  assert (HU : 0 < U) by reflexivity.
  pose proof (near_div _ _ _ _ _ _ HA (near_refl C HC)) as H1.
  pose proof (near_trans (U * 1) _ _ _ _ ltac:(reflexivity) H1 HP) as H2.
  pose proof (near_mul _ _ _ _ _ _ (near_refl E HE) HB) as H3.
  pose proof (near_trans (1 * U) _ _ _ _ ltac:(reflexivity) H3 HF) as H4.
  pose proof (near_mul _ _ _ _ _ _ H2 H4) as H5.
  pose proof (near_trans (U * 1 * U * (1 * U * U)) _ _ _ _ ltac:(reflexivity) H5 HR) as H6.
  assert (H7 : near (U * 1 * U * (1 * U * U) * U) (G * E) R).
  { refine (near_eq _ _ _ _ _ _ (Qeq_refl R) H6). field. lra. }
  pose proof (near_trans _ _ _ _ _ HU (near_sym _ _ _ HT) H7) as H8.
  split; [exact FR |]. split.
  - apply (within_eq _ (if xorb sg se then - R else R) _
                       (if xorb sg se then - (G * E) else G * E)).
    + symmetry. exact ER.
    + rewrite EG, EE. destruct sg, se; simpl; ring.
    + apply near_within. revert H7. apply near_weaken.
      apply Qle_bool_iff. vm_compute. reflexivity.
  - apply (within_eq _ (if xorb sg se then - R else R) _
                       (if xorb sg se then - T else T)).
    + symmetry. exact ER.
    + symmetry. exact ET.
    + apply near_within. revert H8. apply near_weaken.
      apply Qle_bool_iff. vm_compute. reflexivity.
Qed.

End RoundingError.

Section PurchasingPowerProduct.

Import Currency Formula.
Local Open Scope float_scope.

(** C10, amended.  In binary64 the cost-index scaling of the two derived
    metrics cancels up to rounding.  For every row whose gdp_per_capita
    g, exchange_rate e and cost_index c lie between 2^-100 and 2^100 in
    absolute value, the row's PPP_Adjusted_Income is g * 100 / c, its
    Currency_Fair_Value is e * (c / 100), and their product is a finite
    number within a relative error of 2^-49 of the exact product of g
    and e, and of the float g * e, whatever the cost index.  On the
    analyzer's table the product and g * e are equal on the USA, England
    and South_Africa rows and within 1e-9 on the China row. *)
Theorem ppp_fair_value_product_close :
  (forall (gdp_per_capita exchange_rate cost_index : Series) (i : nat) (g e c : float),
      gdp_per_capita !! i = Some g ->
      exchange_rate !! i = Some e ->
      cost_index !! i = Some c ->
      moderate g = true -> moderate e = true -> moderate c = true ->
      exists p f,
        ppp_adjusted_income_col gdp_per_capita cost_index !! i = Some p
        /\ currency_fair_value_col exchange_rate cost_index !! i = Some f
        /\ p = g * 100 / c
        /\ f = e * (c / 100)
        /\ finite_nonzero (p * f) = true
        /\ within (1 # 562949953421312) (F2Q (p * f)) (F2Q g * F2Q e)%Q
        /\ within (1 # 562949953421312) (F2Q (p * f)) (F2Q (g * e)))
  /\ (exists p1 p2 p3 p4 f1 f2 f3 f4,
        ppp_income_column = Return [p1; p2; p3; p4]
        /\ fair_value_column = Return [f1; f2; f3; f4]
        /\ p1 * f1 = 85000 * 18.5
        /\ close_to (p2 * f2) (12500 * 2.55) 1e-9 = true
        /\ p3 * f3 = 52000 * 23.4
        /\ p4 * f4 = 6800 * 1.0).
Proof.
  split.
  - intros gdp rate cost i g e c Hg He Hc Mg Me Mc.
    exists (g * 100 / c), (e * (c / 100)).
    split.
    { unfold ppp_adjusted_income_col, series_div.
      apply zip_with_lookup_Some; [| exact Hc].
      now apply series_mul_scalar_lookup. }
    split.
    { unfold currency_fair_value_col, series_mul.
      apply zip_with_lookup_Some; [exact He |].
      now apply series_div_scalar_lookup. }
    split; [reflexivity |]. split; [reflexivity |].
    exact (derived_product_error g e c Mg Me Mc).
  - eexists _, _, _, _, _, _, _, _.
    split; [vm_compute; reflexivity |].
    split; [vm_compute; reflexivity |].
    repeat split; vm_compute; reflexivity.
Qed.

Lemma ppp_fair_value_product_close_example :
  exists p f,
    ppp_adjusted_income_col [12500] [58] !! 0%nat = Some p
    /\ currency_fair_value_col [2.55] [58] !! 0%nat = Some f
    /\ p = 12500 * 100 / 58
    /\ f = 2.55 * (58 / 100)
    /\ finite_nonzero (p * f) = true
    /\ within (1 # 562949953421312) (F2Q (p * f)) (F2Q 12500 * F2Q 2.55)%Q
    /\ within (1 # 562949953421312) (F2Q (p * f)) (F2Q (12500 * 2.55)).
Proof.
  apply (proj1 ppp_fair_value_product_close [12500] [2.55] [58] 0%nat 12500 2.55 58);
    reflexivity.
Defined.

End PurchasingPowerProduct.

Section DivisionByZero.

Local Open Scope float_scope.

Lemma is_zero_spec (z : float) : is_zero z = true -> exists s, Prim2SF z = S754_zero s.
Proof.
  unfold is_zero. rewrite FloatAxioms.eqb_spec.
  change (Prim2SF 0) with (S754_zero false).
  destruct (Prim2SF z) as [s | s | | s m e]; try discriminate.
  - intros _. now exists s.
  - destruct s; discriminate.
  - destruct s; discriminate.
Qed.

Lemma is_nan_of_spec (r : float) : Prim2SF r = S754_nan -> is_nan r = true.
Proof.
  intros H. unfold is_nan. rewrite FloatAxioms.eqb_spec, H. reflexivity.
Qed.

Lemma is_infinity_of_spec (r : float) (s : bool) :
  Prim2SF r = S754_infinity s -> is_infinity r = true.
Proof.
  intros H. unfold is_infinity. rewrite FloatAxioms.eqb_spec, abs_spec, H. reflexivity.
Qed.

(** A quotient by zero, times one hundred: NaN for a zero or NaN dividend,
    an infinity for any other. *)
Lemma relative_to_zero (x z : float) :
  is_zero z = true ->
  (is_nan (x / z * 100) = true \/ is_infinity (x / z * 100) = true)
  /\ (is_zero x = true -> is_nan (x / z * 100) = true).
Proof.
  intros Hz. destruct (is_zero_spec z Hz) as [sz Ez].
  assert (Hr : Prim2SF (x / z * 100)
               = SF64mul (SF64div (Prim2SF x) (S754_zero sz))
                         (S754_finite false 7036874417766400 (-46))).
  { rewrite mul_spec, div_spec, Ez. reflexivity. }
  split.
  - destruct (Prim2SF x) as [s | s | | s m e]; simpl in Hr.
    + left. now apply is_nan_of_spec.
    + right. now apply (is_infinity_of_spec _ (xorb (xorb s sz) false)).
    + left. now apply is_nan_of_spec.
    + right. now apply (is_infinity_of_spec _ (xorb (xorb s sz) false)).
  - intros Hx. destruct (is_zero_spec x Hx) as [sx Ex]. rewrite Ex in Hr.
    now apply is_nan_of_spec.
Qed.

(** A negative dividend, finite or not, gives an infinity; a NaN dividend
    gives NaN. *)
Lemma relative_to_zero_of_negative (x z : float) :
  is_zero z = true ->
  ((x <? 0) = true -> is_infinity (x / z * 100) = true)
  /\ (is_nan x = true -> is_nan (x / z * 100) = true).
Proof.
  intros Hz. destruct (is_zero_spec z Hz) as [sz Ez].
  assert (Hr : Prim2SF (x / z * 100)
               = SF64mul (SF64div (Prim2SF x) (S754_zero sz))
                         (S754_finite false 7036874417766400 (-46))).
  { rewrite mul_spec, div_spec, Ez. reflexivity. }
  split.
  - rewrite FloatAxioms.ltb_spec. change (Prim2SF 0) with (S754_zero false).
    intros Hneg.
    destruct (Prim2SF x) as [s | s | | s m e]; simpl in Hr; try discriminate.
    + now apply (is_infinity_of_spec _ (xorb (xorb s sz) false)).
    + now apply (is_infinity_of_spec _ (xorb (xorb s sz) false)).
  - unfold is_nan at 1. rewrite FloatAxioms.eqb_spec. intros Hnan.
    destruct (Prim2SF x) as [s | s | | s m e]; simpl in Hr.
    + destruct s; discriminate.
    + destruct s; discriminate.
    + now apply is_nan_of_spec.
    + unfold SFeqb, SFcompare in Hnan. rewrite Z.compare_refl in Hnan.
      change (Pos.compare_cont Eq m m) with (Pos.compare m m) in Hnan.
      rewrite Pos.compare_refl in Hnan. destruct s; discriminate.
Qed.

End DivisionByZero.

Section RelativeMetric.

Local Open Scope float_scope.

Lemma np_maximum_finite_pos (a b : float) :
  finite_pos a = true -> np_maximum a b = if b <=? a then a else b.
Proof.
  intros Ha. unfold np_maximum. rewrite (finite_pos_not_nan a Ha).
  now rewrite orb_false_r.
Qed.

(** The running maximum of positive numbers is one of them and bounds
    them all. *)
Lemma fold_np_maximum (r : list float) (acc : float) :
  finite_pos acc = true ->
  Forall (fun x => finite_pos x = true) r ->
  finite_pos (fold_left np_maximum r acc) = true
  /\ (fold_left np_maximum r acc = acc \/ fold_left np_maximum r acc ∈ r)
  /\ (acc <=? fold_left np_maximum r acc) = true
  /\ Forall (fun x => (x <=? fold_left np_maximum r acc) = true) r.
Proof.
  intros Hacc Hr. revert acc Hacc.
  induction Hr as [| x r Hx Hr IH]; intros acc Hacc; simpl.
  - repeat split; auto using finite_pos_leb_refl.
  - rewrite (np_maximum_finite_pos acc x Hacc).
    destruct (x <=? acc) eqn:Hle.
    + destruct (IH acc Hacc) as (HM & Hin & Hge & Hall).
      repeat split; auto.
      * destruct Hin as [-> | Hin]; [now left | right; now apply list_elem_of_further].
      * constructor; [| exact Hall].
        now apply (finite_pos_leb_trans x acc).
    + destruct (IH x Hx) as (HM & Hin & Hge & Hall).
      repeat split; auto.
      * right. destruct Hin as [-> | Hin];
          [apply list_elem_of_here | now apply list_elem_of_further].
      * apply (finite_pos_leb_trans acc x); auto.
        now apply finite_pos_leb_total.
Qed.

Lemma fillna_finite_pos (fill : float) (s : Series) :
  Forall (fun x => finite_pos x = true) s -> fillna fill s = s.
Proof.
  induction 1 as [| x s Hx _ IH]; simpl; [reflexivity |].
  now rewrite (finite_pos_not_nan x Hx), IH.
Qed.

(** The maximum of a non-empty column of positive numbers. *)
Lemma nanmax_finite_pos (s : Series) :
  s <> [] ->
  Forall (fun x => finite_pos x = true) s ->
  finite_pos (nanmax s) = true
  /\ nanmax s ∈ s
  /\ Forall (fun x => (x <=? nanmax s) = true) s.
Proof.
  intros Hne Hs. unfold nanmax. rewrite (fillna_finite_pos _ s Hs).
  destruct Hs as [| x r Hx Hr]; [congruence |].
  simpl forallb. rewrite (finite_pos_not_nan x Hx). simpl.
  destruct (fold_np_maximum r x Hx Hr) as (HM & Hin & Hge & Hall).
  repeat split; auto.
  destruct Hin as [-> | Hin]; [apply list_elem_of_here | now apply list_elem_of_further].
Qed.

Lemma normalize_relative_lookup (s : Series) (i : nat) (v : float) :
  s !! i = Some v -> normalize_relative s !! i = Some (v / nanmax s * 100).
Proof.
  intros H. unfold normalize_relative.
  apply series_mul_scalar_lookup. now apply series_div_scalar_lookup.
Qed.

(** C1.  On a non-empty column of positive (finite) numbers the maximum
    is one of the entries; every entry equal to it is mapped to exactly
    100, every entry to a value between 0 and 100, and a column of one
    entry to the column [100]. *)
Theorem normalize_relative_range (s : Series) :
  s <> [] ->
  Forall (fun v => finite_pos v = true) s ->
  nanmax s ∈ s
  /\ length (normalize_relative s) = length s
  /\ (forall i v, s !! i = Some v -> (v =? nanmax s) = true ->
                  normalize_relative s !! i = Some 100)
  /\ (forall i v, s !! i = Some v ->
        exists r, normalize_relative s !! i = Some r
                  /\ (0 <=? r) = true /\ (r <=? 100) = true)
  /\ (forall v, s = [v] -> normalize_relative s = [100]).
Proof.
  intros Hne Hs.
  destruct (nanmax_finite_pos s Hne Hs) as (HM & Hin & Hall).
  assert (Hmax : forall i v, s !! i = Some v -> (v =? nanmax s) = true ->
                             normalize_relative s !! i = Some 100).
  { intros i v Hi Heq. rewrite (normalize_relative_lookup s i v Hi).
    assert (Hv : finite_pos v = true).
    { rewrite Forall_forall in Hs. apply Hs. eapply list_elem_of_lookup_2. exact Hi. }
    rewrite <- (finite_pos_eqb_eq v (nanmax s) Hv HM Heq).
    now rewrite relative_of_self. }
  split; [exact Hin |]. split.
  { unfold normalize_relative, series_mul_scalar, series_div_scalar.
    now rewrite !length_map. }
  split; [exact Hmax |]. split.
  - intros i v Hi. exists (v / nanmax s * 100).
    split; [now apply normalize_relative_lookup |].
    assert (Hv : v ∈ s) by (eapply list_elem_of_lookup_2; exact Hi).
    rewrite Forall_forall in Hs, Hall.
    apply relative_of_smaller; auto.
  - intros v ->. apply list_elem_of_singleton in Hin.
    assert (Hv : finite_pos v = true) by now inversion Hs.
    change (normalize_relative [v]) with [v / nanmax [v] * 100].
    rewrite Hin. now rewrite relative_of_self.
Qed.

(** The theorem at the GDP column of the comparison tables. *)
Lemma normalize_relative_range_gdp :
  nanmax [28.0; 18.0; 3.5; 0.4] ∈ [28.0; 18.0; 3.5; 0.4]
  /\ length (normalize_relative [28.0; 18.0; 3.5; 0.4]) = 4%nat
  /\ (forall i v, [28.0; 18.0; 3.5; 0.4] !! i = Some v ->
                  (v =? nanmax [28.0; 18.0; 3.5; 0.4]) = true ->
                  normalize_relative [28.0; 18.0; 3.5; 0.4] !! i = Some 100)
  /\ (forall i v, [28.0; 18.0; 3.5; 0.4] !! i = Some v ->
        exists r, normalize_relative [28.0; 18.0; 3.5; 0.4] !! i = Some r
                  /\ (0 <=? r) = true /\ (r <=? 100) = true)
  /\ (forall v, [28.0; 18.0; 3.5; 0.4] = [v] ->
                normalize_relative [28.0; 18.0; 3.5; 0.4] = [100]).
Proof.
  apply (normalize_relative_range [28.0; 18.0; 3.5; 0.4]).
  - discriminate.
  - repeat constructor.
Defined.

(** C3, as stated, fails: on a column whose maximum is 0 the quotient is
    computed by numpy's float division, which raises nothing; the column
    [0.0] is mapped to [NaN] and the column [0.0, -2.5] to
    [NaN, -inf]. *)
Lemma normalize_relative_of_zero_max :
  nanmax [0] = 0
  /\ normalize_relative [0] = [nan]
  /\ nanmax [0; -2.5] = 0
  /\ normalize_relative [0; -2.5] = [nan; neg_infinity].
Proof.
  repeat split; vm_compute; reflexivity.
Qed.

(** C3, amended.  On a column whose maximum is 0 (of either sign)
    [normalize_relative] returns a column of the same length and no error:
    every entry is NaN or an infinity; an entry that is zero (or NaN) is
    mapped to NaN and an entry that is negative to an infinity. *)
Theorem normalize_relative_zero_max (s : Series) :
  is_zero (nanmax s) = true ->
  length (normalize_relative s) = length s
  /\ forall i v, s !! i = Some v ->
       exists r, normalize_relative s !! i = Some r
                 /\ (is_nan r = true \/ is_infinity r = true)
                 /\ (is_zero v = true -> is_nan r = true)
                 /\ ((v <? 0) = true -> is_infinity r = true)
                 /\ (is_nan v = true -> is_nan r = true).
Proof.
  intros Hz. split.
  { unfold normalize_relative, series_mul_scalar, series_div_scalar.
    now rewrite !length_map. }
  intros i v Hi. exists (v / nanmax s * 100).
  split; [now apply normalize_relative_lookup |].
  destruct (relative_to_zero v (nanmax s) Hz) as [H1 H2].
  destruct (relative_to_zero_of_negative v (nanmax s) Hz) as [H3 H4].
  repeat split; assumption.
Qed.

(** The theorem at a column of a zero and two negative numbers. *)
Lemma normalize_relative_zero_max_example :
  length (normalize_relative [-1; 0; -2.5]) = length [-1; 0; -2.5]
  /\ forall i v, [-1; 0; -2.5] !! i = Some v ->
       exists r, normalize_relative [-1; 0; -2.5] !! i = Some r
                 /\ (is_nan r = true \/ is_infinity r = true)
                 /\ (is_zero v = true -> is_nan r = true)
                 /\ ((v <? 0) = true -> is_infinity r = true)
                 /\ (is_nan v = true -> is_nan r = true).
Proof.
  apply (normalize_relative_zero_max [-1; 0; -2.5]).
  vm_compute. reflexivity.
Defined.

End RelativeMetric.

Section MethodState.

Import Currency Dashboard Predictor.
Local Open Scope float_scope.

(** A method whose returned value is the same for every state of the
    object it is invoked on, whatever was invoked before. *)
Definition history_independent {S A} (m : meth S A) : Prop :=
  forall s s' : S, result m s = result m s'.

(** A method that leaves the attributes of its object as they were. *)
Definition leaves_unchanged {S A} (m : meth S A) : Prop :=
  forall s : S, after m s = s.

(** Two sectors, one public service and four years of predictions, as
    [load_data] could read them. *)
Definition example_files : gmap string DataFrame :=
  dict_of
    [ ("south_africa_private_sector_growth.csv",
       mkDF (map KInt (range 0 2))
            (dict_of [ ("Sector", StrCol ["Finance"; "ICT"]);
                       ("Growth_%", NumCol [10; 5]);
                       ("Employment_2024", IntCol [1000; 2000]%Z) ]));
      ("south_africa_public_sector_growth.csv",
       mkDF (map KInt (range 0 1))
            (dict_of [ ("Sector", StrCol ["Government"]);
                       ("Growth_%", NumCol [2]);
                       ("Employment_2023", IntCol [1500]%Z) ]));
      ("employment_growth_predictions.csv", predictions_to_2027) ].

(** The predictor once [load_data] has run. *)
Definition loaded : Predictor.Predictor := after (load_data example_files) Predictor.init.

(** C8, as stated, fails for the weighted growth: [predict_gdp_growth]
    takes no argument and reads the [GDP_Impact] columns that
    [calculate_economic_indicators] stores in the predictor.  On the
    loaded predictor it raises KeyError; invoked again after
    [calculate_economic_indicators] it returns a forecast. *)
Lemma predict_gdp_growth_depends_on_history :
  result predict_gdp_growth loaded = Raise (KeyError (KStr "GDP_Impact"))
  /\ (exists f, result predict_gdp_growth (after calculate_economic_indicators loaded)
                = Return f)
  /\ result calculate_economic_indicators loaded = Return tt
  /\ result predict_gdp_growth Predictor.init = Raise TypeError.
Proof.
  split; [vm_compute; reflexivity |]. split; [| split; vm_compute; reflexivity].
  eexists. vm_compute. reflexivity.
Qed.

(** C8, amended.  The table-building methods the claim cites
    ([analyze_purchasing_power], [create_comprehensive_dashboard],
    [create_international_comparison]) and [create_growth_forecast]
    return the same table at every invocation, whatever the state of
    their object, and leave the object unchanged; the dashboard's table
    is a function of the [countries] attribute alone.  (The predictor's
    [calculate_economic_indicators] and [predict_gdp_growth] communicate
    through its attributes and are not of this kind.) *)
Theorem table_methods_are_pure :
  (history_independent analyze_purchasing_power
   /\ leaves_unchanged analyze_purchasing_power)
  /\ (history_independent create_international_comparison
      /\ leaves_unchanged create_international_comparison)
  /\ (history_independent create_growth_forecast
      /\ leaves_unchanged create_growth_forecast)
  /\ ((forall s s' : Dashboard.Dashboard,
          Dashboard.countries s = Dashboard.countries s' ->
          result create_comprehensive_dashboard s = result create_comprehensive_dashboard s')
      /\ leaves_unchanged create_comprehensive_dashboard)
  /\ ~ history_independent predict_gdp_growth
  /\ ~ leaves_unchanged calculate_economic_indicators.
Proof.
  split; [split; intros s; reflexivity |].
  split; [split; intros s; reflexivity |].
  split; [split; intros s; reflexivity |].
  split; [split |].
  - intros [c] [c']. simpl. intros ->. reflexivity.
  - intros s. unfold after, create_comprehensive_dashboard, getattr, Obj.pure.
    unfold mbind, meth_bind. simpl. reflexivity.
  - split.
    + intros H. specialize (H loaded (after calculate_economic_indicators loaded)).
      vm_compute in H. discriminate H.
    + intros H. specialize (H loaded).
      assert (E : result predict_gdp_growth (after calculate_economic_indicators loaded)
                  = result predict_gdp_growth loaded) by now rewrite H.
      vm_compute in E. discriminate E.
Qed.

End MethodState.

Section NoiseSeries.

Import Currency.
Local Open Scope float_scope.

Variable G : Type.
Variable gauss : G -> float * G.

(** The state of the generator after [k] draws, and the variate of the
    draw that follows. *)
Definition advance (k : nat) (g : G) : G := Nat.iter k (fun s => snd (gauss s)) g.
Definition variate (g : G) (k : nat) : float := fst (gauss (advance k g)).

Lemma advance_S (k : nat) (g : G) : advance (S k) g = advance k (snd (gauss g)).
Proof.
  unfold advance. induction k as [| k IH]; [reflexivity |].
  simpl in *. now rewrite IH.
Qed.

(** [size] draws are the next [size] variates of the stream. *)
Lemma normal_stream (loc scale : float) (size : nat) (g : G) :
  normal G gauss loc scale size g
  = (map (fun k => loc + scale * variate g k) (seq 0 size), advance size g).
Proof.
  revert g. induction size as [| n IH]; intros g; [reflexivity |].
  simpl normal. destruct (gauss g) as [z g1] eqn:E. rewrite IH.
  rewrite advance_S, E. simpl snd. f_equal.
  simpl map. f_equal.
  - unfold variate, advance. simpl. now rewrite E.
  - rewrite <- seq_shift, map_map. apply map_ext. intros k.
    unfold variate. now rewrite advance_S, E.
Qed.

Lemma advance_add (j k : nat) (g : G) : advance k (advance j g) = advance (j + k) g.
Proof.
  unfold advance. rewrite Nat.add_comm. symmetry. apply Nat.iter_add.
Qed.

Lemma seq_offset (j size : nat) : seq j size = map (fun k => (j + k)%nat) (seq 0 size).
Proof.
  revert j. induction size as [| n IH]; intros j; [reflexivity |].
  simpl. rewrite Nat.add_0_r. f_equal.
  rewrite <- (seq_shift n 0), map_map, (IH (S j)).
  apply map_ext. intros k. lia.
Qed.

Lemma normal_stream_from (loc scale : float) (size j : nat) (g : G) :
  normal G gauss loc scale size (advance j g)
  = (map (fun k => loc + scale * variate g k) (seq j size), advance (j + size) g).
Proof.
  rewrite normal_stream, advance_add. f_equal.
  rewrite (seq_offset j size), map_map. apply map_ext. intros k.
  unfold variate. now rewrite advance_add.
Qed.

(** C9, amended.  The noise of the trends is drawn from the process-wide
    generator: [create_currency_dashboard] takes neither a seed nor the
    generator as an argument, draws 24 variates for each of USD, CNY and
    GBP in this order ([rate + (0 + scale * z)]), and leaves the
    generator 72 draws further.  Its series are a function of the state
    the generator is in when it is invoked: equal states give equal
    series, and a second invocation continues the stream where the first
    one stopped. *)
Theorem currency_dashboard_draws (g : G) :
  let run := create_currency_dashboard G gauss g in
  USD_ZAR (fst (fst run)) = map (fun k => 18.5 + (0 + 0.5 * variate g k)) (seq 0 24)
  /\ CNY_ZAR (fst (fst run)) = map (fun k => 2.55 + (0 + 0.1 * variate g k)) (seq 24 24)
  /\ GBP_ZAR (fst (fst run)) = map (fun k => 23.4 + (0 + 0.8 * variate g k)) (seq 48 24)
  /\ Date (fst (fst run)) = months
  /\ snd run = advance 72 g
  /\ USD_ZAR (fst (fst (create_currency_dashboard G gauss (snd run))))
     = map (fun k => 18.5 + (0 + 0.5 * variate g k)) (seq 72 24).
Proof.
  assert (Hrun : forall j,
    let run := create_currency_dashboard G gauss (advance j g) in
    USD_ZAR (fst (fst run))
    = map (fun k => 18.5 + (0 + 0.5 * variate g k)) (seq j 24)
    /\ CNY_ZAR (fst (fst run))
       = map (fun k => 2.55 + (0 + 0.1 * variate g k)) (seq (j + 24) 24)
    /\ GBP_ZAR (fst (fst run))
       = map (fun k => 23.4 + (0 + 0.8 * variate g k)) (seq (j + 48) 24)
    /\ Date (fst (fst run)) = months
    /\ snd run = advance (j + 72) g).
  { intros j. unfold create_currency_dashboard.
    change (length months) with 24%nat.
    rewrite (normal_stream_from 0 0.5 24 j g).
    rewrite (normal_stream_from 0 0.1 24 (j + 24) g).
    rewrite (normal_stream_from 0 0.8 24 (j + 24 + 24) g).
    cbn [fst snd USD_ZAR CNY_ZAR GBP_ZAR Date].
    unfold series_add_scalar. rewrite !map_map.
    replace (j + 24 + 24)%nat with (j + 48)%nat by lia.
    replace (j + 48 + 24)%nat with (j + 72)%nat by lia.
    repeat split; reflexivity. }
  intros run.
  destruct (Hrun 0%nat) as (H1 & H2 & H3 & H4 & H5).
  change (advance 0 g) with g in *. fold run in H1, H2, H3, H4, H5.
  repeat split; try assumption.
  rewrite H5. apply (Hrun 72%nat).
Qed.

End NoiseSeries.

Section NoiseCounterexample.

Import Currency.
Local Open Scope float_scope.

(** A generator that counts its draws: the state is the number of
    variates drawn so far and the variate is that number. *)
Definition counting_gauss (n : nat) : float * nat :=
  (of_uint63 (Uint63.of_Z (Z.of_nat n)), S n).

Definition first_run := create_currency_dashboard nat counting_gauss 0%nat.
Definition second_run := create_currency_dashboard nat counting_gauss (snd first_run).

(** C9, as stated, fails: the dashboard takes no seed, and two
    invocations with the same (empty) arguments draw from the generator
    one after the other.  With the counting generator the first series
    starts at 18.5 + 0.5 * 0 and the second at 18.5 + 0.5 * 72. *)
Lemma successive_dashboards_differ :
  snd first_run = 72%nat
  /\ USD_ZAR (fst (fst first_run)) !! 0%nat = Some 18.5
  /\ USD_ZAR (fst (fst second_run)) !! 0%nat = Some 54.5
  /\ (18.5 =? 54.5) = false.
Proof.
  repeat split; vm_compute; reflexivity.
Qed.

End NoiseCounterexample.

(** ** The order of binary64 numbers *)

Section FloatOrder.

Local Open Scope float_scope.

Lemma SFcompare_antisym (x y : spec_float) :
  SFcompare y x = option_map CompOpp (SFcompare x y).
Proof.
  destruct x as [sx | sx | | sx mx ex], y as [sy | sy | | sy my ey]; simpl;
    try reflexivity;
    try (destruct sx; reflexivity); try (destruct sy; reflexivity);
    try (destruct sx, sy; reflexivity).
  f_equal. rewrite (Z.compare_antisym ex ey).
  change (Pos.compare_cont Eq my mx) with (Pos.compare my mx).
  rewrite (Pos.compare_antisym mx my).
  change (Pos.compare_cont Eq mx my) with (Pos.compare mx my).
  destruct sx, sy; try reflexivity;
    destruct (Z.compare ex ey); simpl; try reflexivity;
    destruct (Pos.compare mx my); reflexivity.
Qed.

Lemma not_nan_spec (x : float) : is_nan x = false -> Prim2SF x <> S754_nan.
Proof.
  intros H E. apply is_nan_of_spec in E. congruence.
Qed.

Lemma SFcompare_not_nan (x y : spec_float) :
  x <> S754_nan -> y <> S754_nan -> exists c, SFcompare x y = Some c.
Proof.
  intros Hx Hy.
  destruct x as [sx | sx | | sx mx ex], y as [sy | sy | | sy my ey];
    try congruence; simpl; eexists; reflexivity.
Qed.

Lemma ltb_leb (x y : float) : (x <? y) = true -> (x <=? y) = true.
Proof.
  rewrite FloatAxioms.ltb_spec, FloatAxioms.leb_spec. unfold SFltb, SFleb.
  destruct (SFcompare (Prim2SF x) (Prim2SF y)) as [[] |]; congruence.
Qed.

Lemma not_ltb_leb (x y : float) :
  is_nan x = false -> is_nan y = false -> (x <? y) = false -> (y <=? x) = true.
Proof.
  intros Hx Hy. apply not_nan_spec in Hx, Hy.
  rewrite FloatAxioms.ltb_spec, FloatAxioms.leb_spec. unfold SFltb, SFleb.
  rewrite (SFcompare_antisym (Prim2SF x) (Prim2SF y)).
  destruct (SFcompare_not_nan _ _ Hx Hy) as [c ->].
  destruct c; simpl; congruence.
Qed.

Lemma not_leb_leb (x y : float) :
  is_nan x = false -> is_nan y = false -> (x <=? y) = false -> (y <=? x) = true.
Proof.
  intros Hx Hy. apply not_nan_spec in Hx, Hy.
  rewrite !FloatAxioms.leb_spec. unfold SFleb.
  rewrite (SFcompare_antisym (Prim2SF x) (Prim2SF y)).
  destruct (SFcompare_not_nan _ _ Hx Hy) as [c ->].
  destruct c; simpl; congruence.
Qed.

Lemma ltb_not_eqb (x y : float) : (x <? y) = true -> (y =? x) = false.
Proof.
  rewrite FloatAxioms.ltb_spec, FloatAxioms.eqb_spec. unfold SFltb, SFeqb.
  rewrite (SFcompare_antisym (Prim2SF x) (Prim2SF y)).
  destruct (SFcompare (Prim2SF x) (Prim2SF y)) as [[] |]; simpl; congruence.
Qed.

Lemma eqb_sym (x y : float) : (x =? y) = (y =? x).
Proof.
  rewrite !FloatAxioms.eqb_spec. unfold SFeqb.
  rewrite (SFcompare_antisym (Prim2SF y) (Prim2SF x)).
  destruct (SFcompare (Prim2SF y) (Prim2SF x)) as [[] |]; reflexivity.
Qed.

End FloatOrder.

(** ** Rankings *)

Section SortedLists.

Context {A : Type}.

Lemma Sorted_app_one (R : A -> A -> Prop) (l : list A) (x : A) :
  Sorted R l -> (forall y l', l = l' ++ [y] -> R y x) -> Sorted R (l ++ [x]).
Proof.
  induction l as [| a l IH]; intros Hs Hlast; simpl.
  - repeat constructor.
  - apply Sorted_inv in Hs as [Hs Hhd]. constructor.
    + apply IH; [exact Hs |]. intros y l' ->. apply (Hlast y (a :: l')). reflexivity.
    + destruct l as [| b l]; simpl.
      * constructor. apply (Hlast a []). reflexivity.
      * constructor. now inversion Hhd.
Qed.

Lemma Sorted_rev (R : A -> A -> Prop) (l : list A) :
  Sorted R l -> Sorted (fun x y => R y x) (rev l).
Proof.
  induction 1 as [| a l Hs IH Hhd]; simpl; [constructor |].
  apply Sorted_app_one; [exact IH |].
  intros y l' E.
  assert (El : l = y :: rev l').
  { rewrite <- (rev_involutive l), E, rev_app_distr. reflexivity. }
  subst l. now inversion Hhd.
Qed.

Lemma FOP_app_one (R : A -> A -> Prop) (l : list A) (x : A) :
  ForallOrdPairs R l -> Forall (fun y => R y x) l -> ForallOrdPairs R (l ++ [x]).
Proof.
  induction 1 as [| a l Ha Hl IH]; intros Hx; simpl.
  - repeat constructor.
  - inversion Hx as [| ? ? Hax Hlx]; subst. constructor.
    + apply Forall_app. split; [exact Ha | now constructor].
    + now apply IH.
Qed.

Lemma FOP_rev (R : A -> A -> Prop) (l : list A) :
  ForallOrdPairs R l -> ForallOrdPairs (fun x y => R y x) (rev l).
Proof.
  induction 1 as [| a l Ha Hl IH]; simpl; [constructor |].
  apply FOP_app_one; [exact IH |].
  apply Forall_forall. intros y Hy. rewrite Forall_forall in Ha.
  apply Ha. now apply list_elem_of_In, in_rev, list_elem_of_In.
Qed.

Lemma FOP_impl (R R' : A -> A -> Prop) (l : list A) :
  (forall x y, R x y -> R' x y) -> ForallOrdPairs R l -> ForallOrdPairs R' l.
Proof.
  intros HR. induction 1 as [| a l Ha Hl IH]; constructor; [| exact IH].
  eapply Forall_impl; [exact Ha |]. intros y. apply HR.
Qed.

End SortedLists.

Section SortedMaps.

Context {A B : Type}.
Variable f : A -> B.
Variable P : A -> Prop.
Variable R : A -> A -> Prop.
Variable R' : B -> B -> Prop.
Hypothesis HR : forall x y, P x -> P y -> R x y -> R' (f x) (f y).

Lemma Sorted_map_in (l : list A) :
  Forall P l -> Sorted R l -> Sorted R' (map f l).
Proof.
  intros HP. induction 1 as [| a l Hs IH Hhd]; simpl; [constructor |].
  inversion HP as [| ? ? Pa Pl]; subst. constructor; [now apply IH |].
  destruct Hhd as [| b l Hab]; simpl; constructor.
  inversion Pl; subst. now apply HR.
Qed.

Lemma FOP_map_in (l : list A) :
  Forall P l -> ForallOrdPairs R l -> ForallOrdPairs R' (map f l).
Proof.
  intros HP. induction 1 as [| a l Ha Hl IH]; simpl; [constructor |].
  inversion HP as [| ? ? Pa Pl]; subst. constructor; [| now apply IH].
  apply Forall_fmap. rewrite Forall_forall in *. intros y Hy.
  apply HR; auto.
Qed.

End SortedMaps.

Section RankingOrder.

(** Keys without NaN: pandas sets the NaN keys apart before the sort. *)
Definition no_nan (v : list float) : Prop := Forall (fun x => is_nan x = false) v.

Definition ascending (v : list float) (i j : nat) : Prop :=
  (key_at v i <=? key_at v j)%float = true.

Definition descending (v : list float) (i j : nat) : Prop :=
  (key_at v j <=? key_at v i)%float = true.

(** Two positions with equal keys come in the order of the positions. *)
Definition ties_in_order (v : list float) (i j : nat) : Prop :=
  (key_at v i =? key_at v j)%float = true -> i < j.

(** What numpy promises of [argsort], whatever the [kind]: the positions
    of the array, each once, with their keys in ascending order. *)
Definition sorts (argsort : list float -> list nat) : Prop :=
  forall v, no_nan v ->
    Permutation (argsort v) (seq 0 (length v)) /\ Sorted (ascending v) (argsort v).

(** What the stable kinds promise besides: equal keys keep their order. *)
Definition stable (argsort : list float -> list nat) : Prop :=
  forall v, no_nan v -> ForallOrdPairs (ties_in_order v) (argsort v).

Lemma key_at_no_nan (v : list float) (i : nat) :
  no_nan v -> i < length v -> is_nan (key_at v i) = false.
Proof.
  intros Hv Hi. unfold key_at.
  destruct (lookup_lt_is_Some_2 v i Hi) as [x Hx]. rewrite Hx. simpl.
  unfold no_nan in Hv. rewrite Forall_forall in Hv. apply Hv.
  eapply list_elem_of_lookup_2. exact Hx.
Qed.

Section Insertion.

Variable before : float -> float -> bool.
Hypothesis before_leb : forall x y, before x y = true -> (x <=? y)%float = true.
Hypothesis not_before_leb :
  forall x y, is_nan x = false -> is_nan y = false ->
              before x y = false -> (y <=? x)%float = true.
Variable v : list float.
Hypothesis v_no_nan : no_nan v.

Lemma insert_pos_perm (i : nat) (rs : list nat) :
  Permutation (insert_pos before v i rs) (i :: rs).
Proof.
  induction rs as [| k rs IH]; simpl; [reflexivity |].
  destruct (before (key_at v i) (key_at v k)); [| reflexivity].
  rewrite IH. apply perm_swap.
Qed.

Lemma insert_pos_sorted (i : nat) (rs : list nat) :
  i < length v -> Forall (fun k => k < length v) rs ->
  Sorted (descending v) rs -> Sorted (descending v) (insert_pos before v i rs).
Proof.
  intros Hi Hrs Hs. induction Hs as [| k rs Hs IH Hhd]; simpl.
  - repeat constructor.
  - inversion Hrs as [| ? ? Hk Hrs']; subst.
    destruct (before (key_at v i) (key_at v k)) eqn:E.
    + constructor; [now apply IH |].
      destruct Hhd as [| j rs Hkj]; simpl.
      * constructor. now apply before_leb.
      * destruct (before (key_at v i) (key_at v j)); constructor;
          [exact Hkj | now apply before_leb].
    + constructor; [now constructor |]. constructor.
      apply not_before_leb; auto using key_at_no_nan.
Qed.

Lemma insert_all_sorted (l rs : list nat) :
  Forall (fun k => k < length v) l -> Forall (fun k => k < length v) rs ->
  Sorted (descending v) rs ->
  Sorted (descending v) (fold_left (fun rs i => insert_pos before v i rs) l rs)
  /\ Permutation (fold_left (fun rs i => insert_pos before v i rs) l rs) (rev l ++ rs).
Proof.
  revert rs. induction l as [| i l IH]; intros rs Hl Hrs Hs; simpl.
  - split; [exact Hs | reflexivity].
  - inversion Hl as [| ? ? Hi Hl']; subst.
    destruct (IH (insert_pos before v i rs)) as [H1 H2]; auto.
    + eapply Permutation_Forall; [symmetry; apply insert_pos_perm |]. now constructor.
    + now apply insert_pos_sorted.
    + split; [exact H1 |]. rewrite H2, insert_pos_perm, <- app_assoc. simpl.
      apply Permutation_app_head. reflexivity.
Qed.

Lemma seq_bounded (n : nat) : Forall (fun k => k < n) (seq 0 n).
Proof.
  apply Forall_forall. intros k Hk. apply list_elem_of_In, in_seq in Hk. lia.
Qed.

Lemma insertion_argsort_by_sorts_at :
  Permutation (insertion_argsort_by before v) (seq 0 (length v))
  /\ Sorted (ascending v) (insertion_argsort_by before v).
Proof.
  unfold insertion_argsort_by.
  destruct (insert_all_sorted (seq 0 (length v)) []) as [H1 H2];
    [apply seq_bounded | constructor | constructor |].
  split.
  - rewrite <- Permutation_rev, H2, app_nil_r. symmetry. apply Permutation_rev.
  - apply (Sorted_rev (descending v)). exact H1.
Qed.

End Insertion.

(** An insertion sort of the positions sorts, whichever way it treats
    equal keys. *)
Lemma insertion_argsort_by_sorts (before : float -> float -> bool) :
  (forall x y, before x y = true -> (x <=? y)%float = true) ->
  (forall x y, is_nan x = false -> is_nan y = false ->
               before x y = false -> (y <=? x)%float = true) ->
  sorts (insertion_argsort_by before).
Proof.
  intros H1 H2 v Hv. now apply insertion_argsort_by_sorts_at.
Qed.

Lemma insertion_argsort_sorts : sorts insertion_argsort.
Proof.
  apply insertion_argsort_by_sorts; [apply ltb_leb | apply not_ltb_leb].
Qed.

Section Stability.

Variable v : list float.

(** Among the positions sorted so far, from the last to the first. *)
Definition ties_reversed (a b : nat) : Prop :=
  (key_at v b =? key_at v a)%float = true -> b < a.

Lemma insert_pos_ties (i : nat) (rs : list nat) :
  Forall (fun k => k < i) rs ->
  ForallOrdPairs ties_reversed rs ->
  ForallOrdPairs ties_reversed (insert_pos PrimFloat.ltb v i rs).
Proof.
  intros Hlt Hs. induction Hs as [| k rs Hk Hs IH]; simpl.
  - repeat constructor.
  - inversion Hlt as [| ? ? Hki Hlt']; subst.
    destruct (key_at v i <? key_at v k)%float eqn:E.
    + constructor; [| now apply IH].
      eapply Permutation_Forall; [symmetry; apply insert_pos_perm |].
      constructor; [| exact Hk].
      intros Heq. apply ltb_not_eqb in E. rewrite eqb_sym in E. congruence.
    + constructor; [| now constructor].
      apply Forall_forall. intros b Hb _.
      rewrite Forall_forall in Hlt. apply Hlt. exact Hb.
Qed.

Lemma insert_all_ties (n a : nat) (rs : list nat) :
  Forall (fun k => k < a) rs ->
  ForallOrdPairs ties_reversed rs ->
  ForallOrdPairs ties_reversed
    (fold_left (fun rs i => insert_pos PrimFloat.ltb v i rs) (seq a n) rs).
Proof.
  revert a rs. induction n as [| n IH]; intros a rs Hlt Hs; simpl; [exact Hs |].
  apply IH.
  - eapply Permutation_Forall; [symmetry; apply insert_pos_perm |].
    constructor; [lia |]. eapply Forall_impl; [exact Hlt |]. simpl. lia.
  - now apply insert_pos_ties.
Qed.

End Stability.

Lemma insertion_argsort_stable : stable insertion_argsort.
Proof.
  intros v _. unfold insertion_argsort, insertion_argsort_by.
  apply (FOP_rev (ties_reversed v)).
  apply insert_all_ties; constructor.
Qed.

End RankingOrder.

Section RankingPipeline.

Lemma mask_positions_from_all (mask : list bool) (start : nat) :
  Forall (fun b => b = true) mask ->
  omap (fun im : nat * bool => if im.2 then Some im.1 else None)
       (zip (seq start (length mask)) mask) = seq start (length mask).
Proof.
  intros H. revert start. induction H as [| b mask Hb _ IH]; intros start; simpl.
  - reflexivity.
  - subst b. simpl. now rewrite IH.
Qed.

Lemma mask_positions_all (mask : list bool) :
  Forall (fun b => b = true) mask -> mask_positions mask = seq 0 (length mask).
Proof. apply mask_positions_from_all. Qed.

Lemma np_take_all {A} (a : list A) : np_take a (seq 0 (length a)) = a.
Proof.
  unfold np_take. induction a as [| x a IH]; [reflexivity |].
  simpl. f_equal. rewrite <- seq_shift.
  rewrite <- IH at 2. clear IH. generalize (seq 0 (length a)). intros l.
  induction l as [| k l IHl]; [reflexivity |].
  simpl. destruct (a !! k); simpl; now rewrite IHl.
Qed.

Lemma rev_seq (n : nat) : rev (seq 0 n) = map (fun k => n - 1 - k) (seq 0 n).
Proof.
  induction n as [| n IH]; [reflexivity |].
  rewrite seq_S at 1. rewrite rev_app_distr. simpl rev. simpl app.
  rewrite IH. simpl seq. simpl map. f_equal; [lia |].
  rewrite <- seq_shift, map_map. apply map_ext. intros k. lia.
Qed.

Lemma np_take_rev_seq (n : nat) (p : list nat) :
  Forall (fun k => k < n) p ->
  np_take (rev (seq 0 n)) p = map (fun k => n - 1 - k) p.
Proof.
  intros Hp. unfold np_take. induction Hp as [| k p Hk _ IH]; [reflexivity |].
  simpl. change (list_omap nat nat) with (@omap list _ nat nat). rewrite IH.
  rewrite rev_seq, list_lookup_fmap, lookup_seq_lt by exact Hk.
  reflexivity.
Qed.

Lemma key_at_rev (v : list float) (k : nat) :
  k < length v -> key_at (rev v) k = key_at v (length v - 1 - k).
Proof.
  intros Hk. unfold key_at. rewrite <- !nth_lookup.
  rewrite rev_nth by exact Hk. f_equal. lia.
Qed.

(** The positions pandas computes for a descending sort of keys without
    NaN: the sort of the reversed keys, read backwards. *)
Lemma nargsort_descending (argsort : list float -> list nat) (keys : list float) :
  no_nan keys ->
  nargsort argsort keys false
  = rev (np_take (rev (seq 0 (length keys))) (argsort (rev keys))).
Proof.
  intros Hk. unfold nargsort.
  rewrite (mask_positions_none (map is_nan keys)).
  2:{ apply Forall_fmap. exact Hk. }
  rewrite (mask_positions_all (map negb (map is_nan keys))).
  2:{ apply Forall_fmap, Forall_fmap. eapply Forall_impl; [exact Hk |].
      intros x Hx. simpl. now rewrite Hx. }
  rewrite !length_map, np_take_all, app_nil_r.
  reflexivity.
Qed.

(** The three records of the example: A with 10, B and B2 with 30. *)
Definition records : DataFrame :=
  mkDF (map KInt (range 0 3))
       (dict_of [ ("c", StrCol ["A"; "B"; "B2"]); ("v", NumCol [10; 30; 30]%float) ]).

(** Four records with two pairs of equal keys. *)
Definition paired_records : DataFrame :=
  mkDF (map KInt (range 0 4))
       (dict_of [ ("c", StrCol ["A"; "A2"; "B"; "B2"]); ("v", NumCol [0; 0; 1; 1]%float) ]).

(** The names of a ranking, in order. *)
Definition ranked_names (argsort : list float -> list nat) (df : DataFrame)
  : py (list string) :=
  df ← sort_values argsort df "v" false; str_column df "c".

(** C5, as stated, fails: the calls of the source name no [kind], so the
    keys are sorted by numpy's default "quicksort", which promises no
    order between equal keys.  With its vectorised kernel the four
    records A, A2, B, B2 with the keys 0, 0, 1, 1 are ranked B2, B, A2,
    A: B2 comes before B and A2 before A.  (The three records of the
    example come out as B, B2, A.) *)
Lemma ranking_ties_not_kept :
  nargsort argsort_8_64bit [0; 0; 1; 1]%float false = [3; 2; 1; 0]
  /\ ranked_names argsort_8_64bit paired_records = Return ["B2"; "B"; "A2"; "A"]
  /\ ranked_names argsort_8_64bit records = Return ["B"; "B2"; "A"].
Proof.
  repeat split; vm_compute; reflexivity.
Qed.

(** C5, amended.  On keys without NaN, for every argsort kernel that
    sorts (numpy's promise for every [kind]), the descending ranking
    visits every row once, in descending order of the keys, and
    [sort_values] returns the rows in that order.  Rows with equal keys
    stay in their original order when the kernel is stable, as the
    insertion pass of the generic kernel is; the vectorised kernel is
    not.  The three records of the example are ranked B, B2, A by
    both. *)
Theorem ranking_descending (argsort : list float -> list nat) (keys : list float) :
  sorts argsort ->
  no_nan keys ->
  Permutation (nargsort argsort keys false) (seq 0 (length keys))
  /\ Sorted (descending keys) (nargsort argsort keys false)
  /\ (stable argsort -> ForallOrdPairs (ties_in_order keys) (nargsort argsort keys false))
  /\ (forall (df : DataFrame) (by_ : string),
         df_columns df !! by_ = Some (NumCol keys) ->
         sort_values argsort df by_ false
         = Return (df_take df (nargsort argsort keys false)))
  /\ (sorts insertion_argsort /\ stable insertion_argsort)
  /\ ranked_names insertion_argsort records = Return ["B"; "B2"; "A"]
  /\ ranked_names argsort_8_64bit records = Return ["B"; "B2"; "A"].
Proof.
  intros Hsorts Hk.
  assert (Hrev : no_nan (rev keys)).
  { unfold no_nan in *. rewrite Forall_forall in *. intros x Hx. apply Hk.
    now apply list_elem_of_In, in_rev, list_elem_of_In. }
  destruct (Hsorts (rev keys) Hrev) as [Hperm Hsorted].
  rewrite length_rev in Hperm.
  assert (Hbound : Forall (fun k => k < length keys) (argsort (rev keys))).
  { eapply Permutation_Forall; [symmetry; exact Hperm | apply seq_bounded]. }
  assert (Hidx : nargsort argsort keys false
                 = rev (map (fun k => length keys - 1 - k) (argsort (rev keys)))).
  { rewrite (nargsort_descending argsort keys Hk). f_equal.
    now apply np_take_rev_seq. }
  rewrite Hidx.
  split; [| split; [| split; [| split; [| split; [| split]]]]].
  - rewrite <- Permutation_rev, Hperm.
    rewrite <- rev_seq. symmetry. apply Permutation_rev.
  - apply (Sorted_rev (ascending keys)).
    apply (Sorted_map_in _ (fun k => k < length keys) (ascending (rev keys)));
      [| exact Hbound | exact Hsorted].
    intros x y Hx Hy. unfold ascending.
    now rewrite !key_at_rev.
  - intros Hstable.
    apply (FOP_impl (fun i j => ((key_at keys j =? key_at keys i)%float = true -> i < j))).
    { intros i j H. unfold ties_in_order. rewrite eqb_sym. exact H. }
    apply (FOP_rev (fun i j => ((key_at keys i =? key_at keys j)%float = true -> j < i))).
    apply (FOP_map_in _ (fun k => k < length keys) (ties_in_order (rev keys)));
      [| exact Hbound | now apply Hstable].
    intros x y Hx Hy. unfold ties_in_order.
    rewrite !key_at_rev by assumption. intros H Heq. specialize (H Heq). lia.
  - intros df by_ Hcol. unfold sort_values, num_column, df_getitem, dict_getitem_str.
    rewrite Hcol. simpl. now rewrite Hidx.
  - split; [exact insertion_argsort_sorts | exact insertion_argsort_stable].
  - vm_compute. reflexivity.
  - vm_compute. reflexivity.
Qed.

(** The theorem at the keys of the example, with the insertion kernel. *)
Lemma ranking_descending_example :
  Permutation (nargsort insertion_argsort [10; 30; 30]%float false) (seq 0 3)
  /\ Sorted (descending [10; 30; 30]%float)
            (nargsort insertion_argsort [10; 30; 30]%float false)
  /\ (stable insertion_argsort ->
      ForallOrdPairs (ties_in_order [10; 30; 30]%float)
                     (nargsort insertion_argsort [10; 30; 30]%float false))
  /\ (forall (df : DataFrame) (by_ : string),
         df_columns df !! by_ = Some (NumCol [10; 30; 30]%float) ->
         sort_values insertion_argsort df by_ false
         = Return (df_take df (nargsort insertion_argsort [10; 30; 30]%float false)))
  /\ (sorts insertion_argsort /\ stable insertion_argsort)
  /\ ranked_names insertion_argsort records = Return ["B"; "B2"; "A"]
  /\ ranked_names argsort_8_64bit records = Return ["B"; "B2"; "A"].
Proof.
  apply (ranking_descending insertion_argsort [10; 30; 30]%float).
  - exact insertion_argsort_sorts.
  - repeat constructor.
Defined.

End RankingPipeline.

(** * Further properties of the scripts *)

Section ZeroDivisors.

Import Currency Predictor.
Local Open Scope float_scope.

(** A quotient by zero is NaN for a zero or NaN dividend and an infinity
    for any other: numpy's division raises nothing. *)
Lemma quotient_by_zero (x z : float) :
  is_zero z = true ->
  (is_nan (x / z) = true \/ is_infinity (x / z) = true)
  /\ (is_zero x = true -> is_nan (x / z) = true).
Proof.
  intros Hz. destruct (is_zero_spec z Hz) as [sz Ez].
  assert (Hr : Prim2SF (x / z) = SF64div (Prim2SF x) (S754_zero sz)).
  { rewrite div_spec, Ez. reflexivity. }
  split.
  - destruct (Prim2SF x) as [s | s | | s m e]; simpl in Hr.
    + left. now apply is_nan_of_spec.
    + right. now apply (is_infinity_of_spec _ (xorb s sz)).
    + left. now apply is_nan_of_spec.
    + right. now apply (is_infinity_of_spec _ (xorb s sz)).
  - intros Hx. destruct (is_zero_spec x Hx) as [sx Ex]. rewrite Ex in Hr.
    now apply is_nan_of_spec.
Qed.

Lemma zero_times_hundred (g : float) : is_zero g = true -> is_zero (g * 100) = true.
Proof.
  intros Hg. destruct (is_zero_spec g Hg) as [s Eg].
  unfold is_zero. rewrite FloatAxioms.eqb_spec, mul_spec, Eg.
  destruct s; reflexivity.
Qed.

(** A row whose cost index is zero gets an infinite PPP-adjusted income,
    or NaN when its income is zero or NaN: the column is computed and no
    error is raised. *)
Theorem ppp_adjusted_income_zero_cost (gdp_per_capita cost_index : Series)
    (i : nat) (g c : float) :
  gdp_per_capita !! i = Some g ->
  cost_index !! i = Some c ->
  is_zero c = true ->
  exists r, ppp_adjusted_income_col gdp_per_capita cost_index !! i = Some r
            /\ (is_nan r = true \/ is_infinity r = true)
            /\ (is_zero g = true -> is_nan r = true).
Proof.
  intros Hg Hc Hz. exists (g * 100 / c). split.
  - unfold ppp_adjusted_income_col, series_div.
    apply zip_with_lookup_Some; [| exact Hc]. now apply series_mul_scalar_lookup.
  - destruct (quotient_by_zero (g * 100) c Hz) as [H1 H2].
    split; [exact H1 |]. intros H. apply H2. now apply zero_times_hundred.
Qed.

Lemma ppp_adjusted_income_zero_cost_example :
  exists r, ppp_adjusted_income_col [85000; 0] [100; 0] !! 1%nat = Some r
            /\ (is_nan r = true \/ is_infinity r = true)
            /\ (is_zero 0 = true -> is_nan r = true).
Proof.
  apply (ppp_adjusted_income_zero_cost [85000; 0] [100; 0] 1 0 0);
    reflexivity.
Defined.

End ZeroDivisors.

(** ** Sums

    The sum numpy computes is a sum of the entries in the sense of the
    specification: every entry is added once. *)

Section Summation.

Import Sector.
Local Open Scope float_scope.











End Summation.

Section PredictorMethods.

Import Predictor Sector.
Local Open Scope float_scope.

(** Every column of a frame has one entry per row. *)
Definition frame_ok (df : DataFrame) : Prop :=
  forall name col, df_columns df !! name = Some col ->
                   column_length col = length (df_index df).

(** A frame as [read_csv] gives it: every column has one entry per row,
    and a frame without rows holds empty object columns only. *)
Definition parsed (df : DataFrame) : Prop :=
  frame_ok df
  /\ (df_index df = [] ->
      forall name col, df_columns df !! name = Some col -> col = StrCol []).

Lemma df_getitem_Some (df : DataFrame) (name : string) (c : column) :
  df_columns df !! name = Some c -> df_getitem df name = Return c.
Proof.
  intros H. unfold df_getitem, dict_getitem_str. now rewrite H.
Qed.

Lemma num_column_Some (df : DataFrame) (name : string) (v : Series) :
  df_columns df !! name = Some (NumCol v) -> num_column df name = Return v.
Proof.
  intros H. unfold num_column, df_getitem, dict_getitem_str. now rewrite H.
Qed.

Lemma str_column_Some (df : DataFrame) (name : string) (v : list string) :
  df_columns df !! name = Some (StrCol v) -> str_column df name = Return v.
Proof.
  intros H. unfold str_column, df_getitem, dict_getitem_str. now rewrite H.
Qed.

Lemma df_setitem_ok (df : DataFrame) (name : string) (c : column) :
  column_length c = length (df_index df) ->
  df_setitem df name c = Return (mkDF (df_index df) (<[name := c]> (df_columns df))).
Proof.
  intros H. unfold df_setitem. now rewrite H, Nat.eqb_refl.
Qed.

(** A frame once [calculate_economic_indicators] has run on it. *)
Definition with_indicators (df : DataFrame) (contribution : Series) (impact : column)
  : DataFrame :=
  mkDF (df_index df)
       (<["GDP_Impact" := impact]>
          (<["Economic_Contribution" := NumCol contribution]> (df_columns df))).

Definition with_indicators_private (df : DataFrame) (sector : list string) (growth : Series)
  : DataFrame :=
  let contribution := series_map_dict sector private_gdp in
  with_indicators df contribution (NumCol (gdp_impact growth contribution)).

Definition with_indicators_public (df : DataFrame) (growth : Series) : DataFrame :=
  let contribution := map (fun _ => 0.20) (df_index df) in
  with_indicators df contribution (NumCol (gdp_impact growth contribution)).

Lemma num_column_insert_eq (idx : list pykey) (cols : gmap string column)
    (name : string) (v : Series) :
  num_column (mkDF idx (<[name := NumCol v]> cols)) name = Return v.
Proof. apply num_column_Some. simpl. apply lookup_insert_eq. Qed.

Lemma df_getitem_insert_ne (idx : list pykey) (cols : gmap string column)
    (name name' : string) (c : column) :
  name <> name' ->
  df_getitem (mkDF idx (<[name := c]> cols)) name' = df_getitem (mkDF idx cols) name'.
Proof.
  intros H. unfold df_getitem, dict_getitem_str. simpl.
  now rewrite lookup_insert_ne.
Qed.

Lemma gdp_impact_length (growth contribution : Series) :
  length growth = length contribution ->
  length (gdp_impact growth contribution) = length contribution.
Proof.
  intros H. unfold gdp_impact, series_mul, series_div_scalar.
  rewrite length_zip_with, length_map. lia.
Qed.

Lemma series_map_length (c : column) (d : gmap string float) :
  length (series_map c d) = column_length c.
Proof.
  destruct c; simpl; unfold series_map_dict; now rewrite length_map.
Qed.

Lemma gdp_impact_col_length (growth : column) (contribution : Series) (impact : column) :
  gdp_impact_col growth contribution = Return impact ->
  column_length growth = length contribution ->
  column_length impact = length contribution.
Proof.
  destruct growth as [g | g | [| s g]]; simpl; intros [= <-] H; simpl.
  - now apply gdp_impact_length.
  - apply gdp_impact_length. now rewrite length_map.
  - exact H.
Qed.

Lemma calculate_economic_indicators_run (priv pub : DataFrame) (emp : option DataFrame)
    (sector growth growth_pub impact impact_pub : column) :
  frame_ok priv -> frame_ok pub ->
  df_columns priv !! "Sector" = Some sector ->
  df_columns priv !! "Growth_%" = Some growth ->
  df_columns pub !! "Growth_%" = Some growth_pub ->
  gdp_impact_col growth (series_map sector private_gdp) = Return impact ->
  gdp_impact_col growth_pub (map (fun _ => 0.20) (df_index pub)) = Return impact_pub ->
  calculate_economic_indicators (mkPredictor (Some priv) (Some pub) emp)
  = (Return tt,
     mkPredictor (Some (with_indicators priv (series_map sector private_gdp) impact))
                 (Some (with_indicators pub (map (fun _ => 0.20) (df_index pub)) impact_pub))
                 emp).
Proof.
  intros Hpriv Hpub Hs Hg Hgp Hi Hip.
  pose proof (Hpriv _ _ Hs) as Ls. pose proof (Hpriv _ _ Hg) as Lg.
  pose proof (Hpub _ _ Hgp) as Lgp.
  assert (Li : column_length impact = length (df_index priv)).
  { rewrite <- Ls, <- (series_map_length sector private_gdp).
    apply (gdp_impact_col_length growth); [exact Hi |].
    rewrite series_map_length. congruence. }
  assert (Lip : column_length impact_pub = length (df_index pub)).
  { rewrite <- (length_map (fun _ => 0.20) (df_index pub)).
    apply (gdp_impact_col_length growth_pub); [exact Hip |].
    rewrite length_map. exact Lgp. }
  unfold calculate_economic_indicators.
  unfold mbind, meth_bind, frame, Obj.pure, set_private, set_public, setattr. simpl.
  rewrite (df_getitem_Some _ _ _ Hs).
  rewrite df_setitem_ok by (simpl; rewrite series_map_length; exact Ls).
  rewrite df_getitem_insert_ne by done.
  destruct priv as [idx cols]. simpl in *.
  rewrite (df_getitem_Some (mkDF idx cols) _ _ Hg).
  rewrite num_column_insert_eq, Hi.
  rewrite df_setitem_ok by exact Li.
  unfold df_setitem_scalar. destruct pub as [idxp colsp]. simpl in *.
  rewrite df_getitem_insert_ne by done.
  rewrite (df_getitem_Some (mkDF idxp colsp) _ _ Hgp).
  rewrite num_column_insert_eq, Hip.
  rewrite df_setitem_ok by exact Lip.
  reflexivity.
Qed.

(** The forecast [predict_gdp_growth] returns, from the base GDP and the
    two weighted growths. *)
Definition forecast_of (base_gdp private_growth public_growth : float) : growth_forecast :=
  let total_growth := (private_growth * 0.8 + public_growth * 0.2) * 100 in
  {| base_gdp_billion := base_gdp;
     predicted_growth_rate := total_growth;
     gdp_2024 := base_gdp * (1 + total_growth / 100) |}.

Lemma predict_gdp_growth_run (priv pub : DataFrame) (emp : option DataFrame)
    (e_priv i_priv e_pub i_pub : column) (base_gdp private_growth public_growth : float) :
  df_columns priv !! "Employment_2024" = Some e_priv ->
  df_columns priv !! "GDP_Impact" = Some i_priv ->
  df_columns pub !! "Employment_2023" = Some e_pub ->
  df_columns pub !! "GDP_Impact" = Some i_pub ->
  base_gdp_of (col_sum e_priv) (col_sum e_pub) = Return base_gdp ->
  weighted_growth i_priv e_priv (col_sum e_priv) = Return private_growth ->
  weighted_growth i_pub e_pub (col_sum e_pub) = Return public_growth ->
  predict_gdp_growth (mkPredictor (Some priv) (Some pub) emp)
  = (Return (forecast_of base_gdp private_growth public_growth),
     mkPredictor (Some priv) (Some pub) emp).
Proof.
  intros H1 H2 H3 H4 Hb Hp Hq. unfold predict_gdp_growth.
  unfold mbind, meth_bind, frame, Obj.pure. simpl.
  rewrite !(df_getitem_Some _ _ _ H1), !(df_getitem_Some _ _ _ H3).
  rewrite (df_getitem_Some _ _ _ H2), (df_getitem_Some _ _ _ H4).
  rewrite Hb, Hp, Hq. reflexivity.
Qed.

Lemma insert_twice_again {V} (m : gmap string V) (k1 k2 : string) (v1 v2 : V) :
  <[k2 := v2]> (<[k1 := v1]> (<[k2 := v2]> (<[k1 := v1]> m)))
  = <[k2 := v2]> (<[k1 := v1]> m).
Proof.
  apply map_eq. intros k. rewrite !lookup_insert.
  repeat case_decide; congruence.
Qed.

Lemma frame_ok_insert (df : DataFrame) (name : string) (c : column) :
  frame_ok df -> column_length c = length (df_index df) ->
  frame_ok (mkDF (df_index df) (<[name := c]> (df_columns df))).
Proof.
  intros Hok Hc name' col. simpl.
  destruct (decide (name = name')) as [-> | Hne].
  - rewrite lookup_insert_eq. intros [= <-]. exact Hc.
  - rewrite lookup_insert_ne by exact Hne. apply Hok.
Qed.

Lemma with_indicators_ok (df : DataFrame) (contribution : Series) (impact : column) :
  frame_ok df -> length contribution = length (df_index df) ->
  column_length impact = length (df_index df) ->
  frame_ok (with_indicators df contribution impact).
Proof.
  intros Hok Lc Li. unfold with_indicators.
  apply (frame_ok_insert (mkDF (df_index df) _)); [apply frame_ok_insert; [exact Hok |] |].
  - exact Lc.
  - exact Li.
Qed.

(** Invoking [calculate_economic_indicators] a second time changes
    nothing: the columns it stores are computed from columns it does not
    touch. *)
Theorem calculate_economic_indicators_idempotent (priv pub : DataFrame)
    (emp : option DataFrame) (sector : list string) (growth growth_pub : Series) :
  frame_ok priv -> frame_ok pub ->
  df_columns priv !! "Sector" = Some (StrCol sector) ->
  df_columns priv !! "Growth_%" = Some (NumCol growth) ->
  df_columns pub !! "Growth_%" = Some (NumCol growth_pub) ->
  let once := after calculate_economic_indicators (mkPredictor (Some priv) (Some pub) emp) in
  calculate_economic_indicators once = (Return tt, once).
Proof.
  intros Hpriv Hpub Hs Hg Hgp once.
  pose proof (Hpriv _ _ Hs) as Ls. pose proof (Hpriv _ _ Hg) as Lg.
  pose proof (Hpub _ _ Hgp) as Lgp. simpl in Ls, Lg, Lgp.
  unfold once, after.
  set (impact := NumCol (gdp_impact growth (series_map_dict sector private_gdp))).
  set (impact_pub := NumCol (gdp_impact growth_pub (map (fun _ => 0.20) (df_index pub)))).
  rewrite (calculate_economic_indicators_run priv pub emp (StrCol sector) (NumCol growth)
             (NumCol growth_pub) impact impact_pub Hpriv Hpub Hs Hg Hgp eq_refl eq_refl).
  cbn [snd].
  rewrite (calculate_economic_indicators_run _ _ emp (StrCol sector) (NumCol growth)
             (NumCol growth_pub) impact impact_pub).
  - f_equal. unfold with_indicators. cbn [df_index df_columns series_map].
    now rewrite !insert_twice_again.
  - apply with_indicators_ok; [exact Hpriv | |].
    + simpl. unfold series_map_dict. now rewrite length_map.
    + simpl. rewrite gdp_impact_length; unfold series_map_dict; rewrite length_map; congruence.
  - apply with_indicators_ok; [exact Hpub | |].
    + now rewrite length_map.
    + simpl. rewrite gdp_impact_length; rewrite length_map; congruence.
  - simpl. now rewrite !lookup_insert_ne by done.
  - simpl. now rewrite !lookup_insert_ne by done.
  - simpl. now rewrite !lookup_insert_ne by done.
  - reflexivity.
  - reflexivity.
Qed.

Lemma frame_ok_check (df : DataFrame) :
  forallb (fun kc : string * column =>
             (column_length kc.2 =? length (df_index df))%nat)
          (map_to_list (df_columns df)) = true ->
  frame_ok df.
Proof.
  intros H name col Hcol. rewrite forallb_forall in H.
  apply elem_of_map_to_list, list_elem_of_In in Hcol.
  apply H in Hcol. now apply Nat.eqb_eq in Hcol.
Qed.

Lemma parsed_check (df : DataFrame) :
  df_index df <> [] ->
  forallb (fun kc : string * column =>
             (column_length kc.2 =? length (df_index df))%nat)
          (map_to_list (df_columns df)) = true ->
  parsed df.
Proof.
  intros Hne H. split; [now apply frame_ok_check | congruence].
Qed.

(** The two frames of [example_files]. *)
Definition example_private : DataFrame :=
  mkDF (map KInt (range 0 2))
       (dict_of [ ("Sector", StrCol ["Finance"; "ICT"]);
                  ("Growth_%", NumCol [10; 5]);
                  ("Employment_2024", IntCol [1000; 2000]%Z) ]).

Definition example_public : DataFrame :=
  mkDF (map KInt (range 0 1))
       (dict_of [ ("Sector", StrCol ["Government"]);
                  ("Growth_%", NumCol [2]);
                  ("Employment_2023", IntCol [1500]%Z) ]).

Lemma calculate_economic_indicators_idempotent_example :
  let once := after calculate_economic_indicators
                    (mkPredictor (Some example_private) (Some example_public) None) in
  calculate_economic_indicators once = (Return tt, once).
Proof.
  apply (calculate_economic_indicators_idempotent example_private example_public None
           ["Finance"; "ICT"] [10; 5] [2]);
    try (apply frame_ok_check; vm_compute; reflexivity);
    vm_compute; reflexivity.
Defined.

End PredictorMethods.

Section Forecasts.

Import Predictor Sector Formula.
Local Open Scope float_scope.

Lemma wrap64_small (z : Z) : (- 2 ^ 63 <= z < 2 ^ 63)%Z -> wrap64 z = z.
Proof.
  intros H. unfold wrap64. rewrite Z.mod_small; lia.
Qed.



















(** [calculate_economic_indicators] followed by [predict_gdp_growth], on
    frames as [read_csv] gives them whose growth and employment columns
    are float64: the forecast weighs each private sector by the share
    [private_gdp] gives its name (NaN for a name that is no key) and each
    public sector by 0.20. *)
Theorem indicators_then_forecast (priv pub : DataFrame) (emp : option DataFrame)
    (sector : list string) (growth employment growth_pub employment_pub : Series) :
  parsed priv -> parsed pub ->
  df_columns priv !! "Sector" = Some (StrCol sector) ->
  df_columns priv !! "Growth_%" = Some (NumCol growth) ->
  df_columns priv !! "Employment_2024" = Some (NumCol employment) ->
  df_columns pub !! "Growth_%" = Some (NumCol growth_pub) ->
  df_columns pub !! "Employment_2023" = Some (NumCol employment_pub) ->
  result (_ ← calculate_economic_indicators; predict_gdp_growth)
         (mkPredictor (Some priv) (Some pub) emp)
  = Return (forecast_of
              ((nansum employment * 85000 + nansum employment_pub * 75000) / 1e6)
              (nansum (series_mul (gdp_impact growth (series_map_dict sector private_gdp))
                                  employment)
               / nansum employment)
              (nansum (series_mul (gdp_impact growth_pub (map (fun _ => 0.20) (df_index pub)))
                                  employment_pub)
               / nansum employment_pub)).
Proof.
  intros [Hpriv _] [Hpub _] Hs Hg He Hgp Hep.
  unfold result, mbind at 1, meth_bind.
  rewrite (calculate_economic_indicators_run priv pub emp (StrCol sector) (NumCol growth)
             (NumCol growth_pub) _ _ Hpriv Hpub Hs Hg Hgp eq_refl eq_refl).
  erewrite predict_gdp_growth_run; [reflexivity | | | | | | |]; simpl.
  - rewrite !lookup_insert_ne by done. exact He.
  - apply lookup_insert_eq.
  - rewrite !lookup_insert_ne by done. exact Hep.
  - apply lookup_insert_eq.
  - reflexivity.
  - reflexivity.
  - reflexivity.
Qed.

(** Two frames with employment in full-time equivalents. *)
Definition surveyed_private : DataFrame :=
  mkDF (map KInt (range 0 2))
       (dict_of [ ("Sector", StrCol ["Finance"; "Mining"]);
                  ("Growth_%", NumCol [10; 5]);
                  ("Employment_2024", NumCol [1000.5; 2000]) ]).

Definition surveyed_public : DataFrame :=
  mkDF (map KInt (range 0 1))
       (dict_of [ ("Sector", StrCol ["Government"]);
                  ("Growth_%", NumCol [2]);
                  ("Employment_2023", NumCol [1500.25]) ]).

Lemma indicators_then_forecast_example :
  result (_ ← calculate_economic_indicators; predict_gdp_growth)
         (mkPredictor (Some surveyed_private) (Some surveyed_public) None)
  = Return (forecast_of
              ((nansum [1000.5; 2000] * 85000 + nansum [1500.25] * 75000) / 1e6)
              (nansum (series_mul (gdp_impact [10; 5]
                                     (series_map_dict ["Finance"; "Mining"] private_gdp))
                                  [1000.5; 2000])
               / nansum [1000.5; 2000])
              (nansum (series_mul (gdp_impact [2] (map (fun _ => 0.20)
                                                       (df_index surveyed_public)))
                                  [1500.25])
               / nansum [1500.25])).
Proof.
  apply (indicators_then_forecast surveyed_private surveyed_public None
           ["Finance"; "Mining"] [10; 5] [1000.5; 2000] [2] [1500.25]);
    try (apply parsed_check; [discriminate | vm_compute; reflexivity]);
    reflexivity.
Defined.

(** The same on int64 employment columns, as whole head counts are read:
    the totals and their products with 85000 and 75000 are int64 and wrap
    around; the head counts enter the weighted sums as float64. *)
Theorem indicators_then_forecast_int64 (priv pub : DataFrame) (emp : option DataFrame)
    (sector : list string) (growth growth_pub : Series) (employment employment_pub : list Z) :
  parsed priv -> parsed pub ->
  df_columns priv !! "Sector" = Some (StrCol sector) ->
  df_columns priv !! "Growth_%" = Some (NumCol growth) ->
  df_columns priv !! "Employment_2024" = Some (IntCol employment) ->
  df_columns pub !! "Growth_%" = Some (NumCol growth_pub) ->
  df_columns pub !! "Employment_2023" = Some (IntCol employment_pub) ->
  let total := int64_sum employment in
  let total_pub := int64_sum employment_pub in
  result (_ ← calculate_economic_indicators; predict_gdp_growth)
         (mkPredictor (Some priv) (Some pub) emp)
  = Return (forecast_of
              (of_int64 (wrap64 (wrap64 (total * 85000) + wrap64 (total_pub * 75000))) / 1e6)
              (nansum (series_mul (gdp_impact growth (series_map_dict sector private_gdp))
                                  (map of_int64 employment))
               / of_int64 total)
              (nansum (series_mul (gdp_impact growth_pub (map (fun _ => 0.20) (df_index pub)))
                                  (map of_int64 employment_pub))
               / of_int64 total_pub))
  /\ ((- 2 ^ 63 <= fold_right Z.add 0 employment * 85000
                   + fold_right Z.add 0 employment_pub * 75000 < 2 ^ 63)%Z ->
      (0 <= fold_right Z.add 0 employment)%Z ->
      (0 <= fold_right Z.add 0 employment_pub)%Z ->
      wrap64 (wrap64 (total * 85000) + wrap64 (total_pub * 75000))
      = (fold_right Z.add 0 employment * 85000
         + fold_right Z.add 0 employment_pub * 75000)%Z).
Proof.
  intros [Hpriv _] [Hpub _] Hs Hg He Hgp Hep total total_pub. split.
  - unfold result, mbind at 1, meth_bind.
    rewrite (calculate_economic_indicators_run priv pub emp (StrCol sector) (NumCol growth)
               (NumCol growth_pub) _ _ Hpriv Hpub Hs Hg Hgp eq_refl eq_refl).
    erewrite predict_gdp_growth_run; [reflexivity | | | | | | |]; simpl.
    + rewrite !lookup_insert_ne by done. exact He.
    + apply lookup_insert_eq.
    + rewrite !lookup_insert_ne by done. exact Hep.
    + apply lookup_insert_eq.
    + reflexivity.
    + reflexivity.
    + reflexivity.
  - intros Hfit H0 H0p. unfold total, total_pub, int64_sum.
    rewrite (wrap64_small (fold_right Z.add 0%Z employment)) by lia.
    rewrite (wrap64_small (fold_right Z.add 0%Z employment_pub)) by lia.
    rewrite (wrap64_small (fold_right Z.add 0%Z employment * 85000)) by lia.
    rewrite (wrap64_small (fold_right Z.add 0%Z employment_pub * 75000)) by lia.
    now apply wrap64_small.
Qed.

Lemma indicators_then_forecast_int64_example :
  let total := int64_sum [1000; 2000]%Z in
  let total_pub := int64_sum [1500]%Z in
  result (_ ← calculate_economic_indicators; predict_gdp_growth)
         (mkPredictor (Some example_private) (Some example_public) None)
  = Return (forecast_of
              (of_int64 (wrap64 (wrap64 (total * 85000) + wrap64 (total_pub * 75000))) / 1e6)
              (nansum (series_mul (gdp_impact [10; 5]
                                     (series_map_dict ["Finance"; "ICT"] private_gdp))
                                  (map of_int64 [1000; 2000]%Z))
               / of_int64 total)
              (nansum (series_mul (gdp_impact [2] (map (fun _ => 0.20)
                                                       (df_index example_public)))
                                  (map of_int64 [1500]%Z))
               / of_int64 total_pub))
  /\ ((- 2 ^ 63 <= fold_right Z.add 0 [1000; 2000] * 85000
                   + fold_right Z.add 0 [1500] * 75000 < 2 ^ 63)%Z ->
      (0 <= fold_right Z.add 0 [1000; 2000])%Z ->
      (0 <= fold_right Z.add 0 [1500])%Z ->
      wrap64 (wrap64 (total * 85000) + wrap64 (total_pub * 75000))
      = (fold_right Z.add 0 [1000; 2000] * 85000 + fold_right Z.add 0 [1500] * 75000)%Z).
Proof.
  apply (indicators_then_forecast_int64 example_private example_public None
           ["Finance"; "ICT"] [10; 5] [2] [1000; 2000]%Z [1500]%Z);
    try (apply parsed_check; [discriminate | vm_compute; reflexivity]);
    reflexivity.
Defined.

(** A column a reduction or a division accepts: numbers, or the empty
    object column. *)
Definition summable (c : column) : Prop :=
  match c with
  | StrCol (_ :: _) => False
  | _ => True
  end.














(** A private file with a header and no rows: [read_csv] gives empty
    object columns, [calculate_economic_indicators] runs, and
    [predict_gdp_growth] raises ZeroDivisionError, because the two sums
    of its first quotient are Python's 0. *)
Theorem header_only_private_file (priv pub : DataFrame) (emp : option DataFrame)
    (growth_pub employment_pub : column) :
  parsed priv -> df_index priv = [] ->
  is_Some (df_columns priv !! "Sector") ->
  is_Some (df_columns priv !! "Growth_%") ->
  is_Some (df_columns priv !! "Employment_2024") ->
  frame_ok pub ->
  df_columns pub !! "Growth_%" = Some growth_pub ->
  df_columns pub !! "Employment_2023" = Some employment_pub ->
  summable growth_pub -> summable employment_pub ->
  let self := mkPredictor (Some priv) (Some pub) emp in
  result calculate_economic_indicators self = Return tt
  /\ result predict_gdp_growth (after calculate_economic_indicators self)
     = Raise ZeroDivisionError.
Proof.
  intros [Hpriv Hempty] Hidx [s Hs] [g Hg] [e He] Hpub Hgp Hep Sg Se self.
  pose proof (Hempty Hidx _ _ Hs) as ->.
  pose proof (Hempty Hidx _ _ Hg) as ->.
  pose proof (Hempty Hidx _ _ He) as ->.
  assert (Hip : exists impact_pub,
             gdp_impact_col growth_pub (map (fun _ => 0.20) (df_index pub))
             = Return impact_pub /\ summable impact_pub).
  { destruct growth_pub as [x | x | [| a x]]; simpl in *; try contradiction;
      eexists; (split; [reflexivity | exact I]). }
  destruct Hip as (impact_pub & Hip & Si).
  pose proof (calculate_economic_indicators_run priv pub emp (StrCol []) (StrCol [])
                growth_pub (StrCol []) impact_pub Hpriv Hpub Hs Hg Hgp eq_refl Hip) as Hrun.
  unfold result, after, self. rewrite Hrun. cbn [fst snd]. split; [reflexivity |].
  unfold predict_gdp_growth, mbind, meth_bind, frame, Obj.pure. cbn [private_data public_data].
  rewrite (df_getitem_Some _ "Employment_2024" (StrCol [])).
  2:{ simpl. rewrite !lookup_insert_ne by done. exact He. }
  rewrite (df_getitem_Some _ "Employment_2023" employment_pub).
  2:{ simpl. rewrite !lookup_insert_ne by done. exact Hep. }
  rewrite (df_getitem_Some _ "GDP_Impact" (StrCol [])) by (simpl; apply lookup_insert_eq).
  destruct employment_pub as [x | x | [| a x]]; simpl in Se; try contradiction; reflexivity.
Qed.

(** The frame of a file with a header and no rows. *)
Definition header_only (names : list string) : DataFrame :=
  mkDF [] (dict_of (map (fun name => (name, StrCol [])) names)).

Lemma header_only_private_file_example :
  let self := mkPredictor (Some (header_only ["Sector"; "Growth_%"; "Employment_2024"]))
                          (Some example_public) None in
  result calculate_economic_indicators self = Return tt
  /\ result predict_gdp_growth (after calculate_economic_indicators self)
     = Raise ZeroDivisionError.
Proof.
  apply (header_only_private_file (header_only ["Sector"; "Growth_%"; "Employment_2024"])
           example_public None (NumCol [2]) (IntCol [1500]%Z)).
  - split; [apply frame_ok_check; vm_compute; reflexivity |].
    intros _ name col H.
    apply elem_of_map_to_list in H. vm_compute in H.
    repeat (apply elem_of_cons in H as [[= _ <-] | H]; [reflexivity |]).
    inversion H.
  - reflexivity.
  - eexists. reflexivity.
  - eexists. reflexivity.
  - eexists. reflexivity.
  - apply frame_ok_check. vm_compute. reflexivity.
  - reflexivity.
  - reflexivity.
  - exact I.
  - exact I.
Defined.

End Forecasts.

Section PredictorState.

Import Predictor.
Local Open Scope float_scope.

(** [load_data] reads the three files in turn; a missing file ends it
    with FileNotFoundError, and the frames read before it stay in the
    predictor. *)
Theorem load_data_outcomes (files : gmap string DataFrame) (self : Predictor.Predictor) :
  let private_csv := "south_africa_private_sector_growth.csv" in
  let public_csv := "south_africa_public_sector_growth.csv" in
  let employment_csv := "employment_growth_predictions.csv" in
  match files !! private_csv, files !! public_csv, files !! employment_csv with
  | Some priv, Some pub, Some emp =>
      load_data files self = (Return tt, mkPredictor (Some priv) (Some pub) (Some emp))
  | Some priv, Some pub, None =>
      load_data files self
      = (Raise (FileNotFoundError employment_csv),
         mkPredictor (Some priv) (Some pub) (employment_predictions self))
  | Some priv, None, _ =>
      load_data files self
      = (Raise (FileNotFoundError public_csv),
         mkPredictor (Some priv) (public_data self) (employment_predictions self))
  | None, _, _ =>
      load_data files self = (Raise (FileNotFoundError private_csv), self)
  end.
Proof.
  intros private_csv public_csv employment_csv.
  unfold load_data, read_csv, mbind, meth_bind, Obj.pure, setattr.
  fold private_csv public_csv employment_csv.
  destruct (files !! private_csv) as [priv |]; [| reflexivity].
  destruct (files !! public_csv) as [pub |]; [| reflexivity].
  destruct (files !! employment_csv) as [emp |]; reflexivity.
Qed.

(** [predict_gdp_growth] only reads: whatever it returns or raises, the
    predictor is as it was. *)
Theorem predict_gdp_growth_reads_only (self : Predictor.Predictor) :
  after predict_gdp_growth self = self.
Proof.
  destruct self as [[priv |] [pub |] emp]; unfold after, predict_gdp_growth;
    unfold mbind, meth_bind, frame, Obj.pure; simpl; try reflexivity.
  - repeat (match goal with
            | |- context [df_getitem ?df ?name] => destruct (df_getitem df name)
            | |- context [base_gdp_of ?a ?b] => destruct (base_gdp_of a b)
            | |- context [weighted_growth ?i ?e ?t] => destruct (weighted_growth i e t)
            end; simpl; try reflexivity).
  - destruct (df_getitem priv "Employment_2024"); reflexivity.
Qed.

(** While the private frame is [None] (before [load_data]) both methods
    raise TypeError and change nothing. *)
Theorem methods_before_load_data (self : Predictor.Predictor) :
  private_data self = None ->
  calculate_economic_indicators self = (Raise TypeError, self)
  /\ predict_gdp_growth self = (Raise TypeError, self).
Proof.
  destruct self as [priv pub emp]. simpl. intros ->. split; reflexivity.
Qed.

Lemma methods_before_load_data_init :
  calculate_economic_indicators Predictor.init = (Raise TypeError, Predictor.init)
  /\ predict_gdp_growth Predictor.init = (Raise TypeError, Predictor.init).
Proof.
  apply (methods_before_load_data Predictor.init). reflexivity.
Defined.





End PredictorState.

Section DashboardTable.

Import Dashboard.
Local Open Scope float_scope.

(** The dashboard's table needs four countries: with any other number
    the frame cannot be built and the method raises ValueError; with
    four it returns a table of four rows whose Country column is the
    attribute. *)
Theorem dashboard_needs_four_countries (self : Dashboard.Dashboard) :
  (length (Dashboard.countries self) = 4%nat ->
   exists df, result create_comprehensive_dashboard self = Return df
              /\ str_column df "Country" = Return (Dashboard.countries self)
              /\ length (df_index df) = 4%nat
              /\ (exists v, num_column df "Economic_Power_Index" = Return v
                            /\ length v = 4%nat))
  /\ (length (Dashboard.countries self) <> 4%nat ->
      result create_comprehensive_dashboard self = Raise ValueError).
Proof.
  destruct self as [c]. simpl. split.
  - intros Hc.
    destruct c as [| c1 [| c2 [| c3 [| c4 [| c5 c]]]]]; try discriminate.
    eexists. split; [vm_compute; reflexivity |].
    split; [vm_compute; reflexivity |]. split; [reflexivity |].
    eexists. split; [vm_compute; reflexivity | reflexivity].
  - intros Hc. unfold result, create_comprehensive_dashboard.
    unfold mbind at 1, meth_bind, getattr, Obj.pure. simpl.
    unfold DataFrame_of_dict, economic_data. simpl.
    rewrite Nat.eqb_refl. simpl.
    destruct (length c) as [| [| [| [| [| n]]]]] eqn:E; try reflexivity.
    congruence.
Qed.

End DashboardTable.

Section RowsAndMissingKeys.

Lemma np_take_lookup {A} (l : list A) (idx : list nat) (a i : nat) :
  Forall (fun k => k < length l) idx ->
  idx !! a = Some i ->
  np_take l idx !! a = l !! i.
Proof.
  intros Hb. revert a. unfold np_take.
  induction Hb as [| k idx Hk _ IH]; intros a Ha; [discriminate |].
  destruct (lookup_lt_is_Some_2 l k Hk) as [x Hx].
  simpl. rewrite Hx. destruct a as [| a]; simpl in *.
  - now inversion Ha; subst.
  - now apply IH.
Qed.

Lemma np_take_length {A} (l : list A) (idx : list nat) :
  Forall (fun k => k < length l) idx -> length (np_take l idx) = length idx.
Proof.
  unfold np_take. induction 1 as [| k idx Hk _ IH]; [reflexivity |].
  destruct (lookup_lt_is_Some_2 l k Hk) as [x Hx].
  simpl. rewrite Hx. simpl. f_equal. exact IH.
Qed.

(** The entry of a column at a row. *)
Definition cell_at (c : column) (i : nat) : option (float + Z + string) :=
  match c with
  | NumCol v => (fun x => inl (inl x)) <$> v !! i
  | IntCol v => (fun z => inl (inr z)) <$> v !! i
  | StrCol v => inr <$> v !! i
  end.

(** [df.take] moves whole rows: the label and the entry of every column
    at the place [a] of the result are those of the row [idx[a]]. *)
Theorem df_take_moves_rows (df : DataFrame) (idx : list nat) (a i : nat) :
  frame_ok df ->
  Forall (fun k => k < length (df_index df)) idx ->
  idx !! a = Some i ->
  df_index (df_take df idx) !! a = df_index df !! i
  /\ length (df_index (df_take df idx)) = length idx
  /\ (forall name col,
         df_columns df !! name = Some col ->
         exists col', df_columns (df_take df idx) !! name = Some col'
                      /\ cell_at col' a = cell_at col i
                      /\ column_length col' = length idx)
  /\ (forall name, df_columns df !! name = None ->
                   df_columns (df_take df idx) !! name = None).
Proof.
  intros Hok Hb Ha. unfold df_take. simpl. split; [now apply np_take_lookup |].
  split; [now apply np_take_length |]. split.
  - intros name col Hcol. exists (column_take col idx).
    rewrite lookup_fmap, Hcol. split; [reflexivity |].
    pose proof (Hok name col Hcol) as Hlen.
    destruct col as [v | v | v]; simpl in *; rewrite <- Hlen in Hb;
      (split; [now rewrite (np_take_lookup v idx a i) | now apply np_take_length]).
  - intros name Hnone. now rewrite lookup_fmap, Hnone.
Qed.

Lemma df_take_moves_rows_example :
  df_index (df_take records [1; 2; 0]) !! 0 = df_index records !! 1
  /\ length (df_index (df_take records [1; 2; 0])) = length [1; 2; 0]
  /\ (forall name col,
         df_columns records !! name = Some col ->
         exists col', df_columns (df_take records [1; 2; 0]) !! name = Some col'
                      /\ cell_at col' 0 = cell_at col 1
                      /\ column_length col' = length [1; 2; 0])
  /\ (forall name, df_columns records !! name = None ->
                   df_columns (df_take records [1; 2; 0]) !! name = None).
Proof.
  apply (df_take_moves_rows records [1; 2; 0] 0 1).
  - apply frame_ok_check. vm_compute. reflexivity.
  - repeat constructor.
  - reflexivity.
Defined.


(** The positions of the entries that satisfy [f], from [start] on. *)
Definition positions_from (f : float -> bool) (items : list float) (start : nat) : list nat :=
  omap (fun im : nat * bool => if im.2 then Some im.1 else None)
       (zip (seq start (length (map f items))) (map f items)).

Lemma mask_positions_map (f : float -> bool) (items : list float) :
  mask_positions (map f items) = positions_from f items 0.
Proof. reflexivity. Qed.

Lemma positions_from_cons (f : float -> bool) (x : float) (items : list float) (start : nat) :
  positions_from f (x :: items) start
  = if f x then start :: positions_from f items (S start)
    else positions_from f items (S start).
Proof.
  unfold positions_from. simpl. now destruct (f x).
Qed.

Lemma positions_from_spec (f : float -> bool) (items : list float) (start : nat) :
  Forall (fun k => start <= k < start + length items
                   /\ f (key_at items (k - start)) = true)
         (positions_from f items start).
Proof.
  revert start. induction items as [| x items IH]; intros start.
  - constructor.
  - rewrite positions_from_cons.
    assert (Hrest : Forall (fun k => start <= k < start + length (x :: items)
                                     /\ f (key_at (x :: items) (k - start)) = true)
                           (positions_from f items (S start))).
    { eapply Forall_impl; [apply (IH (S start)) |]. simpl.
      intros k [Hk Hf]. split; [lia |].
      replace (k - start) with (S (k - S start)) by lia. exact Hf. }
    destruct (f x) eqn:E; [| exact Hrest].
    constructor; [| exact Hrest]. simpl. split; [lia |].
    now rewrite Nat.sub_diag.
Qed.

Lemma positions_from_increasing (f : float -> bool) (items : list float) (start : nat) :
  StronglySorted lt (positions_from f items start).
Proof.
  revert start. induction items as [| x items IH]; intros start.
  - constructor.
  - rewrite positions_from_cons. destruct (f x); [| apply IH].
    constructor; [apply IH |].
    eapply Forall_impl; [apply (positions_from_spec f items (S start)) |].
    simpl. intros k [Hk _]. lia.
Qed.

Lemma positions_from_partition (f : float -> bool) (items : list float) (start : nat) :
  Permutation (positions_from (fun x => negb (f x)) items start ++ positions_from f items start)
              (seq start (length items)).
Proof.
  revert start. induction items as [| x items IH]; intros start; [reflexivity |].
  rewrite !positions_from_cons. simpl seq. destruct (f x); simpl.
  - rewrite <- Permutation_middle. constructor. apply IH.
  - constructor. apply IH.
Qed.

Lemma np_take_perm {A} (l : list A) (p : list nat) :
  Permutation p (seq 0 (length l)) -> Permutation (np_take l p) l.
Proof.
  intros Hp. unfold np_take. rewrite Hp. fold (np_take l (seq 0 (length l))).
  now rewrite np_take_all.
Qed.

(** pandas keeps the rows whose key is NaN out of the sort and puts them
    last, in their original order, whether the sort is ascending or
    descending; the other rows come first and every row comes once. *)
Theorem ranking_puts_nan_last (argsort : list float -> list nat) (keys : list float)
    (ascending : bool) :
  sorts argsort ->
  let missing := mask_positions (map is_nan keys) in
  Permutation (nargsort argsort keys ascending) (seq 0 (length keys))
  /\ (exists front,
         nargsort argsort keys ascending = front ++ missing
         /\ Forall (fun i => i < length keys /\ is_nan (key_at keys i) = false) front
         /\ Forall (fun i => i < length keys /\ is_nan (key_at keys i) = true) missing
         /\ StronglySorted lt missing).
Proof.
  intros Hsorts missing. unfold nargsort. fold missing.
  rewrite (map_map is_nan negb).
  rewrite (mask_positions_map (fun x => negb (is_nan x)) keys).
  set (present := positions_from (fun x => negb (is_nan x)) keys 0).
  assert (Hpresent : Forall (fun i => i < length keys /\ is_nan (key_at keys i) = false)
                            present).
  { eapply Forall_impl; [apply positions_from_spec |]. simpl.
    intros k [Hk Hf]. rewrite Nat.sub_0_r in Hf. split; [lia |].
    now apply negb_true_iff in Hf. }
  assert (Hmissing : Forall (fun i => i < length keys /\ is_nan (key_at keys i) = true)
                            missing).
  { unfold missing. rewrite mask_positions_map.
    eapply Forall_impl; [apply positions_from_spec |]. simpl.
    intros k [Hk Hf]. rewrite Nat.sub_0_r in Hf. split; [lia | exact Hf]. }
  assert (Hbound : Forall (fun k => k < length keys) present).
  { eapply Forall_impl; [exact Hpresent |]. now intros k [Hk _]. }
  set (values := np_take keys present).
  assert (Hlen : length values = length present) by now apply np_take_length.
  assert (Hvalues : no_nan values).
  { unfold no_nan, values, np_take. apply Forall_forall. intros x Hx.
    apply list_elem_of_omap in Hx as (k & Hk & Hkx).
    rewrite Forall_forall in Hpresent. destruct (Hpresent k Hk) as [_ Hn].
    unfold key_at in Hn. now rewrite Hkx in Hn. }
  set (values' := if ascending then values else rev values).
  set (present' := if ascending then present else rev present).
  assert (Hvalues' : no_nan values').
  { unfold values'. destruct ascending; [exact Hvalues |].
    unfold no_nan in *. rewrite Forall_forall in *. intros x Hx. apply Hvalues.
    now apply list_elem_of_In, in_rev, list_elem_of_In. }
  assert (Hlen' : length values' = length present').
  { unfold values', present'. destruct ascending; [exact Hlen |].
    now rewrite !length_rev. }
  destruct (Hsorts values' Hvalues') as [Hperm _]. rewrite Hlen' in Hperm.
  assert (Hfront : Permutation
                     (if ascending then np_take present' (argsort values')
                      else rev (np_take present' (argsort values')))
                     present).
  { transitivity (np_take present' (argsort values')).
    - destruct ascending; [reflexivity | symmetry; apply Permutation_rev].
    - rewrite (np_take_perm present' _ Hperm). unfold present'.
      destruct ascending; [reflexivity | symmetry; apply Permutation_rev]. }
  split.
  - rewrite Hfront. unfold missing. rewrite mask_positions_map.
    apply (positions_from_partition is_nan keys 0).
  - eexists. split; [reflexivity |]. split; [| split].
    + eapply Permutation_Forall; [symmetry; exact Hfront | exact Hpresent].
    + exact Hmissing.
    + unfold missing. rewrite mask_positions_map. apply positions_from_increasing.
Qed.

Lemma ranking_puts_nan_last_example :
  let missing := mask_positions (map is_nan [10; nan; 30; nan; 5]%float) in
  Permutation (nargsort insertion_argsort [10; nan; 30; nan; 5]%float false) (seq 0 5)
  /\ (exists front,
         nargsort insertion_argsort [10; nan; 30; nan; 5]%float false = front ++ missing
         /\ Forall (fun i => i < 5 /\ is_nan (key_at [10; nan; 30; nan; 5]%float i) = false)
                   front
         /\ Forall (fun i => i < 5 /\ is_nan (key_at [10; nan; 30; nan; 5]%float i) = true)
                   missing
         /\ StronglySorted lt missing).
Proof.
  apply (ranking_puts_nan_last insertion_argsort [10; nan; 30; nan; 5]%float false).
  exact insertion_argsort_sorts.
Defined.

End RowsAndMissingKeys.

Section MissingValues.

Local Open Scope float_scope.

Lemma neg_infinity_leb (a : float) : is_nan a = false -> (neg_infinity <=? a) = true.
Proof.
  intros Ha. apply not_nan_spec in Ha.
  rewrite FloatAxioms.leb_spec. change (Prim2SF neg_infinity) with (S754_infinity true).
  destruct (Prim2SF a) as [s | s | | s m e]; try congruence; try reflexivity.
  destruct s; reflexivity.
Qed.

Lemma leb_neg_infinity (y : float) : (y <=? neg_infinity) = true -> y = neg_infinity.
Proof.
  rewrite FloatAxioms.leb_spec. change (Prim2SF neg_infinity) with (S754_infinity true).
  intros H. apply Prim2SF_inj. change (Prim2SF neg_infinity) with (S754_infinity true).
  destruct (Prim2SF y) as [s | s | | s m e]; try discriminate.
  destruct s; [reflexivity | discriminate].
Qed.

Lemma np_maximum_not_nan (a b : float) :
  is_nan a = false -> is_nan b = false -> is_nan (np_maximum a b) = false.
Proof.
  intros Ha Hb. unfold np_maximum. now destruct ((b <=? a) || is_nan a).
Qed.

Definition present (s : Series) : Series := filter (fun v => negb (is_nan v)) s.

Lemma present_cons (x : float) (s : Series) :
  present (x :: s) = if is_nan x then present s else x :: present s.
Proof.
  unfold present. rewrite filter_cons. now destruct (is_nan x).
Qed.

(** The running maximum over the filled entries is the running maximum
    over the entries that are present. *)
Lemma fold_np_maximum_fillna (s : Series) (acc : float) :
  is_nan acc = false ->
  fold_left np_maximum (fillna neg_infinity s) acc = fold_left np_maximum (present s) acc.
Proof.
  revert acc. induction s as [| x s IH]; intros acc Hacc; [reflexivity |].
  rewrite present_cons. simpl. destruct (is_nan x) eqn:E.
  - assert (Hm : np_maximum acc neg_infinity = acc).
    { unfold np_maximum. now rewrite (neg_infinity_leb acc Hacc). }
    rewrite Hm. now apply IH.
  - simpl. apply IH. now apply np_maximum_not_nan.
Qed.

Lemma fold_np_maximum_from_neg_infinity (s : Series) :
  present s <> [] ->
  fold_left np_maximum (fillna neg_infinity s) neg_infinity = np_max (present s).
Proof.
  induction s as [| x s IH]; intros Hne; [now elim Hne |].
  rewrite present_cons in *. simpl. destruct (is_nan x) eqn:E.
  - change (np_maximum neg_infinity neg_infinity) with neg_infinity. now apply IH.
  - simpl.
    assert (Hm : np_maximum neg_infinity x = x).
    { unfold np_maximum. change (is_nan neg_infinity) with false.
      rewrite orb_false_r. destruct (x <=? neg_infinity) eqn:Hx; [| reflexivity].
      symmetry. now apply leb_neg_infinity. }
    rewrite Hm. now apply fold_np_maximum_fillna.
Qed.

(** [s.max()] skips the NaN entries: it is the maximum of the entries
    that are present. *)
Lemma nanmax_present (s : Series) : present s <> [] -> nanmax s = np_max (present s).
Proof.
  intros Hne. unfold nanmax.
  assert (Hall : forallb is_nan s = false).
  { destruct (forallb is_nan s) eqn:E; [| reflexivity]. exfalso. apply Hne.
    rewrite forallb_forall in E. clear Hne.
    induction s as [| x s IH]; [reflexivity |].
    rewrite present_cons, (E x) by (left; reflexivity).
    apply IH. intros y Hy. apply E. now right. }
  rewrite Hall. destruct s as [| x s]; [now elim Hne |].
  rewrite present_cons in *. simpl. destruct (is_nan x) eqn:E.
  - now apply fold_np_maximum_from_neg_infinity.
  - simpl. now apply fold_np_maximum_fillna.
Qed.

Lemma present_finite_pos (s : Series) :
  Forall (fun v => is_nan v = true \/ finite_pos v = true) s ->
  Forall (fun v => finite_pos v = true) (present s).
Proof.
  induction 1 as [| x s Hx _ IH]; [constructor |].
  rewrite present_cons. destruct (is_nan x) eqn:E; [exact IH |].
  constructor; [| exact IH]. destruct Hx as [Hx | Hx]; [congruence | exact Hx].
Qed.

Lemma present_elem (s : Series) (v : float) : v ∈ present s -> v ∈ s.
Proof.
  unfold present. intros H. now apply list_elem_of_filter in H as [_ H].
Qed.

Lemma finite_pos_present (s : Series) (v : float) :
  v ∈ s -> finite_pos v = true -> v ∈ present s.
Proof.
  intros Hin Hv. unfold present. apply list_elem_of_filter. split; [| exact Hin].
  now rewrite (finite_pos_not_nan v Hv).
Qed.

Lemma nan_quotient (v m : float) : is_nan v = true -> is_nan (v / m * 100) = true.
Proof.
  intros Hv. apply is_nan_of_spec. rewrite mul_spec, div_spec.
  assert (Prim2SF v = S754_nan) as ->.
  { unfold is_nan in Hv. rewrite FloatAxioms.eqb_spec in Hv.
    destruct (Prim2SF v) as [s | s | | s mv e]; try reflexivity; exfalso.
    - discriminate.
    - destruct s; discriminate.
    - unfold SFeqb, SFcompare in Hv.
      rewrite Z.compare_refl in Hv.
      change (Pos.compare_cont Eq mv mv) with (Pos.compare mv mv) in Hv.
      rewrite Pos.compare_refl in Hv. destruct s; discriminate. }
  reflexivity.
Qed.

(** A column with missing values: when every entry is NaN or a positive
    number and some entry is present, the maximum is taken over the
    entries that are present; a NaN entry stays NaN, a present entry is
    mapped into the range from 0 to 100 and the largest to exactly
    100. *)
Theorem normalize_relative_with_missing (s : Series) :
  Forall (fun v => is_nan v = true \/ finite_pos v = true) s ->
  Exists (fun v => finite_pos v = true) s ->
  finite_pos (nanmax s) = true
  /\ nanmax s ∈ s
  /\ forall i v, s !! i = Some v ->
       exists r, normalize_relative s !! i = Some r
                 /\ (is_nan v = true -> is_nan r = true)
                 /\ (finite_pos v = true ->
                     (0 <=? r) = true /\ (r <=? 100) = true
                     /\ ((v =? nanmax s) = true -> r = 100)).
Proof.
  intros Hs Hex.
  assert (Hne : present s <> []).
  { apply Exists_exists in Hex as (v & Hin & Hv).
    pose proof (finite_pos_present s v Hin Hv) as Hp.
    intros E. rewrite E in Hp. inversion Hp. }
  pose proof (present_finite_pos s Hs) as Hp.
  destruct (nanmax_finite_pos (present s) Hne Hp) as (HM & Hin & Hall).
  assert (Emax : nanmax s = nanmax (present s)).
  { rewrite (nanmax_present s Hne). unfold nanmax.
    rewrite (fillna_finite_pos _ _ Hp).
    destruct (present s) as [| x r] eqn:E; [congruence |].
    inversion Hp; subst. simpl forallb.
    now rewrite (finite_pos_not_nan x) by assumption. }
  rewrite Emax. split; [exact HM |]. split; [now apply present_elem |].
  intros i v Hi. exists (v / nanmax s * 100).
  split; [now apply normalize_relative_lookup |]. rewrite Emax. split.
  - apply nan_quotient.
  - intros Hv.
    assert (Hvp : v ∈ present s).
    { apply finite_pos_present; [| exact Hv]. eapply list_elem_of_lookup_2. exact Hi. }
    rewrite Forall_forall in Hall.
    destruct (relative_of_smaller v (nanmax (present s)) Hv HM (Hall v Hvp)) as [H0 H100].
    repeat split; try assumption.
    intros Heq. rewrite <- (finite_pos_eqb_eq v _ Hv HM Heq).
    now apply relative_of_self.
Qed.

Lemma normalize_relative_with_missing_example :
  finite_pos (nanmax [28.0; nan; 3.5]) = true
  /\ nanmax [28.0; nan; 3.5] ∈ [28.0; nan; 3.5]
  /\ forall i v, [28.0; nan; 3.5] !! i = Some v ->
       exists r, normalize_relative [28.0; nan; 3.5] !! i = Some r
                 /\ (is_nan v = true -> is_nan r = true)
                 /\ (finite_pos v = true ->
                     (0 <=? r) = true /\ (r <=? 100) = true
                     /\ ((v =? nanmax [28.0; nan; 3.5]) = true -> r = 100)).
Proof.
  apply (normalize_relative_with_missing [28.0; nan; 3.5]).
  - constructor; [right; reflexivity |]. constructor; [left; reflexivity |].
    constructor; [right; reflexivity |]. constructor.
  - apply Exists_cons_hd. reflexivity.
Defined.

End MissingValues.

Section ReportRankings.

Import Currency Predictor.

(** The positions of a descending ranking, for a kernel that sorts. *)
Lemma nargsort_sorted_descending (argsort : list float -> list nat) (keys : list float) :
  sorts argsort -> no_nan keys ->
  Permutation (nargsort argsort keys false) (seq 0 (length keys))
  /\ Sorted (descending keys) (nargsort argsort keys false).
Proof.
  intros Hsorts Hk.
  assert (Hrev : no_nan (rev keys)).
  { unfold no_nan in *. rewrite Forall_forall in *. intros x Hx. apply Hk.
    now apply list_elem_of_In, in_rev, list_elem_of_In. }
  destruct (Hsorts (rev keys) Hrev) as [Hperm Hsorted].
  rewrite length_rev in Hperm.
  assert (Hbound : Forall (fun k => k < length keys) (argsort (rev keys))).
  { eapply Permutation_Forall; [symmetry; exact Hperm | apply seq_bounded]. }
  rewrite (nargsort_descending argsort keys Hk), np_take_rev_seq by exact Hbound.
  split.
  - rewrite <- Permutation_rev, Hperm, <- rev_seq. symmetry. apply Permutation_rev.
  - apply (Sorted_rev (ascending keys)).
    apply (Sorted_map_in _ (fun k => k < length keys) (ascending (rev keys)));
      [| exact Hbound | exact Hsorted].
    intros x y Hx Hy. unfold ascending. now rewrite !key_at_rev.
Qed.

(** The check that the keys at the positions [l] descend. *)
Fixpoint descends (keys : list float) (l : list nat) : bool :=
  match l with
  | [] => true
  | i :: rest =>
      match rest with
      | [] => true
      | j :: _ => (key_at keys j <=? key_at keys i)%float && descends keys rest
      end
  end.

Lemma Sorted_descends (keys : list float) (l : list nat) :
  Sorted (descending keys) l -> descends keys l = true.
Proof.
  induction 1 as [| i l Hs IH Hhd]; [reflexivity |].
  destruct Hhd as [| j l Hij]; [reflexivity |].
  simpl in *. now rewrite Hij, IH.
Qed.

(** When one order of the positions only descends, every kernel that
    sorts produces it: the ranking does not depend on the kernel. *)
Lemma ranking_unique (argsort : list float -> list nat) (keys : list float)
    (expected : list nat) :
  sorts argsort -> no_nan keys ->
  forallb (fun l => implb (descends keys l) (bool_decide (l = expected)))
          (permutations (seq 0 (length keys))) = true ->
  nargsort argsort keys false = expected.
Proof.
  intros Hsorts Hk Hall.
  destruct (nargsort_sorted_descending argsort keys Hsorts Hk) as [Hperm Hsorted].
  rewrite forallb_forall in Hall.
  assert (Hin : In (nargsort argsort keys false) (permutations (seq 0 (length keys)))).
  { apply list_elem_of_In, permutations_Permutation. now symmetry. }
  apply Hall in Hin. rewrite (Sorted_descends keys _ Hsorted) in Hin. simpl in Hin.
  now apply bool_decide_eq_true in Hin.
Qed.


Local Open Scope float_scope.

(** The table [analyze_purchasing_power] builds. *)
Definition ppp_table : DataFrame :=
  let cost := [100; 58; 127; 45] in
  mkDF (map KInt (range 0 4))
       (<["Currency_Fair_Value" := NumCol (currency_fair_value_col [18.5; 2.55; 23.4; 1.0] cost)]>
          (<["PPP_Adjusted_Income" :=
               NumCol (ppp_adjusted_income_col [85000; 12500; 52000; 6800] cost)]>
             (dict_of ppp_data))).

Lemma analyze_purchasing_power_table (self : Analyzer) :
  analyze_purchasing_power self = (Return ppp_table, self).
Proof.
  unfold analyze_purchasing_power, Obj.pure.
  apply (f_equal (fun r : py DataFrame => (r, self))).
  vm_compute. reflexivity.
Qed.

Lemma sort_values_descending (argsort : list float -> list nat) (df : DataFrame)
    (by_ : string) (keys : list float) :
  df_columns df !! by_ = Some (NumCol keys) ->
  sort_values argsort df by_ false = Return (df_take df (nargsort argsort keys false)).
Proof.
  intros H. unfold sort_values. now rewrite (num_column_Some df by_ keys H).
Qed.

(** The currency report, for every generator and every kernel that
    sorts: the PPP table is the analyzer's, the trends are the
    dashboard's, and the strength ranking is USA, England, China,
    South_Africa, because the four incomes differ. *)
Theorem currency_report_ranking (G : Type) (gauss : G -> float * G)
    (argsort : list float -> list nat) (g : G) (self : Analyzer) :
  sorts argsort ->
  exists report,
    fst (generate_currency_report G gauss argsort g) self = (Return report, self)
    /\ ppp_analysis report = ppp_table
    /\ str_column (strength_ranking report) "Country"
       = Return ["USA"; "England"; "China"; "South_Africa"]
    /\ strength_ranking report = df_take ppp_table [0; 2; 1; 3]%nat
    /\ (currency_trends report, report_volatility report)
       = fst (create_currency_dashboard G gauss g)
    /\ snd (generate_currency_report G gauss argsort g)
       = snd (create_currency_dashboard G gauss g).
Proof.
  intros Hsorts. unfold generate_currency_report.
  destruct (create_currency_dashboard G gauss g) as [[data vol] g'].
  cbn [fst snd]. unfold mbind, meth_bind.
  rewrite analyze_purchasing_power_table. unfold Obj.pure.
  rewrite (sort_values_descending argsort ppp_table "PPP_Adjusted_Income"
             (ppp_adjusted_income_col [85000; 12500; 52000; 6800] [100; 58; 127; 45]))
    by (vm_compute; reflexivity).
  rewrite (ranking_unique argsort _ [0; 2; 1; 3]%nat Hsorts).
  - eexists. split; [reflexivity |]. cbn [ppp_analysis strength_ranking currency_trends
                                           report_volatility].
    split; [reflexivity |]. split; [vm_compute; reflexivity |].
    split; [reflexivity |]. split; reflexivity.
  - repeat constructor.
  - vm_compute. reflexivity.
Qed.

Lemma currency_report_ranking_example :
  exists report,
    fst (generate_currency_report nat counting_gauss insertion_argsort 0%nat) Currency.init
    = (Return report, Currency.init)
    /\ ppp_analysis report = ppp_table
    /\ str_column (strength_ranking report) "Country"
       = Return ["USA"; "England"; "China"; "South_Africa"]
    /\ strength_ranking report = df_take ppp_table [0; 2; 1; 3]%nat
    /\ (currency_trends report, report_volatility report)
       = fst (create_currency_dashboard nat counting_gauss 0%nat)
    /\ snd (generate_currency_report nat counting_gauss insertion_argsort 0%nat)
       = snd (create_currency_dashboard nat counting_gauss 0%nat).
Proof.
  apply (currency_report_ranking nat counting_gauss insertion_argsort 0%nat Currency.init).
  exact insertion_argsort_sorts.
Defined.

End ReportRankings.

Section PredictionReport.

Import Predictor.
Local Open Scope float_scope.

Lemma load_data_run (files : gmap string DataFrame) (self : Predictor.Predictor)
    (priv pub emp : DataFrame) :
  files !! "south_africa_private_sector_growth.csv" = Some priv ->
  files !! "south_africa_public_sector_growth.csv" = Some pub ->
  files !! "employment_growth_predictions.csv" = Some emp ->
  load_data files self = (Return tt, mkPredictor (Some priv) (Some pub) (Some emp)).
Proof.
  intros H1 H2 H3.
  unfold load_data, read_csv, mbind, meth_bind, Obj.pure, setattr.
  now rewrite H1, H2, H3.
Qed.

(** The table [create_international_comparison] builds, and its
    [Composite_Power] column. *)
Definition comparison_table : DataFrame :=
  match result create_international_comparison Predictor.init with
  | Return df => df
  | Raise _ => mkDF [] ∅
  end.

Definition composite_power : Series :=
  match num_column comparison_table "Composite_Power" with
  | Return v => v
  | Raise _ => []
  end.

Lemma create_international_comparison_table (self : Predictor.Predictor) :
  create_international_comparison self = (Return comparison_table, self).
Proof.
  unfold create_international_comparison, Obj.pure.
  apply (f_equal (fun r : py DataFrame => (r, self))).
  vm_compute. reflexivity.
Qed.

Lemma employment_in_run (df : DataFrame) (year predicted : column) (y : Z) :
  df_columns df !! "Year" = Some year ->
  df_columns df !! "Predicted_Employment" = Some predicted ->
  employment_in df y
  = Return (col_sum (column_take predicted (mask_positions (col_eq_int year y)))).
Proof.
  intros Hy Hp. unfold employment_in, df_where_eq.
  rewrite (df_getitem_Some _ _ _ Hy). cbn [mbind py_bind].
  erewrite df_getitem_Some; [reflexivity |].
  unfold df_take. cbn [df_columns]. rewrite lookup_fmap, Hp. reflexivity.
Qed.

(** [generate_predictions] on files as [read_csv] gives them, with
    float64 growth and int64 employment and years, for every kernel that
    sorts: the forecast is the one of the indicators, the 2028
    employment is the int64 sum over the rows of that year, and the
    ranking lists USA, China, England, South_Africa whatever the files
    hold; the predictor keeps the frames with their new columns. *)
Theorem generate_predictions_run (argsort : list float -> list nat)
    (files : gmap string DataFrame) (self : Predictor.Predictor)
    (priv pub emp : DataFrame) (sector : list string) (growth growth_pub : Series)
    (employment employment_pub year predicted : list Z) :
  sorts argsort ->
  files !! "south_africa_private_sector_growth.csv" = Some priv ->
  files !! "south_africa_public_sector_growth.csv" = Some pub ->
  files !! "employment_growth_predictions.csv" = Some emp ->
  parsed priv -> parsed pub ->
  df_columns priv !! "Sector" = Some (StrCol sector) ->
  df_columns priv !! "Growth_%" = Some (NumCol growth) ->
  df_columns priv !! "Employment_2024" = Some (IntCol employment) ->
  df_columns pub !! "Growth_%" = Some (NumCol growth_pub) ->
  df_columns pub !! "Employment_2023" = Some (IntCol employment_pub) ->
  df_columns emp !! "Year" = Some (IntCol year) ->
  df_columns emp !! "Predicted_Employment" = Some (IntCol predicted) ->
  let total := int64_sum employment in
  let total_pub := int64_sum employment_pub in
  generate_predictions argsort files self
  = (Return {| forecast :=
                 forecast_of
                   (of_int64 (wrap64 (wrap64 (total * 85000) + wrap64 (total_pub * 75000)))
                    / 1e6)
                   (nansum (series_mul
                              (gdp_impact growth (series_map_dict sector private_gdp))
                              (map of_int64 employment))
                    / of_int64 total)
                   (nansum (series_mul
                              (gdp_impact growth_pub (map (fun _ => 0.20) (df_index pub)))
                              (map of_int64 employment_pub))
                    / of_int64 total_pub);
               international_comparison := comparison_table;
               employment_2028 :=
                 Int64 (int64_sum
                          (np_take predicted
                                   (mask_positions (map (fun z => (z =? 2028)%Z) year))));
               economic_ranking := df_take comparison_table [0; 1; 2; 3]%nat |},
     mkPredictor (Some (with_indicators_private priv sector growth))
                 (Some (with_indicators_public pub growth_pub)) (Some emp))
  /\ df_index (df_take comparison_table [0; 1; 2; 3]%nat)
     = [KStr "USA"; KStr "China"; KStr "England"; KStr "South_Africa"].
Proof.
  intros Hsorts Hf1 Hf2 Hf3 [Hpriv _] [Hpub _] Hs Hg He Hgp Hep Hy Hp total total_pub.
  split; [| vm_compute; reflexivity].
  unfold generate_predictions.
  unfold mbind at 1, meth_bind at 1.
  rewrite (load_data_run files self priv pub emp Hf1 Hf2 Hf3).
  unfold mbind at 1, meth_bind at 1.
  rewrite (calculate_economic_indicators_run priv pub (Some emp) (StrCol sector) (NumCol growth)
             (NumCol growth_pub) _ _ Hpriv Hpub Hs Hg Hgp eq_refl eq_refl).
  unfold mbind at 1, meth_bind at 1.
  erewrite predict_gdp_growth_run; cycle 1.
  - simpl. rewrite !lookup_insert_ne by done. exact He.
  - simpl. apply lookup_insert_eq.
  - simpl. rewrite !lookup_insert_ne by done. exact Hep.
  - simpl. apply lookup_insert_eq.
  - reflexivity.
  - reflexivity.
  - reflexivity.
  - unfold mbind at 1, meth_bind at 1.
    rewrite create_international_comparison_table.
    unfold mbind at 1, meth_bind at 1. unfold frame at 1. cbn [employment_predictions].
    unfold mbind at 1, meth_bind at 1. unfold Obj.pure at 1.
    rewrite (employment_in_run emp (IntCol year) (IntCol predicted) 2028 Hy Hp).
    unfold mbind at 1, meth_bind at 1. unfold Obj.pure at 1.
    rewrite (sort_values_descending argsort comparison_table "Composite_Power"
               composite_power) by (vm_compute; reflexivity).
    rewrite (ranking_unique argsort composite_power [0; 1; 2; 3]%nat Hsorts).
    + reflexivity.
    + repeat constructor.
    + vm_compute. reflexivity.
Qed.

Lemma generate_predictions_run_example :
  let total := int64_sum [1000; 2000]%Z in
  let total_pub := int64_sum [1500]%Z in
  generate_predictions insertion_argsort example_files Predictor.init
  = (Return {| forecast :=
                 forecast_of
                   (of_int64 (wrap64 (wrap64 (total * 85000) + wrap64 (total_pub * 75000)))
                    / 1e6)
                   (nansum (series_mul
                              (gdp_impact [10; 5]
                                 (series_map_dict ["Finance"; "ICT"] private_gdp))
                              (map of_int64 [1000; 2000]%Z))
                    / of_int64 total)
                   (nansum (series_mul
                              (gdp_impact [2] (map (fun _ => 0.20) (df_index example_public)))
                              (map of_int64 [1500]%Z))
                    / of_int64 total_pub);
               international_comparison := comparison_table;
               employment_2028 :=
                 Int64 (int64_sum
                          (np_take [17200000; 18100000; 19000000; 20100000]%Z
                             (mask_positions
                                (map (fun z => (z =? 2028)%Z) [2024; 2025; 2026; 2027]%Z))));
               economic_ranking := df_take comparison_table [0; 1; 2; 3]%nat |},
     mkPredictor (Some (with_indicators_private example_private ["Finance"; "ICT"] [10; 5]))
                 (Some (with_indicators_public example_public [2]))
                 (Some predictions_to_2027))
  /\ df_index (df_take comparison_table [0; 1; 2; 3]%nat)
     = [KStr "USA"; KStr "China"; KStr "England"; KStr "South_Africa"].
Proof.
  apply (generate_predictions_run insertion_argsort example_files Predictor.init
           example_private example_public predictions_to_2027
           ["Finance"; "ICT"] [10; 5] [2] [1000; 2000]%Z [1500]%Z
           [2024; 2025; 2026; 2027]%Z [17200000; 18100000; 19000000; 20100000]%Z);
    try exact insertion_argsort_sorts;
    try (apply parsed_check; [discriminate | vm_compute; reflexivity]);
    vm_compute; reflexivity.
Defined.

(** With one of the three files missing [generate_predictions] computes
    nothing: it ends with the FileNotFoundError of a file that is not
    there. *)
Theorem generate_predictions_missing_file (argsort : list float -> list nat)
    (files : gmap string DataFrame) (self : Predictor.Predictor) :
  files !! "south_africa_private_sector_growth.csv" = None
  \/ files !! "south_africa_public_sector_growth.csv" = None
  \/ files !! "employment_growth_predictions.csv" = None ->
  exists path,
    files !! path = None
    /\ result (generate_predictions argsort files) self = Raise (FileNotFoundError path).
Proof.
  intros H. unfold result, generate_predictions.
  unfold mbind at 1, meth_bind at 1.
  unfold load_data, read_csv, mbind, meth_bind, Obj.pure, setattr.
  destruct (files !! "south_africa_private_sector_growth.csv") as [priv |] eqn:E1;
    [| eexists; split; [exact E1 | reflexivity]].
  destruct (files !! "south_africa_public_sector_growth.csv") as [pub |] eqn:E2;
    [| eexists; split; [exact E2 | reflexivity]].
  destruct (files !! "employment_growth_predictions.csv") as [emp |] eqn:E3;
    [| eexists; split; [exact E3 | reflexivity]].
  destruct H as [H | [H | H]]; discriminate.
Qed.

Lemma generate_predictions_missing_file_example :
  exists path,
    (∅ : gmap string DataFrame) !! path = None
    /\ result (generate_predictions insertion_argsort ∅) Predictor.init
       = Raise (FileNotFoundError path).
Proof.
  apply (generate_predictions_missing_file insertion_argsort ∅ Predictor.init).
  left. reflexivity.
Defined.

End PredictionReport.

Section PowerIndexRanking.

Import Dashboard.
Local Open Scope float_scope.

Lemma dashboard_needs_four_countries_init :
  exists df, result create_comprehensive_dashboard Dashboard.init = Return df
             /\ str_column df "Country" = Return (Dashboard.countries Dashboard.init)
             /\ length (df_index df) = 4%nat
             /\ (exists v, num_column df "Economic_Power_Index" = Return v
                           /\ length v = 4%nat).
Proof.
  apply (proj1 (dashboard_needs_four_countries Dashboard.init)). reflexivity.
Defined.

(** [df[[name, ...]]]: the listed columns, KeyError for a name that is
    no column. *)
Definition df_select (df : DataFrame) (names : list string) : py DataFrame :=
  cols ← comprehension (fun name => c ← df_getitem df name; mret (name, c)) names;
  mret (mkDF (df_index df) (dict_of cols)).

(** The [Economic_Power_Index] column of the dashboard's table; it does
    not depend on the names of the countries. *)
Definition power_index : Series :=
  match result create_comprehensive_dashboard Dashboard.init with
  | Return df =>
      match num_column df "Economic_Power_Index" with
      | Return v => v
      | Raise _ => []
      end
  | Raise _ => []
  end.

(** The ranking the dashboard script prints, for every kernel that
    sorts and whatever the four countries are called: the second
    country comes first, then the first, the third and the fourth. *)
Theorem power_index_ranking (argsort : list float -> list nat) (self : Dashboard.Dashboard)
    (c1 c2 c3 c4 : string) :
  sorts argsort ->
  Dashboard.countries self = [c1; c2; c3; c4] ->
  exists df selected ranked,
    result create_comprehensive_dashboard self = Return df
    /\ df_select df ["Country"; "Economic_Power_Index"] = Return selected
    /\ sort_values argsort selected "Economic_Power_Index" false = Return ranked
    /\ str_column ranked "Country" = Return [c2; c1; c3; c4]
    /\ num_column ranked "Economic_Power_Index" = Return (np_take power_index [1; 0; 2; 3]%nat)
    /\ df_index ranked = [KInt 1; KInt 0; KInt 2; KInt 3].
Proof.
  intros Hsorts Hc. destruct self as [c]. simpl in Hc. subst c.
  eexists. eexists. eexists.
  split; [vm_compute; reflexivity |].
  split; [vm_compute; reflexivity |].
  split.
  - rewrite (sort_values_descending argsort _ "Economic_Power_Index" power_index)
      by (vm_compute; reflexivity).
    rewrite (ranking_unique argsort power_index [1; 0; 2; 3]%nat Hsorts);
      [reflexivity | repeat constructor | vm_compute; reflexivity].
  - split; [vm_compute; reflexivity |]. split; vm_compute; reflexivity.
Qed.

Lemma power_index_ranking_example :
  exists df selected ranked,
    result create_comprehensive_dashboard Dashboard.init = Return df
    /\ df_select df ["Country"; "Economic_Power_Index"] = Return selected
    /\ sort_values insertion_argsort selected "Economic_Power_Index" false = Return ranked
    /\ str_column ranked "Country" = Return ["China"; "USA"; "England"; "South_Africa"]
    /\ num_column ranked "Economic_Power_Index" = Return (np_take power_index [1; 0; 2; 3]%nat)
    /\ df_index ranked = [KInt 1; KInt 0; KInt 2; KInt 3].
Proof.
  apply (power_index_ranking insertion_argsort Dashboard.init
           "USA" "China" "England" "South_Africa").
  - exact insertion_argsort_sorts.
  - reflexivity.
Defined.

End PowerIndexRanking.
